(** * Pocky: the client-side task and project state manager

    A shallow embedding of the state manager of [src/app/page.tsx], the
    project-view sort of [components/ProjectView.tsx], the schedule picker
    of [components/SchedulePicker.tsx] and the task modal of
    [components/TaskModal.tsx], with the properties the specification
    states about them.

    Contents.
    - [JsString], [JsArray], [Json]: the strings, [Array.prototype.sort]
      and [JSON.stringify]/[JSON.parse] of the host, as far as the
      application uses them.
    - [Area], [Project], [Heading], [Task], [AppState]: the rows of
      [types/database.ts] and the state of [Home].
    - [Handlers], [Forms], [Views], [ProjectView], [Persistence]: the
      mutation handlers, the forms that guard them, the view filter, the
      project-view sort and the storage effects.
    - [Props]: the vocabulary of the statements; [Samples]: concrete
      rows and states for the examples.
    - Properties: handlers, sorting and the logbook, JSON texts,
      persistence, forms.

    Conventions.
    - A JavaScript string is the sequence of its UTF-16 code units,
      [list N]; [js "today"] is the string of an ASCII literal.
    - [new Date().toISOString()] and [crypto.randomUUID()] read the host:
      a handler that calls them takes the value read as an argument.
    - React state is the record [AppState]; a handler maps the state of
      the render it closes over to the state after its [set...] calls. *)

From Stdlib Require Import ZArith NArith Ascii String DecimalPos DecimalN.
From stdpp Require Import base decidable option list sorting gmap.

Local Open Scope string_scope.
Local Open Scope list_scope.
Local Open Scope N_scope.

(** ** JavaScript strings *)

Abbreviation jsstring := (list N).

Module JsString.

(** The code units of an ASCII literal. *)
Definition js (s : string) : jsstring :=
  List.map N_of_ascii (list_ascii_of_string s).

(** ToBoolean on a string: only the empty string is falsy. *)
Definition truthy (s : jsstring) : bool :=
  match s with [] => false | _ :: _ => true end.

(** ToBoolean on [string | null] (and on [string | undefined]). *)
Definition truthy_opt (o : option jsstring) : bool :=
  match o with None => false | Some s => truthy s end.

(** [a || null] on [string | null | undefined]. *)
Definition or_null (o : option jsstring) : option jsstring :=
  if truthy_opt o then o else None.

(** [a || b] with a [string | null] left operand and a string right
    operand. *)
Definition or_else (o : option jsstring) (d : jsstring) : jsstring :=
  match o with
  | Some s => if truthy s then s else d
  | None => d
  end.

(** WhiteSpace and LineTerminator code points of ECMAScript: what
    [String.prototype.trim] strips. All of them are single code units. *)
Definition isWhiteSpace (c : N) : bool :=
  (c =? 0x9) || (c =? 0xA) || (c =? 0xB) || (c =? 0xC) || (c =? 0xD)
  || (c =? 0x20) || (c =? 0xA0) || (c =? 0x1680)
  || ((0x2000 <=? c) && (c <=? 0x200A))
  || (c =? 0x2028) || (c =? 0x2029) || (c =? 0x202F) || (c =? 0x205F)
  || (c =? 0x3000) || (c =? 0xFEFF).

Fixpoint trimStart (s : jsstring) : jsstring :=
  match s with
  | [] => []
  | c :: r => if isWhiteSpace c then trimStart r else s
  end.

Definition trimEnd (s : jsstring) : jsstring :=
  rev (trimStart (rev s)).

(** [String.prototype.trim]. *)
Definition trim (s : jsstring) : jsstring := trimEnd (trimStart s).

(** [s.startsWith(p)]. *)
Fixpoint startsWith (p s : jsstring) : bool :=
  match p, s with
  | [], _ => true
  | _ :: _, [] => false
  | a :: p', b :: s' => (a =? b) && startsWith p' s'
  end.

(** [s.replace(pat, rep)] with a string pattern: the first occurrence
    of [pat] is replaced, and [s] is returned as it is when there is
    none. *)
Fixpoint replace (pat rep s : jsstring) : jsstring :=
  if startsWith pat s then rep ++ drop (length pat) s
  else match s with
       | [] => []
       | c :: r => c :: replace pat rep r
       end.

End JsString.

Import JsString.
Global Arguments js : simpl never.

(** ** Domain records ([src/types/database.ts]) *)

Inductive TaskStatus := Inbox | Active | Completed | Cancelled.
Inductive ProjectStatus := PActive | PCompleted | PSomeday.

(** The non-null values of a task's [schedule]. *)
Inductive Bucket := Anytime | Today | ThisWeek | NextWeek | Evening | Someday.

Global Instance TaskStatus_eq_dec : EqDecision TaskStatus.
Proof. solve_decision. Defined.
Global Instance ProjectStatus_eq_dec : EqDecision ProjectStatus.
Proof. solve_decision. Defined.
Global Instance Bucket_eq_dec : EqDecision Bucket.
Proof. solve_decision. Defined.

Module Area.
Record Row := mk {
  id : jsstring;
  user_id : jsstring;
  name : jsstring;
  position : Z;
  created_at : jsstring;
  updated_at : jsstring;
}.
End Area.

Module Project.
Record Row := mk {
  id : jsstring;
  user_id : jsstring;
  area_id : option jsstring;
  name : jsstring;
  emoji : option jsstring;
  notes : option jsstring;
  position : Z;
  status : ProjectStatus;
  deadline : option jsstring;
  created_at : jsstring;
  updated_at : jsstring;
  completed_at : option jsstring;
}.
End Project.

Module Heading.
Record Row := mk {
  id : jsstring;
  project_id : jsstring;
  name : jsstring;
  position : Z;
  created_at : jsstring;
}.
End Heading.

Module Task.
Record Row := mk {
  id : jsstring;
  user_id : jsstring;
  project_id : option jsstring;
  heading_id : option jsstring;
  title : jsstring;
  emoji : option jsstring;
  notes : option jsstring;
  status : TaskStatus;
  schedule : option Bucket;
  scheduled_date : option jsstring;
  deadline : option jsstring;
  position : Z;
  created_at : jsstring;
  updated_at : jsstring;
  completed_at : option jsstring;
}.
End Task.

(** [Partial<Project>] and [Partial<Task>]: a field is present
    ([Some]) or absent; [patch] is the spread [{ ...row, ...updates }]. *)
Module ProjectPartial.
Record t := mk {
  id : option jsstring;
  user_id : option jsstring;
  area_id : option (option jsstring);
  name : option jsstring;
  emoji : option (option jsstring);
  notes : option (option jsstring);
  position : option Z;
  status : option ProjectStatus;
  deadline : option (option jsstring);
  created_at : option jsstring;
  updated_at : option jsstring;
  completed_at : option (option jsstring);
}.

Definition patch (p : Project.Row) (u : t) : Project.Row :=
  {| Project.id := default (Project.id p) (id u);
     Project.user_id := default (Project.user_id p) (user_id u);
     Project.area_id := default (Project.area_id p) (area_id u);
     Project.name := default (Project.name p) (name u);
     Project.emoji := default (Project.emoji p) (emoji u);
     Project.notes := default (Project.notes p) (notes u);
     Project.position := default (Project.position p) (position u);
     Project.status := default (Project.status p) (status u);
     Project.deadline := default (Project.deadline p) (deadline u);
     Project.created_at := default (Project.created_at p) (created_at u);
     Project.updated_at := default (Project.updated_at p) (updated_at u);
     Project.completed_at := default (Project.completed_at p) (completed_at u) |}.
End ProjectPartial.

Module TaskPartial.
Record t := mk {
  id : option jsstring;
  user_id : option jsstring;
  project_id : option (option jsstring);
  heading_id : option (option jsstring);
  title : option jsstring;
  emoji : option (option jsstring);
  notes : option (option jsstring);
  status : option TaskStatus;
  schedule : option (option Bucket);
  scheduled_date : option (option jsstring);
  deadline : option (option jsstring);
  position : option Z;
  created_at : option jsstring;
  updated_at : option jsstring;
  completed_at : option (option jsstring);
}.

Definition patch (a : Task.Row) (u : t) : Task.Row :=
  {| Task.id := default (Task.id a) (id u);
     Task.user_id := default (Task.user_id a) (user_id u);
     Task.project_id := default (Task.project_id a) (project_id u);
     Task.heading_id := default (Task.heading_id a) (heading_id u);
     Task.title := default (Task.title a) (title u);
     Task.emoji := default (Task.emoji a) (emoji u);
     Task.notes := default (Task.notes a) (notes u);
     Task.status := default (Task.status a) (status u);
     Task.schedule := default (Task.schedule a) (schedule u);
     Task.scheduled_date := default (Task.scheduled_date a) (scheduled_date u);
     Task.deadline := default (Task.deadline a) (deadline u);
     Task.position := default (Task.position a) (position u);
     Task.created_at := default (Task.created_at a) (created_at u);
     Task.updated_at := default (Task.updated_at a) (updated_at u);
     Task.completed_at := default (Task.completed_at a) (completed_at u) |}.
End TaskPartial.

(** Setters for the one-field spreads of the handlers. *)
Definition Task_with_updated_at (now : jsstring) (a : Task.Row) : Task.Row :=
  Task.mk (Task.id a) (Task.user_id a) (Task.project_id a) (Task.heading_id a)
    (Task.title a) (Task.emoji a) (Task.notes a) (Task.status a)
    (Task.schedule a) (Task.scheduled_date a) (Task.deadline a)
    (Task.position a) (Task.created_at a) now (Task.completed_at a).

Definition Project_with_updated_at (now : jsstring) (p : Project.Row) : Project.Row :=
  Project.mk (Project.id p) (Project.user_id p) (Project.area_id p)
    (Project.name p) (Project.emoji p) (Project.notes p) (Project.position p)
    (Project.status p) (Project.deadline p) (Project.created_at p) now
    (Project.completed_at p).

Global Instance Area_eq_dec : EqDecision Area.Row.
Proof. solve_decision. Defined.
Global Instance Project_eq_dec : EqDecision Project.Row.
Proof. solve_decision. Defined.
Global Instance Heading_eq_dec : EqDecision Heading.Row.
Proof. solve_decision. Defined.
Global Instance Task_eq_dec : EqDecision Task.Row.
Proof. solve_decision. Defined.

(** ** Application state ([Home] in [src/app/page.tsx]) *)

(** The [useState] cells of [Home] that the handlers read or write.
    [activeView] is a [View]: one of the literals [today], [this_week],
    [next_week], [anytime], [someday], [logbook], or [project:<id>]. *)
Record AppState := mkState {
  activeView : jsstring;
  tasks : list Task.Row;
  projects : list Project.Row;
  areas : list Area.Row;
  headings : list Heading.Row;
  isAddingTask : bool;
  addingTaskHeadingId : option jsstring;
  selectedTask : option Task.Row;
  isLoaded : bool;
  isAddingProjectViaShortcut : bool;
}.

Definition setActiveView (v : jsstring) (st : AppState) : AppState :=
  mkState v (tasks st) (projects st) (areas st) (headings st)
    (isAddingTask st) (addingTaskHeadingId st) (selectedTask st) (isLoaded st)
    (isAddingProjectViaShortcut st).
Definition setTasks (v : list Task.Row) (st : AppState) : AppState :=
  mkState (activeView st) v (projects st) (areas st) (headings st)
    (isAddingTask st) (addingTaskHeadingId st) (selectedTask st) (isLoaded st)
    (isAddingProjectViaShortcut st).
Definition setProjects (v : list Project.Row) (st : AppState) : AppState :=
  mkState (activeView st) (tasks st) v (areas st) (headings st)
    (isAddingTask st) (addingTaskHeadingId st) (selectedTask st) (isLoaded st)
    (isAddingProjectViaShortcut st).
Definition setAreas (v : list Area.Row) (st : AppState) : AppState :=
  mkState (activeView st) (tasks st) (projects st) v (headings st)
    (isAddingTask st) (addingTaskHeadingId st) (selectedTask st) (isLoaded st)
    (isAddingProjectViaShortcut st).
Definition setHeadings (v : list Heading.Row) (st : AppState) : AppState :=
  mkState (activeView st) (tasks st) (projects st) (areas st) v
    (isAddingTask st) (addingTaskHeadingId st) (selectedTask st) (isLoaded st)
    (isAddingProjectViaShortcut st).
Definition setIsAddingTask (v : bool) (st : AppState) : AppState :=
  mkState (activeView st) (tasks st) (projects st) (areas st) (headings st)
    v (addingTaskHeadingId st) (selectedTask st) (isLoaded st) (isAddingProjectViaShortcut st).
Definition setAddingTaskHeadingId (v : option jsstring) (st : AppState) : AppState :=
  mkState (activeView st) (tasks st) (projects st) (areas st) (headings st)
    (isAddingTask st) v (selectedTask st) (isLoaded st) (isAddingProjectViaShortcut st).
Definition setSelectedTask (v : option Task.Row) (st : AppState) : AppState :=
  mkState (activeView st) (tasks st) (projects st) (areas st) (headings st)
    (isAddingTask st) (addingTaskHeadingId st) v (isLoaded st) (isAddingProjectViaShortcut st).
Definition setIsLoaded (v : bool) (st : AppState) : AppState :=
  mkState (activeView st) (tasks st) (projects st) (areas st) (headings st)
    (isAddingTask st) (addingTaskHeadingId st) (selectedTask st) v
    (isAddingProjectViaShortcut st).
Definition setIsAddingProjectViaShortcut (v : bool) (st : AppState) : AppState :=
  mkState (activeView st) (tasks st) (projects st) (areas st) (headings st)
    (isAddingTask st) (addingTaskHeadingId st) (selectedTask st) (isLoaded st) v.

(** The state of the first render: the initial values of the [useState]
    calls. *)
Definition initialState : AppState :=
  mkState (js "today") [] [] [] [] false None None false false.

(** The template literal [`project:${id}`]. *)
Definition projectView (id : jsstring) : jsstring := js "project:" ++ id.
Global Arguments projectView : simpl never.

(** [activeView.startsWith('project:') ? activeView.replace('project:', '') : null] *)
Definition currentProjectId (st : AppState) : option jsstring :=
  if startsWith (js "project:") (activeView st)
  then Some (replace (js "project:") [] (activeView st))
  else None.

(** A bucket as the string literal the source writes. *)
Definition bucket_name (b : Bucket) : jsstring :=
  match b with
  | Anytime => js "anytime"
  | Today => js "today"
  | ThisWeek => js "this_week"
  | NextWeek => js "next_week"
  | Evening => js "evening"
  | Someday => js "someday"
  end.

(** ** Mutation handlers ([src/app/page.tsx]) *)

Module Handlers.

(** [handleToggleTask(taskId, completed)]; [now] is the value of
    [new Date().toISOString()]. *)
Definition toggleTask (taskId : jsstring) (completed : bool) (now : jsstring)
    (task : Task.Row) : Task.Row :=
  if decide (Task.id task = taskId) then
    {| Task.id := Task.id task;
       Task.user_id := Task.user_id task;
       Task.project_id := Task.project_id task;
       Task.heading_id := Task.heading_id task;
       Task.title := Task.title task;
       Task.emoji := Task.emoji task;
       Task.notes := Task.notes task;
       Task.status := if completed then Completed else Active;
       Task.schedule := Task.schedule task;
       Task.scheduled_date := Task.scheduled_date task;
       Task.deadline := Task.deadline task;
       Task.position := Task.position task;
       Task.created_at := Task.created_at task;
       Task.updated_at := Task.updated_at task;
       Task.completed_at := if completed then Some now else None |}
  else task.

Definition handleToggleTask (taskId : jsstring) (completed : bool)
    (now : jsstring) (st : AppState) : AppState :=
  setTasks (toggleTask taskId completed now <$> tasks st) st.

(** [handleScheduleTask(taskId, schedule)]: the new value is
    [schedule || 'anytime']; every bucket literal is a non-empty
    string, so only [null] takes the default. *)
Definition scheduleTask (taskId : jsstring) (schedule : option Bucket)
    (task : Task.Row) : Task.Row :=
  if decide (Task.id task = taskId) then
    {| Task.id := Task.id task;
       Task.user_id := Task.user_id task;
       Task.project_id := Task.project_id task;
       Task.heading_id := Task.heading_id task;
       Task.title := Task.title task;
       Task.emoji := Task.emoji task;
       Task.notes := Task.notes task;
       Task.status := Task.status task;
       Task.schedule := Some (match schedule with
                              | Some b => b
                              | None => Anytime
                              end);
       Task.scheduled_date := Task.scheduled_date task;
       Task.deadline := Task.deadline task;
       Task.position := Task.position task;
       Task.created_at := Task.created_at task;
       Task.updated_at := Task.updated_at task;
       Task.completed_at := Task.completed_at task |}
  else task.

Definition handleScheduleTask (taskId : jsstring) (schedule : option Bucket)
    (st : AppState) : AppState :=
  setTasks (scheduleTask taskId schedule <$> tasks st) st.

(** [handleDeleteTask(taskId)] *)
Definition handleDeleteTask (taskId : jsstring) (st : AppState) : AppState :=
  setTasks (filter (fun t => Task.id t <> taskId) (tasks st)) st.

(** [handleDeleteProject(projectId)]: three filters, then the view
    falls back to [today] when it showed the deleted project. *)
Definition handleDeleteProject (projectId : jsstring) (st : AppState) : AppState :=
  let st1 := setProjects (filter (fun p => Project.id p <> projectId) (projects st)) st in
  let st2 := setTasks (filter (fun t => Task.project_id t <> Some projectId) (tasks st)) st1 in
  let st3 := setHeadings (filter (fun h => Heading.project_id h <> projectId) (headings st)) st2 in
  if decide (activeView st = projectView projectId)
  then setActiveView (js "today") st3
  else st3.

(** [handleMoveTaskToProject(taskId, projectId)] *)
Definition moveTaskToProject (taskId projectId now : jsstring)
    (task : Task.Row) : Task.Row :=
  if decide (Task.id task = taskId) then
    {| Task.id := Task.id task;
       Task.user_id := Task.user_id task;
       Task.project_id := Some projectId;
       Task.heading_id := None;
       Task.title := Task.title task;
       Task.emoji := Task.emoji task;
       Task.notes := Task.notes task;
       Task.status := Task.status task;
       Task.schedule := Task.schedule task;
       Task.scheduled_date := Task.scheduled_date task;
       Task.deadline := Task.deadline task;
       Task.position := Task.position task;
       Task.created_at := Task.created_at task;
       Task.updated_at := now;
       Task.completed_at := Task.completed_at task |}
  else task.

Definition handleMoveTaskToProject (taskId projectId now : jsstring)
    (st : AppState) : AppState :=
  setTasks (moveTaskToProject taskId projectId now <$> tasks st) st.

(** [handleMoveTaskToSchedule(taskId, schedule)] *)
Definition moveTaskToSchedule (taskId : jsstring) (schedule : Bucket)
    (now : jsstring) (task : Task.Row) : Task.Row :=
  if decide (Task.id task = taskId) then
    {| Task.id := Task.id task;
       Task.user_id := Task.user_id task;
       Task.project_id := Task.project_id task;
       Task.heading_id := Task.heading_id task;
       Task.title := Task.title task;
       Task.emoji := Task.emoji task;
       Task.notes := Task.notes task;
       Task.status := Task.status task;
       Task.schedule := Some schedule;
       Task.scheduled_date := Task.scheduled_date task;
       Task.deadline := Task.deadline task;
       Task.position := Task.position task;
       Task.created_at := Task.created_at task;
       Task.updated_at := now;
       Task.completed_at := Task.completed_at task |}
  else task.

Definition handleMoveTaskToSchedule (taskId : jsstring) (schedule : Bucket)
    (now : jsstring) (st : AppState) : AppState :=
  setTasks (moveTaskToSchedule taskId schedule now <$> tasks st) st.

(** [handleUpdateTaskEmoji(taskId, emoji)] *)
Definition handleUpdateTaskEmoji (taskId emoji now : jsstring)
    (st : AppState) : AppState :=
  setTasks
    ((fun task =>
        if decide (Task.id task = taskId)
        then Task_with_updated_at now
               (TaskPartial.patch task
                  (TaskPartial.mk None None None None None (Some (Some emoji))
                     None None None None None None None None None))
        else task) <$> tasks st) st.

(** [handleUpdateProjectEmoji(projectId, emoji)] *)
Definition handleUpdateProjectEmoji (projectId emoji now : jsstring)
    (st : AppState) : AppState :=
  setProjects
    ((fun project =>
        if decide (Project.id project = projectId)
        then Project_with_updated_at now
               (ProjectPartial.patch project
                  (ProjectPartial.mk None None None None (Some (Some emoji))
                     None None None None None None None))
        else project) <$> projects st) st.

(** [handleUpdateTask(taskId, updates)] *)
Definition handleUpdateTask (taskId : jsstring) (updates : TaskPartial.t)
    (now : jsstring) (st : AppState) : AppState :=
  setTasks
    ((fun task =>
        if decide (Task.id task = taskId)
        then Task_with_updated_at now (TaskPartial.patch task updates)
        else task) <$> tasks st) st.

(** [handleUpdateProject(updates)]: nothing outside a project view. *)
Definition handleUpdateProject (updates : ProjectPartial.t) (now : jsstring)
    (st : AppState) : AppState :=
  match currentProjectId st with
  | Some cur =>
      if truthy cur then
        setProjects
          ((fun p =>
              if decide (Project.id p = cur)
              then Project_with_updated_at now (ProjectPartial.patch p updates)
              else p) <$> projects st) st
      else st
  | None => st
  end.

(** [handleAddHeading(name)]: nothing outside a project view; the
    position is the number of headings of the current project. *)
Definition handleAddHeading (name uuid now : jsstring) (st : AppState) : AppState :=
  match currentProjectId st with
  | Some cur =>
      if truthy cur then
        let projectHeadings :=
          filter (fun h => Heading.project_id h = cur) (headings st) in
        let newHeading :=
          {| Heading.id := uuid;
             Heading.project_id := cur;
             Heading.name := name;
             Heading.position := Z.of_nat (length projectHeadings);
             Heading.created_at := now |} in
        setHeadings (headings st ++ [newHeading]) st
      else st
  | None => st
  end.

(** The callback of [handleSnoozeAllToNextWeek] on a task it moves:
    [{ ...task, schedule: 'next_week', updated_at: now }], where [now]
    is the clock as the callback reads it. *)
Definition snoozeTask (now : jsstring) (task : Task.Row) : Task.Row :=
  Task_with_updated_at now
    (TaskPartial.patch task
       (TaskPartial.mk None None None None None None None None
          (Some (Some NextWeek)) None None None None None None)).

(** [tasks.map(task => ... ? { ... } : task)]: the callback reads the
    clock once for each task it moves, in the order of the array;
    [clock k] is reading number [k] of the call, and [k] counts the
    readings made so far. *)
Fixpoint snoozeAll (clock : nat -> jsstring) (k : nat) (l : list Task.Row)
    : list Task.Row :=
  match l with
  | [] => []
  | task :: l' =>
      if decide (Task.schedule task = Some ThisWeek /\ Task.status task <> Completed)
      then snoozeTask (clock k) task :: snoozeAll clock (S k) l'
      else task :: snoozeAll clock k l'
  end.

(** [handleSnoozeAllToNextWeek()] *)
Definition handleSnoozeAllToNextWeek (clock : nat -> jsstring) (st : AppState)
    : AppState :=
  setTasks (snoozeAll clock 0 (tasks st)) st.

(** [handleReorderTasks(reorderedTasks)]: the tasks outside the
    reordered ones, then the reordered ones. *)
Definition handleReorderTasks (reorderedTasks : list Task.Row)
    (st : AppState) : AppState :=
  let reorderedIds : gset jsstring := list_to_set (Task.id <$> reorderedTasks) in
  let otherTasks := filter (fun t => Task.id t ∉ reorderedIds) (tasks st) in
  setTasks (otherTasks ++ reorderedTasks) st.

(** [handleReorderProjects(reorderedProjects)]: the reordered projects,
    then the others. *)
Definition handleReorderProjects (reorderedProjects : list Project.Row)
    (st : AppState) : AppState :=
  let reorderedIds : gset jsstring := list_to_set (Project.id <$> reorderedProjects) in
  let otherProjects := filter (fun p => Project.id p ∉ reorderedIds) (projects st) in
  setProjects (reorderedProjects ++ otherProjects) st.

(** The payload of the task modal. *)
Record TaskData := mkTaskData {
  data_title : jsstring;
  data_notes : jsstring;
  data_deadline : option jsstring;
}.

Section WithEmoji.

(** [generateEmoji] of [utils/emoji]: the emoji suggested for a
    title. The handlers store what it returns. *)
Variable generateEmoji : jsstring -> jsstring.

(** [handleCreateProject(name, areaId?)]; [uuid], [created] and
    [updated] are the host values read, in this order. *)
Definition handleCreateProject (name : jsstring) (areaId : option jsstring)
    (uuid created updated : jsstring) (st : AppState) : AppState :=
  let newProject :=
    {| Project.id := uuid;
       Project.user_id := js "demo";
       Project.area_id := or_null areaId;
       Project.name := name;
       Project.emoji := Some (generateEmoji name);
       Project.notes := None;
       Project.position := Z.of_nat (length (projects st));
       Project.status := PActive;
       Project.deadline := None;
       Project.created_at := created;
       Project.updated_at := updated;
       Project.completed_at := None |} in
  setActiveView (projectView uuid) (setProjects (projects st ++ [newProject]) st).

(** [handleAddTask(taskData)] *)
Definition handleAddTask (taskData : TaskData)
    (uuid created updated : jsstring) (st : AppState) : AppState :=
  let newTask :=
    {| Task.id := uuid;
       Task.user_id := js "demo";
       Task.project_id := currentProjectId st;
       Task.heading_id := or_null (addingTaskHeadingId st);
       Task.title := data_title taskData;
       Task.emoji := Some (generateEmoji (data_title taskData));
       Task.notes := or_null (Some (data_notes taskData));
       Task.status := Active;
       Task.schedule :=
         Some (if bool_decide (activeView st = js "today") then Today
               else if bool_decide (activeView st = js "this_week") then ThisWeek
               else if bool_decide (activeView st = js "next_week") then NextWeek
               else if bool_decide (activeView st = js "anytime") then Anytime
               else if bool_decide (activeView st = js "someday") then Someday
               else Anytime);
       Task.scheduled_date := None;
       Task.deadline := data_deadline taskData;
       Task.position := Z.of_nat (length (tasks st));
       Task.created_at := created;
       Task.updated_at := updated;
       Task.completed_at := None |} in
  setAddingTaskHeadingId None
    (setIsAddingTask false (setTasks (tasks st ++ [newTask]) st)).

(** [handleConvertToProject(task)] *)
Definition handleConvertToProject (task : Task.Row)
    (uuid created updated : jsstring) (st : AppState) : AppState :=
  let newProject :=
    {| Project.id := uuid;
       Project.user_id := js "demo";
       Project.area_id := None;
       Project.name := Task.title task;
       Project.emoji :=
         Some (or_else (Task.emoji task) (generateEmoji (Task.title task)));
       Project.notes := Task.notes task;
       Project.position := Z.of_nat (length (projects st));
       Project.status := PActive;
       Project.deadline := Task.deadline task;
       Project.created_at := created;
       Project.updated_at := updated;
       Project.completed_at := None |} in
  setSelectedTask None
    (setActiveView (projectView uuid)
       (setTasks (filter (fun t => Task.id t <> Task.id task) (tasks st))
          (setProjects (projects st ++ [newProject]) st))).

End WithEmoji.

End Handlers.

(** ** Forms that guard the handlers *)

Module Forms.

Import Handlers.

(** [handleSubmit] of [components/TaskModal.tsx]: [title], [notes] and
    [deadline] are the fields as typed; the parent's [onSubmit] runs
    only for a title that is not blank. *)
Definition TaskModal_handleSubmit {S} (title notes deadline : jsstring)
    (onSubmit : TaskData -> S -> S) (s : S) : S :=
  if truthy (trim title)
  then onSubmit (mkTaskData (trim title) (trim notes) (or_null (Some deadline))) s
  else s.



Section Wired.

Variable generateEmoji : jsstring -> jsstring.

(** The task modal as [Home] mounts it: [onSubmit={handleAddTask}]. *)
Definition submitTask (title notes deadline uuid created updated : jsstring)
    (st : AppState) : AppState :=
  TaskModal_handleSubmit title notes deadline
    (fun data => handleAddTask generateEmoji data uuid created updated) st.



End Wired.

End Forms.

(** ** [Array.prototype.sort] *)

Module JsArray.

(** A comparator's result: an integral Number, or [None] for NaN. *)
Abbreviation number := (option Z).

(** [a - b] on Numbers. *)
Definition sub (a b : number) : number :=
  match a, b with
  | Some x, Some y => Some (x - y)%Z
  | _, _ => None
  end.

(** SortCompare of ECMAScript, given a comparator: NaN counts as [+0]. *)
Definition SortCompare {A} (comparefn : A -> A -> number) (x y : A) : Z :=
  match comparefn x y with
  | Some v => v
  | None => 0%Z
  end.

(** [x] is put in front of the first element it does not sort after. *)
Fixpoint insert {A} (comparefn : A -> A -> number) (x : A) (l : list A) : list A :=
  match l with
  | [] => [x]
  | y :: l' =>
      if (SortCompare comparefn x y <=? 0)%Z
      then x :: y :: l'
      else y :: insert comparefn x l'
  end.

(** [[...l].sort(comparefn)]. ECMAScript fixes the result for a
    consistent comparator: the stable arrangement in comparator order,
    which is what a stable insertion sort computes. For an inconsistent
    comparator the order is left to the implementation. *)
Fixpoint sort {A} (comparefn : A -> A -> number) (l : list A) : list A :=
  match l with
  | [] => []
  | x :: l' => insert comparefn x (sort comparefn l')
  end.

(** [l.indexOf(x)] as a Number: [-1] when [x] is absent. *)
Fixpoint indexOf {A} `{EqDecision A} (x : A) (l : list A) : Z :=
  match l with
  | [] => (-1)%Z
  | y :: l' =>
      if decide (y = x) then 0%Z
      else let i := indexOf x l' in
           if (i =? -1)%Z then (-1)%Z else (i + 1)%Z
  end.

End JsArray.

(** ** The schedule picker ([components/SchedulePicker.tsx]) *)

Module SchedulePicker.

(** A click on the option of bucket [b]: [onSelect(option.id)]. *)
Definition clickOption {S} (b : Bucket) (onSelect : option Bucket -> S -> S)
    : S -> S :=
  onSelect (Some b).

(** A click on Clear: [onSelect(null)]. The button is there only for a
    task that has a schedule. *)
Definition clickClear {S} (currentSchedule : option Bucket)
    (onSelect : option Bucket -> S -> S) : option (S -> S) :=
  match currentSchedule with
  | Some _ => Some (onSelect None)
  | None => None
  end.

End SchedulePicker.

(** ** The project view's sort ([components/ProjectView.tsx]) *)

Inductive SortOption := Manual | DueDate | Schedule | Title | Created.

Module ProjectView.

Import JsArray.

(** The picker of a task item, as the list mounts it:
    [onSelect={(schedule) => onScheduleTask(task.id, schedule)}], with
    [onScheduleTask={handleScheduleTask}] from [Home]. *)
Definition pickerSelect (task : Task.Row) (schedule : option Bucket)
    : AppState -> AppState :=
  Handlers.handleScheduleTask (Task.id task) schedule.

Section Sort.

(** [new Date(s).getTime()] of the host: the time value in
    milliseconds, [None] for NaN (an invalid date). *)
Variable Date_getTime : jsstring -> number.

(** [a.localeCompare(b)] of the host. *)
Variable localeCompare : jsstring -> jsstring -> Z.

(** [a.schedule ? scheduleOrder[a.schedule] || 99 : 99] *)
Definition scheduleOrder (s : option Bucket) : Z :=
  match s with
  | Some Today => 1
  | Some ThisWeek => 2
  | Some NextWeek => 3
  | Some Anytime => 4
  | Some Someday => 5
  | Some Evening => 99
  | None => 99
  end%Z.

(** The comparator of [sortTasks], by mode; [localTaskOrder] is the
    component's manual order. In due-date mode [!a.deadline] holds for
    [null] and for the empty string; the dates are read only where both
    deadlines are strings. *)
Definition compareTasks (sortBy : SortOption) (localTaskOrder : list jsstring)
    (a b : Task.Row) : number :=
  match sortBy with
  | Manual =>
      let aIndex := indexOf (Task.id a) localTaskOrder in
      let bIndex := indexOf (Task.id b) localTaskOrder in
      if (aIndex =? -1)%Z && (bIndex =? -1)%Z then Some 0%Z
      else if (aIndex =? -1)%Z then Some 1%Z
      else if (bIndex =? -1)%Z then Some (-1)%Z
      else Some (aIndex - bIndex)%Z
  | DueDate =>
      let noA := negb (truthy_opt (Task.deadline a)) in
      let noB := negb (truthy_opt (Task.deadline b)) in
      if noA && noB then Some 0%Z
      else if noA then Some 1%Z
      else if noB then Some (-1)%Z
      else sub (Date_getTime (default [] (Task.deadline a)))
               (Date_getTime (default [] (Task.deadline b)))
  | Schedule =>
      Some (scheduleOrder (Task.schedule a) - scheduleOrder (Task.schedule b))%Z
  | Title => Some (localeCompare (Task.title a) (Task.title b))
  | Created =>
      sub (Date_getTime (Task.created_at b)) (Date_getTime (Task.created_at a))
  end.

Definition sortTasks (sortBy : SortOption) (localTaskOrder : list jsstring)
    (tasksToSort : list Task.Row) : list Task.Row :=
  sort (compareTasks sortBy localTaskOrder) tasksToSort.

End Sort.

End ProjectView.

(** ** The view filter ([filteredTasks] in [src/app/page.tsx]) *)

Module Views.

Import JsArray.

Section Filter.

Variable Date_getTime : jsstring -> number.

(** The predicate handed to [tasks.filter]. *)
Definition inView (view : jsstring) (task : Task.Row) : bool :=
  if startsWith (js "project:") view then
    bool_decide (Task.project_id task = Some (replace (js "project:") [] view))
  else if bool_decide (view = js "today") then
    bool_decide (Task.schedule task = Some Today)
    && bool_decide (Task.status task <> Completed)
  else if bool_decide (view = js "this_week") then
    bool_decide (Task.schedule task = Some ThisWeek)
    && bool_decide (Task.status task <> Completed)
  else if bool_decide (view = js "next_week") then
    bool_decide (Task.schedule task = Some NextWeek)
    && bool_decide (Task.status task <> Completed)
  else if bool_decide (view = js "anytime") then
    bool_decide (Task.schedule task = Some Anytime)
    && bool_decide (Task.status task <> Completed)
  else if bool_decide (view = js "someday") then
    bool_decide (Task.schedule task = Some Someday)
    && bool_decide (Task.status task <> Completed)
  else if bool_decide (view = js "logbook") then
    bool_decide (Task.status task = Completed)
  else false.

(** [a.completed_at || a.updated_at] *)
Definition logbookDate (a : Task.Row) : jsstring :=
  or_else (Task.completed_at a) (Task.updated_at a).

(** The comparator handed to [.sort]: only the logbook is ordered. *)
Definition compareInView (view : jsstring) (a b : Task.Row) : number :=
  if bool_decide (view = js "logbook") then
    sub (Date_getTime (logbookDate b)) (Date_getTime (logbookDate a))
  else Some 0%Z.

Definition filteredTasks (st : AppState) : list Task.Row :=
  sort (compareInView (activeView st))
    (List.filter (inView (activeView st)) (tasks st)).

End Filter.

End Views.

(** ** ISO dates, for the examples *)

Module IsoDate.

(** The value of a decimal digit, if the code unit is one. *)
Definition digit (c : N) : option Z :=
  if (48 <=? c) && (c <=? 57) then Some (Z.of_N c - 48)%Z else None.

Fixpoint digits (acc : Z) (s : jsstring) : option Z :=
  match s with
  | [] => Some acc
  | c :: r => match digit c with
              | Some d => digits (10 * acc + d)%Z r
              | None => None
              end
  end.

Definition isLeap (y : Z) : bool :=
  ((y mod 4 =? 0) && negb (y mod 100 =? 0) || (y mod 400 =? 0))%Z.

Definition daysInMonth (y m : Z) : Z :=
  (if m =? 2 then (if isLeap y then 29 else 28)
   else if (m =? 4) || (m =? 6) || (m =? 9) || (m =? 11) then 30
   else 31)%Z.

(** Days from 1970-01-01 to the civil date [y]-[m]-[d]. *)
Definition daysFromCivil (y m d : Z) : Z :=
  (let y' := if m <=? 2 then y - 1 else y in
   let era := y' / 400 in
   let yoe := y' - era * 400 in
   let mp := (m + 9) mod 12 in
   let doy := (153 * mp + 2) / 5 + d - 1 in
   let doe := yoe * 365 + yoe / 4 - yoe / 100 + doy in
   era * 146097 + doe - 719468)%Z.

Definition date (s : jsstring) : option Z :=
  match s with
  | [y1; y2; y3; y4; 45; m1; m2; 45; d1; d2] =>
      match digits 0 [y1; y2; y3; y4], digits 0 [m1; m2], digits 0 [d1; d2] with
      | Some y, Some m, Some d =>
          if ((1 <=? m) && (m <=? 12) && (1 <=? d) && (d <=? daysInMonth y m))%Z
          then Some (daysFromCivil y m d * 86400000)%Z
          else None
      | _, _, _ => None
      end
  | _ => None
  end.

Definition time (s : jsstring) : option Z :=
  match s with
  | [84; h1; h2; 58; m1; m2; 58; s1; s2; 46; f1; f2; f3; 90] =>
      match digits 0 [h1; h2], digits 0 [m1; m2], digits 0 [s1; s2],
            digits 0 [f1; f2; f3] with
      | Some h, Some m, Some sec, Some ms =>
          if ((h <=? 23) && (m <=? 59) && (sec <=? 59))%Z
          then Some (((h * 60 + m) * 60 + sec) * 1000 + ms)%Z
          else None
      | _, _, _, _ => None
      end
  | _ => None
  end.

(** The time value of the two ISO forms the application produces:
    [YYYY-MM-DD] (a date input, read as UTC midnight) and
    [YYYY-MM-DDTHH:mm:ss.sssZ] (the output of [toISOString]); [None],
    that is NaN, for any other string. An instance of the host's
    [new Date(s).getTime()] on which the examples run. *)
Definition getTime (s : jsstring) : option Z :=
  match date (take 10 s) with
  | Some d =>
      match drop 10 s with
      | [] => Some d
      | t => match time t with
             | Some ms => Some (d + ms)%Z
             | None => None
             end
      end
  | None => None
  end.

End IsoDate.

(** ** JSON texts ([JSON.stringify] and [JSON.parse]) *)

Module Json.

(** The code unit of an ASCII character. *)
Definition ch (c : ascii) : N := N_of_ascii c.

(** A JSON value. A number is an integer: the records hold positions,
    which are lengths and indices. The members of an object are in
    property order; the keys of the records are names, so none is an
    array index, which JavaScript would move to the front. *)
Local Unset Elimination Schemes.
Inductive value :=
| Null
| Bool (b : bool)
| Num (z : Z)
| Str (s : jsstring)
| Arr (l : list value)
| Obj (l : list (jsstring * value)).
Local Set Elimination Schemes.

(** *** Numbers *)

Fixpoint uint_units (d : Decimal.uint) : jsstring :=
  match d with
  | Decimal.Nil => []
  | Decimal.D0 d => 48 :: uint_units d
  | Decimal.D1 d => 49 :: uint_units d
  | Decimal.D2 d => 50 :: uint_units d
  | Decimal.D3 d => 51 :: uint_units d
  | Decimal.D4 d => 52 :: uint_units d
  | Decimal.D5 d => 53 :: uint_units d
  | Decimal.D6 d => 54 :: uint_units d
  | Decimal.D7 d => 55 :: uint_units d
  | Decimal.D8 d => 56 :: uint_units d
  | Decimal.D9 d => 57 :: uint_units d
  end.

(** Number::toString on an integer: decimal digits, a minus sign for
    a negative one. *)
Definition number_units (z : Z) : jsstring :=
  (if (z <? 0)%Z then [ch "-"] else []) ++ uint_units (N.to_uint (Z.abs_N z)).

Definition is_digit (c : N) : bool := (48 <=? c) && (c <=? 57).

(** The longest run of digits at the front of [s], and what follows. *)
Fixpoint read_uint (s : jsstring) : Decimal.uint * jsstring :=
  match s with
  | [] => (Decimal.Nil, [])
  | c :: r =>
      if is_digit c then
        let '(d, rest) := read_uint r in
        ((if c =? 48 then Decimal.D0 d
          else if c =? 49 then Decimal.D1 d
          else if c =? 50 then Decimal.D2 d
          else if c =? 51 then Decimal.D3 d
          else if c =? 52 then Decimal.D4 d
          else if c =? 53 then Decimal.D5 d
          else if c =? 54 then Decimal.D6 d
          else if c =? 55 then Decimal.D7 d
          else if c =? 56 then Decimal.D8 d
          else Decimal.D9 d), rest)
      else (Decimal.Nil, s)
  end.

(** A JSON integer: [0] or a digit run without a leading zero. A
    fraction or an exponent is not read: such a number is no integer
    literal. *)
Definition parse_int (s : jsstring) : option (N * jsstring) :=
  let '(d, rest) := read_uint s in
  if Decimal.uint_eq_dec (Decimal.unorm d) d then
    match rest with
    | c :: _ =>
        if (c =? ch ".") || (c =? ch "e") || (c =? ch "E") then None
        else Some (N.of_uint d, rest)
    | [] => Some (N.of_uint d, rest)
    end
  else None.

Definition parse_number (s : jsstring) : option (Z * jsstring) :=
  match s with
  | c :: r =>
      if c =? ch "-" then
        match parse_int r with
        | Some (n, rest) => Some ((- Z.of_N n)%Z, rest)
        | None => None
        end
      else
        match parse_int s with
        | Some (n, rest) => Some (Z.of_N n, rest)
        | None => None
        end
  | [] => None
  end.

(** *** Strings *)

Definition hex_digit (n : N) : N :=
  if n <? 10 then 48 + n else 87 + n.

Definition hex_value (c : N) : option N :=
  if (48 <=? c) && (c <=? 57) then Some (c - 48)
  else if (97 <=? c) && (c <=? 102) then Some (c - 87)
  else if (65 <=? c) && (c <=? 70) then Some (c - 55)
  else None.

(** UnicodeEscape: a backslash (code unit 92), [u] and four lower-case
    hexadecimal digits. *)
Definition unicode_escape (c : N) : jsstring :=
  [92; ch "u";
   hex_digit (c / 4096 mod 16); hex_digit (c / 256 mod 16);
   hex_digit (c / 16 mod 16); hex_digit (c mod 16)].

Definition is_leading_surrogate (c : N) : bool := (0xD800 <=? c) && (c <=? 0xDBFF).
Definition is_trailing_surrogate (c : N) : bool := (0xDC00 <=? c) && (c <=? 0xDFFF).

(** QuoteJSONString on a code point that is one code unit; 34 is the
    quotation mark and 92 the backslash. *)
Definition quote_unit (c : N) : jsstring :=
  if c =? 8 then [92; ch "b"]
  else if c =? 9 then [92; ch "t"]
  else if c =? 10 then [92; ch "n"]
  else if c =? 12 then [92; ch "f"]
  else if c =? 13 then [92; ch "r"]
  else if c =? 34 then [92; 34]
  else if c =? 92 then [92; 92]
  else if (c <? 32) || is_leading_surrogate c || is_trailing_surrogate c
  then unicode_escape c
  else [c].

(** The characters between the quotes: a surrogate pair is one code
    point and is kept, a lone surrogate is escaped. *)
Fixpoint quote_body (s : jsstring) : jsstring :=
  match s with
  | [] => []
  | c :: r =>
      if is_leading_surrogate c then
        match r with
        | d :: r' =>
            if is_trailing_surrogate d then c :: d :: quote_body r'
            else quote_unit c ++ quote_body r
        | [] => quote_unit c
        end
      else quote_unit c ++ quote_body r
  end.

(** QuoteJSONString. *)
Definition quote (s : jsstring) : jsstring := 34 :: quote_body s ++ [34].

Definition unescape (e : N) : option N :=
  if e =? 34 then Some 34
  else if e =? 92 then Some 92
  else if e =? ch "/" then Some (ch "/")
  else if e =? ch "b" then Some 8
  else if e =? ch "f" then Some 12
  else if e =? ch "n" then Some 10
  else if e =? ch "r" then Some 13
  else if e =? ch "t" then Some 9
  else None.

Definition hex4 (a b c d : N) : option N :=
  match hex_value a, hex_value b, hex_value c, hex_value d with
  | Some x, Some y, Some z, Some w => Some (((x * 16 + y) * 16 + z) * 16 + w)
  | _, _, _, _ => None
  end.

(** A JSON string after its opening quote: the string and what
    follows the closing quote. *)
Fixpoint parse_string (s : jsstring) : option (jsstring * jsstring) :=
  match s with
  | [] => None
  | c :: r =>
      if c =? 34 then Some ([], r)
      else if c =? 92 then
        match r with
        | e :: r' =>
            if e =? ch "u" then
              match r' with
              | h1 :: h2 :: h3 :: h4 :: r'' =>
                  match hex4 h1 h2 h3 h4, parse_string r'' with
                  | Some u, Some (str, rest) => Some (u :: str, rest)
                  | _, _ => None
                  end
              | _ => None
              end
            else
              match unescape e, parse_string r' with
              | Some u, Some (str, rest) => Some (u :: str, rest)
              | _, _ => None
              end
        | [] => None
        end
      else if c <? 32 then None
      else
        match parse_string r with
        | Some (str, rest) => Some (c :: str, rest)
        | None => None
        end
  end.

(** *** Values *)

(** [JSON.stringify(v)] without replacer or indentation. *)
Fixpoint stringify (v : value) : jsstring :=
  match v with
  | Null => js "null"
  | Bool true => js "true"
  | Bool false => js "false"
  | Num z => number_units z
  | Str s => quote s
  | Arr [] => js "[]"
  | Arr (x :: l) =>
      ch "[" :: stringify x ++
        (fix rest (l : list value) : jsstring :=
           match l with
           | [] => [ch "]"]
           | y :: l' => ch "," :: stringify y ++ rest l'
           end) l
  | Obj [] => js "{}"
  | Obj ((k, x) :: l) =>
      ch "{" :: quote k ++ ch ":" :: stringify x ++
        (fix rest (l : list (jsstring * value)) : jsstring :=
           match l with
           | [] => [ch "}"]
           | (k', y) :: l' => ch "," :: quote k' ++ ch ":" :: stringify y ++ rest l'
           end) l
  end.

(** The text after the first element of an array. *)
Fixpoint stringify_elements (l : list value) : jsstring :=
  match l with
  | [] => [ch "]"]
  | y :: l' => ch "," :: stringify y ++ stringify_elements l'
  end.

(** The text after the first member of an object. *)
Fixpoint stringify_members (l : list (jsstring * value)) : jsstring :=
  match l with
  | [] => [ch "}"]
  | (k, y) :: l' => ch "," :: quote k ++ ch ":" :: stringify y ++ stringify_members l'
  end.

Definition is_space (c : N) : bool :=
  (c =? 32) || (c =? 9) || (c =? 10) || (c =? 13).

Fixpoint skip_ws (s : jsstring) : jsstring :=
  match s with
  | c :: r => if is_space c then skip_ws r else s
  | [] => []
  end.

(** Setting a property: the value of an existing key is replaced in
    place, a new key goes last. *)
Fixpoint obj_set (k : jsstring) (v : value) (l : list (jsstring * value))
    : list (jsstring * value) :=
  match l with
  | [] => [(k, v)]
  | (k', v') :: l' =>
      if decide (k' = k) then (k, v) :: l' else (k', v') :: obj_set k v l'
  end.

(** The object of a member list: a repeated key keeps its last value. *)
Definition obj_of_members (ms : list (jsstring * value)) : list (jsstring * value) :=
  foldl (fun acc m => obj_set (fst m) (snd m) acc) [] ms.

(** Reading a property. *)
Fixpoint obj_get (k : jsstring) (l : list (jsstring * value)) : option value :=
  match l with
  | [] => None
  | (k', v) :: l' => if decide (k' = k) then Some v else obj_get k l'
  end.

(** One member, [string : value], given the reader of values. *)
Definition parse_member (parse_value : jsstring -> option (value * jsstring))
    (s : jsstring) : option ((jsstring * value) * jsstring) :=
  match skip_ws s with
  | c :: r =>
      if c =? 34 then
        match parse_string r with
        | Some (k, r1) =>
            match skip_ws r1 with
            | d :: r2 =>
                if d =? ch ":" then
                  match parse_value r2 with
                  | Some (v, r3) => Some ((k, v), r3)
                  | None => None
                  end
                else None
            | [] => None
            end
        | None => None
        end
      else None
  | [] => None
  end.

(** One value, given the readers of nested values, of the elements
    after the first and of the members after the first. *)
Definition read_value
    (parse_value : jsstring -> option (value * jsstring))
    (parse_elements : jsstring -> option (list value * jsstring))
    (parse_members : jsstring -> option (list (jsstring * value) * jsstring))
    (s : jsstring) : option (value * jsstring) :=
  match skip_ws s with
  | [] => None
  | c :: r =>
      if c =? ch "{" then
        match skip_ws r with
        | [] => None
        | d :: r1 =>
            if d =? ch "}" then Some (Obj [], r1)
            else
              match parse_member parse_value (d :: r1) with
              | Some (m, r2) =>
                  match parse_members r2 with
                  | Some (ms, r3) => Some (Obj (obj_of_members (m :: ms)), r3)
                  | None => None
                  end
              | None => None
              end
        end
      else if c =? ch "[" then
        match skip_ws r with
        | [] => None
        | d :: r1 =>
            if d =? ch "]" then Some (Arr [], r1)
            else
              match parse_value (d :: r1) with
              | Some (v, r2) =>
                  match parse_elements r2 with
                  | Some (vs, r3) => Some (Arr (v :: vs), r3)
                  | None => None
                  end
              | None => None
              end
        end
      else if c =? 34 then
        match parse_string r with
        | Some (str, r1) => Some (Str str, r1)
        | None => None
        end
      else if (c =? ch "-") || is_digit c then
        match parse_number (c :: r) with
        | Some (z, r1) => Some (Num z, r1)
        | None => None
        end
      else if startsWith (js "null") (c :: r) then Some (Null, drop 4 (c :: r))
      else if startsWith (js "true") (c :: r) then Some (Bool true, drop 4 (c :: r))
      else if startsWith (js "false") (c :: r) then Some (Bool false, drop 5 (c :: r))
      else None
  end.

(** After an element: a comma and the next elements, or the closing
    bracket. *)
Definition read_elements
    (parse_value : jsstring -> option (value * jsstring))
    (parse_elements : jsstring -> option (list value * jsstring))
    (s : jsstring) : option (list value * jsstring) :=
  match skip_ws s with
  | [] => None
  | c :: r =>
      if c =? ch "," then
        match parse_value r with
        | Some (v, r1) =>
            match parse_elements r1 with
            | Some (vs, r2) => Some (v :: vs, r2)
            | None => None
            end
        | None => None
        end
      else if c =? ch "]" then Some ([], r)
      else None
  end.

(** After a member: a comma and the next members, or the closing
    brace. *)
Definition read_members
    (parse_value : jsstring -> option (value * jsstring))
    (parse_members : jsstring -> option (list (jsstring * value) * jsstring))
    (s : jsstring) : option (list (jsstring * value) * jsstring) :=
  match skip_ws s with
  | [] => None
  | c :: r =>
      if c =? ch "," then
        match parse_member parse_value r with
        | Some (m, r1) =>
            match parse_members r1 with
            | Some (ms, r2) => Some (m :: ms, r2)
            | None => None
            end
        | None => None
        end
      else if c =? ch "}" then Some ([], r)
      else None
  end.

(** The readers, by recursive descent. [fuel] bounds the number of
    nested reads; the length of the text is enough. *)
Fixpoint parse_value (fuel : nat) (s : jsstring) {struct fuel}
    : option (value * jsstring) :=
  match fuel with
  | O => None
  | S f => read_value (parse_value f) (parse_elements f) (parse_members f) s
  end
with parse_elements (fuel : nat) (s : jsstring) {struct fuel}
    : option (list value * jsstring) :=
  match fuel with
  | O => None
  | S f => read_elements (parse_value f) (parse_elements f) s
  end
with parse_members (fuel : nat) (s : jsstring) {struct fuel}
    : option (list (jsstring * value) * jsstring) :=
  match fuel with
  | O => None
  | S f => read_members (parse_value f) (parse_members f) s
  end.

(** [JSON.parse(text)]: one value, with nothing but white space after
    it; [None] where [JSON.parse] throws. *)
Definition parse (text : jsstring) : option value :=
  match parse_value (S (length text)) text with
  | Some (v, rest) =>
      match skip_ws rest with
      | [] => Some v
      | _ :: _ => None
      end
  | None => None
  end.

(** *** Vocabulary of the round trip *)

(** No object of the value repeats a key. *)
Fixpoint wf (v : value) : Prop :=
  match v with
  | Arr l =>
      (fix all (l : list value) : Prop :=
         match l with
         | [] => True
         | x :: l' => wf x /\ all l'
         end) l
  | Obj l =>
      NoDup (fst <$> l) /\
      (fix all (l : list (jsstring * value)) : Prop :=
         match l with
         | [] => True
         | m :: l' => wf (snd m) /\ all l'
         end) l
  | _ => True
  end.

(** What may follow a value in a text: the end, a comma or a closing
    bracket. *)
Definition closes (rest : jsstring) : Prop :=
  match rest with
  | [] => True
  | c :: _ => c = ch "," \/ c = ch "]" \/ c = ch "}"
  end.

(** The text of [v] reads back as [v], whatever closes it, with fuel
    for its length. *)
Definition reads_back (v : value) : Prop :=
  forall rest F,
    (length (stringify v) <= F)%nat -> closes rest -> wf v ->
    parse_value F (stringify v ++ rest) = Some (v, rest).

(** The code units a value can start with. *)
Definition starts_value (c : N) : bool :=
  (c =? ch "{") || (c =? ch "[") || (c =? 34) || (c =? ch "-") || is_digit c
  || (c =? ch "n") || (c =? ch "t") || (c =? ch "f").

(** Every code unit below [n] passes [f]. *)
Fixpoint all_from (k : nat) (c : N) (f : N -> bool) : bool :=
  match k with
  | O => true
  | S k' => f c && all_from k' (N.succ c) f
  end.

Definition all_below (n : N) (f : N -> bool) : bool :=
  all_from (N.to_nat n) 0 f.

(** A code unit reads back from its escape. *)
Definition escape_reads_back (c : N) : bool :=
  match unicode_escape c with
  | [_; _; h1; h2; h3; h4] =>
      match hex4 h1 h2 h3 h4 with
      | Some u => u =? c
      | None => false
      end
  | _ => false
  end.

End Json.

(** ** Persistence ([localStorage] and the effects of [Home]) *)

Module Persistence.

Import Json.

(** *** Records as JSON objects *)

Definition nullable (o : option jsstring) : value :=
  match o with
  | Some s => Str s
  | None => Null
  end.

Definition task_status_name (s : TaskStatus) : jsstring :=
  match s with
  | Inbox => js "inbox"
  | Active => js "active"
  | Completed => js "completed"
  | Cancelled => js "cancelled"
  end.

Definition project_status_name (s : ProjectStatus) : jsstring :=
  match s with
  | PActive => js "active"
  | PCompleted => js "completed"
  | PSomeday => js "someday"
  end.

Definition schedule_value (o : option Bucket) : value :=
  match o with
  | Some b => Str (bucket_name b)
  | None => Null
  end.

(** The object of a row: its properties in the order of the object
    literal that creates it, which a spread keeps. *)
Definition Task_to_json (t : Task.Row) : value :=
  Obj [(js "id", Str (Task.id t));
       (js "user_id", Str (Task.user_id t));
       (js "project_id", nullable (Task.project_id t));
       (js "heading_id", nullable (Task.heading_id t));
       (js "title", Str (Task.title t));
       (js "emoji", nullable (Task.emoji t));
       (js "notes", nullable (Task.notes t));
       (js "status", Str (task_status_name (Task.status t)));
       (js "schedule", schedule_value (Task.schedule t));
       (js "scheduled_date", nullable (Task.scheduled_date t));
       (js "deadline", nullable (Task.deadline t));
       (js "position", Num (Task.position t));
       (js "created_at", Str (Task.created_at t));
       (js "updated_at", Str (Task.updated_at t));
       (js "completed_at", nullable (Task.completed_at t))].

Definition Project_to_json (p : Project.Row) : value :=
  Obj [(js "id", Str (Project.id p));
       (js "user_id", Str (Project.user_id p));
       (js "area_id", nullable (Project.area_id p));
       (js "name", Str (Project.name p));
       (js "emoji", nullable (Project.emoji p));
       (js "notes", nullable (Project.notes p));
       (js "position", Num (Project.position p));
       (js "status", Str (project_status_name (Project.status p)));
       (js "deadline", nullable (Project.deadline p));
       (js "created_at", Str (Project.created_at p));
       (js "updated_at", Str (Project.updated_at p));
       (js "completed_at", nullable (Project.completed_at p))].

Definition Area_to_json (a : Area.Row) : value :=
  Obj [(js "id", Str (Area.id a));
       (js "user_id", Str (Area.user_id a));
       (js "name", Str (Area.name a));
       (js "position", Num (Area.position a));
       (js "created_at", Str (Area.created_at a));
       (js "updated_at", Str (Area.updated_at a))].

Definition Heading_to_json (h : Heading.Row) : value :=
  Obj [(js "id", Str (Heading.id h));
       (js "project_id", Str (Heading.project_id h));
       (js "name", Str (Heading.name h));
       (js "position", Num (Heading.position h));
       (js "created_at", Str (Heading.created_at h))].

(** *** JSON objects as records

    [JSON.parse] returns plain objects, which the source takes for
    rows without a check. Here a parsed value is read at the declared
    type of the row: [None] when it is not of that type. *)

Definition as_string (v : value) : option jsstring :=
  match v with Str s => Some s | _ => None end.

Definition as_nullable (v : value) : option (option jsstring) :=
  match v with Str s => Some (Some s) | Null => Some None | _ => None end.

Definition as_number (v : value) : option Z :=
  match v with Num z => Some z | _ => None end.

Definition as_task_status (v : value) : option TaskStatus :=
  match v with
  | Str s =>
      if decide (s = js "inbox") then Some Inbox
      else if decide (s = js "active") then Some Active
      else if decide (s = js "completed") then Some Completed
      else if decide (s = js "cancelled") then Some Cancelled
      else None
  | _ => None
  end.

Definition as_project_status (v : value) : option ProjectStatus :=
  match v with
  | Str s =>
      if decide (s = js "active") then Some PActive
      else if decide (s = js "completed") then Some PCompleted
      else if decide (s = js "someday") then Some PSomeday
      else None
  | _ => None
  end.

Definition as_schedule (v : value) : option (option Bucket) :=
  match v with
  | Null => Some None
  | Str s =>
      if decide (s = js "anytime") then Some (Some Anytime)
      else if decide (s = js "today") then Some (Some Today)
      else if decide (s = js "this_week") then Some (Some ThisWeek)
      else if decide (s = js "next_week") then Some (Some NextWeek)
      else if decide (s = js "evening") then Some (Some Evening)
      else if decide (s = js "someday") then Some (Some Someday)
      else None
  | _ => None
  end.

(** The property [k] of an object, read by [f]. *)
Definition field {A} (f : value -> option A) (k : string)
    (l : list (jsstring * value)) : option A :=
  obj_get (js k) l ≫= f.

Definition Task_of_json (v : value) : option Task.Row :=
  match v with
  | Obj l =>
      id ← field as_string "id" l;
      user_id ← field as_string "user_id" l;
      project_id ← field as_nullable "project_id" l;
      heading_id ← field as_nullable "heading_id" l;
      title ← field as_string "title" l;
      emoji ← field as_nullable "emoji" l;
      notes ← field as_nullable "notes" l;
      status ← field as_task_status "status" l;
      schedule ← field as_schedule "schedule" l;
      scheduled_date ← field as_nullable "scheduled_date" l;
      deadline ← field as_nullable "deadline" l;
      position ← field as_number "position" l;
      created_at ← field as_string "created_at" l;
      updated_at ← field as_string "updated_at" l;
      completed_at ← field as_nullable "completed_at" l;
      Some (Task.mk id user_id project_id heading_id title emoji notes status
              schedule scheduled_date deadline position created_at updated_at
              completed_at)
  | _ => None
  end.

Definition Project_of_json (v : value) : option Project.Row :=
  match v with
  | Obj l =>
      id ← field as_string "id" l;
      user_id ← field as_string "user_id" l;
      area_id ← field as_nullable "area_id" l;
      name ← field as_string "name" l;
      emoji ← field as_nullable "emoji" l;
      notes ← field as_nullable "notes" l;
      position ← field as_number "position" l;
      status ← field as_project_status "status" l;
      deadline ← field as_nullable "deadline" l;
      created_at ← field as_string "created_at" l;
      updated_at ← field as_string "updated_at" l;
      completed_at ← field as_nullable "completed_at" l;
      Some (Project.mk id user_id area_id name emoji notes position status
              deadline created_at updated_at completed_at)
  | _ => None
  end.

Definition Area_of_json (v : value) : option Area.Row :=
  match v with
  | Obj l =>
      id ← field as_string "id" l;
      user_id ← field as_string "user_id" l;
      name ← field as_string "name" l;
      position ← field as_number "position" l;
      created_at ← field as_string "created_at" l;
      updated_at ← field as_string "updated_at" l;
      Some (Area.mk id user_id name position created_at updated_at)
  | _ => None
  end.

Definition Heading_of_json (v : value) : option Heading.Row :=
  match v with
  | Obj l =>
      id ← field as_string "id" l;
      project_id ← field as_string "project_id" l;
      name ← field as_string "name" l;
      position ← field as_number "position" l;
      created_at ← field as_string "created_at" l;
      Some (Heading.mk id project_id name position created_at)
  | _ => None
  end.

(** *** Collections as texts *)

(** [JSON.stringify(rows)] *)
Definition stringifyRows {A} (to_json : A -> value) (rows : list A) : jsstring :=
  stringify (Arr (to_json <$> rows)).

(** [JSON.parse(text)], read as an array of rows. *)
Definition parseRows {A} (of_json : value -> option A) (text : jsstring)
    : option (list A) :=
  match parse text with
  | Some (Arr l) => mapM of_json l
  | _ => None
  end.

(** *** Local storage *)

Abbreviation Storage := (gmap jsstring jsstring).

Definition getItem (k : jsstring) (ls : Storage) : option jsstring := ls !! k.
Definition setItem (k v : jsstring) (ls : Storage) : Storage := <[k := v]> ls.

Definition TASKS_KEY : jsstring := js "pocky_tasks".
Definition PROJECTS_KEY : jsstring := js "pocky_projects".
Definition AREAS_KEY : jsstring := js "pocky_areas".
Definition HEADINGS_KEY : jsstring := js "pocky_headings".

(** The four save effects: each writes its collection once the state
    is loaded. *)
Definition saveTasks (st : AppState) (ls : Storage) : Storage :=
  if isLoaded st
  then setItem TASKS_KEY (stringifyRows Task_to_json (tasks st)) ls
  else ls.

Definition saveProjects (st : AppState) (ls : Storage) : Storage :=
  if isLoaded st
  then setItem PROJECTS_KEY (stringifyRows Project_to_json (projects st)) ls
  else ls.

Definition saveAreas (st : AppState) (ls : Storage) : Storage :=
  if isLoaded st
  then setItem AREAS_KEY (stringifyRows Area_to_json (areas st)) ls
  else ls.

Definition saveHeadings (st : AppState) (ls : Storage) : Storage :=
  if isLoaded st
  then setItem HEADINGS_KEY (stringifyRows Heading_to_json (headings st)) ls
  else ls.

(** The save effects in the order [Home] declares them. *)
Definition saveAll (st : AppState) (ls : Storage) : Storage :=
  saveHeadings st (saveAreas st (saveProjects st (saveTasks st ls))).

Section Load.

(** [seedTasks] and [seedProjects] of [lib/seedData]. *)
Variable seedTasks : list Task.Row.
Variable seedProjects : list Project.Row.

(** [if (saved) set(JSON.parse(saved))] *)
Definition restore {A} (of_json : value -> option A)
    (saved : option jsstring) (set : list A -> AppState -> AppState)
    (st : AppState) : option AppState :=
  match saved with
  | Some text =>
      if truthy text then
        match parseRows of_json text with
        | Some rows => Some (set rows st)
        | None => None
        end
      else Some st
  | None => Some st
  end.

(** The constant of the load effect that forces the seed data. *)
Definition FORCE_RESEED : bool := false.

(** The load effect of the first render: the state and the storage
    after it, or [None] where [JSON.parse] throws. *)
Definition loadEffect (ls : Storage) (st : AppState)
    : option (AppState * Storage) :=
  let savedTasks := getItem TASKS_KEY ls in
  let savedProjects := getItem PROJECTS_KEY ls in
  let savedAreas := getItem AREAS_KEY ls in
  let savedHeadings := getItem HEADINGS_KEY ls in
  match
    (if FORCE_RESEED
       || negb (truthy_opt savedTasks) && negb (truthy_opt savedProjects) then
       Some (setProjects seedProjects (setTasks seedTasks st),
             setItem PROJECTS_KEY (stringifyRows Project_to_json seedProjects)
               (setItem TASKS_KEY (stringifyRows Task_to_json seedTasks) ls))
     else
       st1 ← restore Task_of_json savedTasks setTasks st;
       st2 ← restore Project_of_json savedProjects setProjects st1;
       Some (st2, ls))
  with
  | Some (st2, ls') =>
      st3 ← restore Area_of_json savedAreas setAreas st2;
      st4 ← restore Heading_of_json savedHeadings setHeadings st3;
      Some (setIsLoaded true st4, ls')
  | None => None
  end.

End Load.

End Persistence.

(** ** Concrete records used by the examples *)

Module Samples.

Definition task (id : string) (project heading : option string)
    (st : TaskStatus) (schedule : option Bucket)
    (deadline : option string) (updated : string)
    (completed : option string) : Task.Row :=
  {| Task.id := js id;
     Task.user_id := js "demo";
     Task.project_id := js <$> project;
     Task.heading_id := js <$> heading;
     Task.title := js "Buy milk";
     Task.emoji := None;
     Task.notes := None;
     Task.status := st;
     Task.schedule := schedule;
     Task.scheduled_date := None;
     Task.deadline := js <$> deadline;
     Task.position := 0;
     Task.created_at := js "2024-01-01T09:00:00.000Z";
     Task.updated_at := js updated;
     Task.completed_at := js <$> completed |}.

Definition project (id : string) : Project.Row :=
  {| Project.id := js id;
     Project.user_id := js "demo";
     Project.area_id := None;
     Project.name := js "Errands";
     Project.emoji := None;
     Project.notes := None;
     Project.position := 0;
     Project.status := PActive;
     Project.deadline := None;
     Project.created_at := js "2024-01-01T09:00:00.000Z";
     Project.updated_at := js "2024-01-01T09:00:00.000Z";
     Project.completed_at := None |}.

Definition heading (id project : string) : Heading.Row :=
  {| Heading.id := js id;
     Heading.project_id := js project;
     Heading.name := js "Shopping";
     Heading.position := 0;
     Heading.created_at := js "2024-01-01T09:00:00.000Z" |}.

Definition area (id : string) : Area.Row :=
  {| Area.id := js id;
     Area.user_id := js "demo";
     Area.name := js "Home";
     Area.position := 0;
     Area.created_at := js "2024-01-01T09:00:00.000Z";
     Area.updated_at := js "2024-01-01T09:00:00.000Z" |}.

(** A task of project [p1] under heading [h1], scheduled for today. *)
Definition t1 : Task.Row :=
  task "t1" (Some "p1") (Some "h1") Active (Some Today) None
    "2024-01-01T09:00:00.000Z" None.

(** A task outside any project. *)
Definition t2 : Task.Row :=
  task "t2" None None Active (Some ThisWeek) None
    "2024-01-02T09:00:00.000Z" None.

(** A state that shows project [p1]. *)
Definition st1 : AppState :=
  {| activeView := projectView (js "p1");
     tasks := [t1; t2];
     projects := [project "p1"; project "p2"];
     areas := [area "a1"];
     headings := [heading "h1" "p1"; heading "h2" "p2"];
     isAddingTask := false;
     addingTaskHeadingId := None;
     selectedTask := None;
     isLoaded := true;
     isAddingProjectViaShortcut := false |}.

(** Two tasks due on the same day, one without a deadline, one due
    earlier. *)
Definition d1 : Task.Row :=
  task "d1" (Some "p1") None Active (Some Today) (Some "2024-03-10")
    "2024-01-01T09:00:00.000Z" None.
Definition d2 : Task.Row :=
  task "d2" (Some "p1") None Active (Some Today) (Some "2024-03-10")
    "2024-01-01T09:00:00.000Z" None.
Definition d3 : Task.Row :=
  task "d3" (Some "p1") None Active (Some Today) None
    "2024-01-01T09:00:00.000Z" None.
Definition d4 : Task.Row :=
  task "d4" (Some "p1") None Active (Some Today) (Some "2024-03-01")
    "2024-01-01T09:00:00.000Z" None.

(** Completed tasks: one with a completion time, one without. *)
Definition c1 : Task.Row :=
  task "c1" None None Completed (Some Today) None
    "2024-03-05T10:00:00.000Z" (Some "2024-03-05T10:00:00.000Z").
Definition c2 : Task.Row :=
  task "c2" None None Completed (Some Anytime) None
    "2024-03-07T08:30:00.000Z" None.

(** A state that shows the logbook. *)
Definition st_logbook : AppState :=
  {| activeView := js "logbook";
     tasks := [c1; t2; c2];
     projects := [];
     areas := [];
     headings := [];
     isAddingTask := false;
     addingTaskHeadingId := None;
     selectedTask := None;
     isLoaded := true;
     isAddingProjectViaShortcut := false |}.

(** A collation for the examples that do not sort by title. *)
Definition noCollation (a b : jsstring) : Z := 0%Z.

(** An emoji chooser for the examples. *)
Definition starEmoji (title : jsstring) : jsstring := js "*".

(** A loaded state without tasks that shows the today view. *)
Definition st_empty : AppState :=
  {| activeView := js "today";
     tasks := [];
     projects := [];
     areas := [];
     headings := [];
     isAddingTask := true;
     addingTaskHeadingId := None;
     selectedTask := None;
     isLoaded := true;
     isAddingProjectViaShortcut := false |}.

(** The task the modal creates from the title [Buy milk], typed with
    spaces around it, and the state after. *)
Definition st_milk : AppState :=
  Forms.submitTask starEmoji (js "  Buy milk ") [] [] (js "u1")
    (js "2024-03-01T10:00:00.000Z") (js "2024-03-01T10:00:00.001Z") st_empty.

(** The state after the task is ticked off, with the logbook shown. *)
Definition st_milk_done : AppState :=
  setActiveView (js "logbook")
    (Handlers.handleToggleTask (js "u1") true (js "2024-03-02T08:00:00.000Z")
       st_milk).

End Samples.

(** ** Vocabulary of the statements *)

Module Props.

Import Handlers.

(** What a move leaves alone: every field that is not [project_id],
    [heading_id], [schedule] or [updated_at]. *)
Definition same_other_fields (a b : Task.Row) : Prop :=
  Task.id a = Task.id b /\ Task.user_id a = Task.user_id b /\
  Task.title a = Task.title b /\ Task.emoji a = Task.emoji b /\
  Task.notes a = Task.notes b /\ Task.status a = Task.status b /\
  Task.scheduled_date a = Task.scheduled_date b /\
  Task.deadline a = Task.deadline b /\ Task.position a = Task.position b /\
  Task.created_at a = Task.created_at b /\
  Task.completed_at a = Task.completed_at b.

(** [t'] is [t] after a move to bucket [b] at time [now], as the
    handler performs it: the heading reference stays. *)
Definition moved_to_schedule (b : Bucket) (now : jsstring) (t t' : Task.Row) : Prop :=
  Task.schedule t' = Some b /\
  Task.heading_id t' = Task.heading_id t /\
  Task.project_id t' = Task.project_id t /\
  Task.updated_at t' = now /\
  same_other_fields t t'.

(** [t'] is [t] after a move to project [p] at time [now]. *)
Definition moved_to_project (p now : jsstring) (t t' : Task.Row) : Prop :=
  Task.project_id t' = Some p /\
  Task.heading_id t' = None /\
  Task.schedule t' = Task.schedule t /\
  Task.updated_at t' = now /\
  same_other_fields t t'.

(** The tasks with id [taskId] are related to their successors by [R],
    position by position; every other task is kept as it is. *)
Definition updates_only (taskId : jsstring) (R : Task.Row -> Task.Row -> Prop)
    (before after : list Task.Row) : Prop :=
  Forall2 (fun t t' => if decide (Task.id t = taskId) then R t t' else t' = t)
    before after.

(** The move to a bucket as the specification words it: the bucket is
    set and the heading reference is cleared. *)
Definition schedule_move_clears_heading (taskId : jsstring) (b : Bucket)
    (now : jsstring) (st : AppState) : Prop :=
  updates_only taskId
    (fun _ t' => Task.schedule t' = Some b /\ Task.heading_id t' = None)
    (tasks st) (tasks (handleMoveTaskToSchedule taskId b now st)).

(** A task is completed exactly when it carries a completion time. *)
Definition completion_consistent (t : Task.Row) : Prop :=
  Task.status t = Completed <-> is_Some (Task.completed_at t).

(** One click on a task's checkbox: the task, the new state of the box
    and the clock at that moment. *)
Record Toggle := mkToggle {
  toggle_id : jsstring;
  toggle_completed : bool;
  toggle_now : jsstring;
}.

Definition run_toggles (ops : list Toggle) (st : AppState) : AppState :=
  foldl (fun s op =>
           handleToggleTask (toggle_id op) (toggle_completed op) (toggle_now op) s)
        st ops.

(** A handler refreshes [updated_at] when every task it changes
    carries the time of the change afterwards. *)
Definition refreshes_updated_at (now : jsstring) (before after : list Task.Row) : Prop :=
  Forall2 (fun t t' => t' <> t -> Task.updated_at t' = now) before after.

(** A string is blank: empty, or white space only. *)
Definition blank (s : jsstring) : Prop :=
  Forall (fun c => isWhiteSpace c = true) s.

(** The collections and the view of two states agree. *)
Definition same_data (st st' : AppState) : Prop :=
  tasks st' = tasks st /\ projects st' = projects st /\
  areas st' = areas st /\ headings st' = headings st /\
  activeView st' = activeView st.

(** *** Orders *)

Section Orders.

Variable Date_getTime : jsstring -> JsArray.number.

(** [x] is a time, [y] is a time, and [x] is not after [y]. *)
Definition time_le (x y : JsArray.number) : Prop :=
  match x, y with
  | Some a, Some b => (a <= b)%Z
  | _, _ => False
  end.

(** [x] is a time, [y] is a time, and [x] is before [y]. *)
Definition time_lt (x y : JsArray.number) : Prop :=
  match x, y with
  | Some a, Some b => (a < b)%Z
  | _, _ => False
  end.

(** [a] may stand before [b] in due-date order: no task without a
    deadline before one with a deadline, and deadlines ascending,
    equal dates allowed. *)
Definition due_before (a b : Task.Row) : Prop :=
  match Task.deadline a, Task.deadline b with
  | Some da, Some db => time_le (Date_getTime da) (Date_getTime db)
  | Some _, None => True
  | None, Some _ => False
  | None, None => True
  end.

(** The same with strictly ascending deadlines, as the specification
    words it. *)
Definition due_strictly_before (a b : Task.Row) : Prop :=
  match Task.deadline a, Task.deadline b with
  | Some da, Some db => time_lt (Date_getTime da) (Date_getTime db)
  | Some _, None => True
  | None, Some _ => False
  | None, None => True
  end.

(** Due-date order as the specification words it, on the result of
    the sort. *)
Definition sorted_strictly_by_due_date (localeCompare : jsstring -> jsstring -> Z)
    (order : list jsstring) (l : list Task.Row) : Prop :=
  StronglySorted due_strictly_before
    (ProjectView.sortTasks Date_getTime localeCompare DueDate order l).

(** A deadline is [null] or a non-empty string that is a date. *)
Definition deadline_is_date (t : Task.Row) : Prop :=
  forall d, Task.deadline t = Some d -> d <> [] /\ is_Some (Date_getTime d).

(** The time a task is filed under in the logbook: [completed_at],
    or [updated_at] when [completed_at] is null. *)
Definition logbookTime (t : Task.Row) : JsArray.number :=
  match Task.completed_at t with
  | Some c => Date_getTime c
  | None => Date_getTime (Task.updated_at t)
  end.

(** [a] may stand before [b] in the logbook: [a] is not older. *)
Definition logbook_before (a b : Task.Row) : Prop :=
  time_le (logbookTime b) (logbookTime a).

(** The stamps the logbook reads are dates: a completion time is a
    non-empty string. *)
Definition logbook_stamps_are_dates (t : Task.Row) : Prop :=
  Task.completed_at t <> Some [] /\ is_Some (logbookTime t).

End Orders.

End Props.

(** ** More of [Home] ([src/app/page.tsx]) *)

Module Home.

(** The ids of the six fixed views, in the order of [navItems] and of
    the shortcuts Command-1 to Command-6. *)
Definition navIds : list jsstring :=
  [js "today"; js "this_week"; js "next_week"; js "anytime"; js "someday";
   js "logbook"].

(** [currentProjectId ? headings.filter(h => h.project_id ===
    currentProjectId) : []] *)
Definition projectHeadings (st : AppState) : list Heading.Row :=
  match currentProjectId st with
  | Some cur =>
      if truthy cur
      then filter (fun h => Heading.project_id h = cur) (headings st)
      else []
  | None => []
  end.

(** [isProjectView ? projects.find(p => p.id === currentProjectId) :
    null]: the first project with the id of the view. *)
Definition currentProject (st : AppState) : option Project.Row :=
  match currentProjectId st with
  | Some cur => head (filter (fun p => Project.id p = cur) (projects st))
  | None => None
  end.

(** The count the delete dialog of the project view announces:
    [tasks.length], where [tasks] is what [Home] passes, the filtered
    tasks. *)
Definition deleteDialogCount (Date_getTime : jsstring -> JsArray.number)
    (st : AppState) : nat :=
  length (Views.filteredTasks Date_getTime st).

End Home.

(** The spread [{ ...t, position: index }]. *)
Definition Task_with_position (index : Z) (a : Task.Row) : Task.Row :=
  Task.mk (Task.id a) (Task.user_id a) (Task.project_id a) (Task.heading_id a)
    (Task.title a) (Task.emoji a) (Task.notes a) (Task.status a)
    (Task.schedule a) (Task.scheduled_date a) (Task.deadline a)
    index (Task.created_at a) (Task.updated_at a) (Task.completed_at a).

Definition Project_with_position (index : Z) (p : Project.Row) : Project.Row :=
  Project.mk (Project.id p) (Project.user_id p) (Project.area_id p)
    (Project.name p) (Project.emoji p) (Project.notes p) index
    (Project.status p) (Project.deadline p) (Project.created_at p)
    (Project.updated_at p) (Project.completed_at p).

(** [array.findIndex(pred)]: the first index that passes, if any. *)
Definition findIndex {A} (P : A -> Prop) `{forall x, Decision (P x)}
    (l : list A) : option nat :=
  fst <$> list_find P l.

(** ** The body of the project view ([components/ProjectView.tsx]) *)

Module ProjectViewBody.

Import JsArray.

(** [tasks.filter(t => t.status !== 'completed')] and its complement. *)
Definition activeTasks (tasks : list Task.Row) : list Task.Row :=
  filter (fun t => Task.status t <> Completed) tasks.

Definition completedTasks (tasks : list Task.Row) : list Task.Row :=
  filter (fun t => Task.status t = Completed) tasks.

(** The effect that syncs the manual order with the tasks: the ids of
    the open tasks by position. *)
Definition syncLocalTaskOrder (tasks : list Task.Row) : list jsstring :=
  Task.id <$>
    sort (fun a b => Some (Task.position a - Task.position b)%Z)
      (activeTasks tasks).

(** The update of the manual order in [handleTaskReorder]: the
    reordered ids take the place of the first of them. *)
Definition reorderLocal (newOrder prev : list jsstring) : list jsstring :=
  let reorderedIds : gset jsstring := list_to_set newOrder in
  let otherIds := filter (fun id => id ∉ reorderedIds) prev in
  match findIndex (fun id => id ∈ reorderedIds) prev with
  | None => otherIds ++ newOrder
  | Some firstReorderedIndex =>
      filter (fun id => id ∉ reorderedIds) (take firstReorderedIndex prev)
      ++ newOrder
      ++ filter (fun id => id ∉ reorderedIds) (drop firstReorderedIndex prev)
  end.

(** [reorderedTasks.map((t, index) => ({ ...t, position: index }))] *)
Definition reindexTasks (reorderedTasks : list Task.Row) : list Task.Row :=
  imap (fun index t => Task_with_position (Z.of_nat index) t) reorderedTasks.

(** [handleTaskReorder(reorderedTasks)], on the manual order of the
    component and the state of [Home], with
    [onReorderTasks={handleReorderTasks}]: nothing outside manual mode. *)
Definition handleTaskReorder (sortBy : SortOption) (reorderedTasks : list Task.Row)
    (s : list jsstring * AppState) : list jsstring * AppState :=
  match sortBy with
  | Manual =>
      (reorderLocal (Task.id <$> reorderedTasks) (fst s),
       Handlers.handleReorderTasks (reindexTasks reorderedTasks) (snd s))
  | _ => s
  end.

Section Groups.

Variable Date_getTime : jsstring -> number.
Variable localeCompare : jsstring -> jsstring -> Z.
Variable sortBy : SortOption.
Variable localTaskOrder : list jsstring.

(** [sortTasks(activeTasks.filter(t => !t.heading_id))] *)
Definition tasksWithoutHeading (tasks : list Task.Row) : list Task.Row :=
  ProjectView.sortTasks Date_getTime localeCompare sortBy localTaskOrder
    (filter (fun t => truthy_opt (Task.heading_id t) = false) (activeTasks tasks)).

(** [headings.map(heading => ({ heading, tasks: sortTasks(
    activeTasks.filter(t => t.heading_id === heading.id)) }))] *)
Definition tasksByHeading (headings : list Heading.Row) (tasks : list Task.Row)
    : list (Heading.Row * list Task.Row) :=
  (fun heading =>
     (heading,
      ProjectView.sortTasks Date_getTime localeCompare sortBy localTaskOrder
        (filter (fun t => Task.heading_id t = Some (Heading.id heading))
           (activeTasks tasks)))) <$> headings.

(** The open tasks the view renders: the group without heading, then
    the group of each heading. *)
Definition renderedActive (headings : list Heading.Row) (tasks : list Task.Row)
    : list Task.Row :=
  tasksWithoutHeading tasks ++ concat (snd <$> tasksByHeading headings tasks).

End Groups.

End ProjectViewBody.

(** ** The sidebar ([components/Sidebar.tsx]) *)

Module Sidebar.

Import JsArray.

(** [projects.filter(p => p.status !== 'completed')] *)
Definition activeProjects (projects : list Project.Row) : list Project.Row :=
  filter (fun p => Project.status p <> PCompleted) projects.

(** [activeProjects.filter(p => !p.area_id).sort((a, b) => a.position -
    b.position)] *)
Definition standaloneProjects (projects : list Project.Row) : list Project.Row :=
  sort (fun a b => Some (Project.position a - Project.position b)%Z)
    (filter (fun p => truthy_opt (Project.area_id p) = false)
       (activeProjects projects)).


(** [handleReorder(reorderedProjects)], with
    [onReorderProjects={handleReorderProjects}]. *)
Definition handleReorder (reorderedProjects : list Project.Row)
    : AppState -> AppState :=
  Handlers.handleReorderProjects
    (imap (fun index p => Project_with_position (Z.of_nat index) p)
       reorderedProjects).

(** The drop of a task on a project: [taskId] is what the drag put in
    the data transfer, the empty string when there is none. *)
Definition dropOnProject (taskId projectId now : jsstring)
    : AppState -> AppState :=
  if truthy taskId
  then Handlers.handleMoveTaskToProject taskId projectId now
  else fun st => st.

(** The bucket a nav item stands for. *)
Definition bucket_of_nav (id : jsstring) : option Bucket :=
  if bool_decide (id = js "today") then Some Today
  else if bool_decide (id = js "this_week") then Some ThisWeek
  else if bool_decide (id = js "next_week") then Some NextWeek
  else if bool_decide (id = js "anytime") then Some Anytime
  else if bool_decide (id = js "someday") then Some Someday
  else None.

(** The drop of a task on a nav item: the logbook takes no drop. *)
Definition dropOnNav (item taskId now : jsstring) : AppState -> AppState :=
  match bucket_of_nav item with
  | Some b =>
      if truthy taskId
      then Handlers.handleMoveTaskToSchedule taskId b now
      else fun st => st
  | None => fun st => st
  end.

End Sidebar.

(** ** What the project view's orders are stated with *)

Module ViewProps.

Import JsArray.

(** [a] may stand before [b] in the manual order: [b] is not in the
    order, or both are and [a] is not behind [b]. *)
Definition manual_before (localTaskOrder : list jsstring) (a b : Task.Row) : Prop :=
  let aIndex := indexOf (Task.id a) localTaskOrder in
  let bIndex := indexOf (Task.id b) localTaskOrder in
  bIndex = (-1)%Z \/ (aIndex <> (-1)%Z /\ (aIndex <= bIndex)%Z).

Definition schedule_before (a b : Task.Row) : Prop :=
  (ProjectView.scheduleOrder (Task.schedule a)
   <= ProjectView.scheduleOrder (Task.schedule b))%Z.

Definition position_before (a b : Task.Row) : Prop :=
  (Task.position a <= Task.position b)%Z.

(** [a] was created no earlier than [b]. *)
Definition created_after (Date_getTime : jsstring -> number) (a b : Task.Row) : Prop :=
  match Date_getTime (Task.created_at a), Date_getTime (Task.created_at b) with
  | Some x, Some y => (y <= x)%Z
  | _, _ => False
  end.

Definition created_at_is_date (Date_getTime : jsstring -> number) (t : Task.Row) : Prop :=
  is_Some (Date_getTime (Task.created_at t)).

End ViewProps.

(** ** What the forms and the first render are stated with *)

Module FormProps.

(** No white space at either end. *)
Definition trimmed (s : jsstring) : Prop :=
  (forall c r, s = c :: r -> isWhiteSpace c = false) /\
  (forall l c, s = l ++ [c] -> isWhiteSpace c = false).

(** A callback that records what it is handed. *)
Definition record {A} (x : A) (_ : option A) : option A := Some x.

End FormProps.

(** ** What the effects of the handlers are stated with *)

Module Effects.

Import Handlers Props.












(** What "move all to next week" moves. *)
Definition snoozed (t : Task.Row) : Prop :=
  Task.schedule t = Some ThisWeek /\ Task.status t <> Completed.

Global Instance snoozed_dec (t : Task.Row) : Decision (snoozed t).
Proof. unfold snoozed. apply _. Defined.


End Effects.

(** ** The search overlay ([SpotlightSearch] in [src/app/page.tsx]) *)

Module SpotlightSearch.

(** [hay.includes(needle)] *)
Fixpoint includes (needle hay : jsstring) : bool :=
  startsWith needle hay
  || match hay with
     | [] => false
     | _ :: hay' => includes needle hay'
     end.

Section Filter.

(** [s.toLowerCase()] of the host. *)
Variable toLowerCase : jsstring -> jsstring.

(** [task.title.toLowerCase().includes(query.toLowerCase()) ||
    task.notes?.toLowerCase().includes(query.toLowerCase())] *)
Definition matches (query : jsstring) (task : Task.Row) : bool :=
  includes (toLowerCase query) (toLowerCase (Task.title task))
  || match Task.notes task with
     | Some notes => includes (toLowerCase query) (toLowerCase notes)
     | None => false
     end.

(** [query.trim() ? tasks.filter(...) : []] *)
Definition filteredTasks (query : jsstring) (tasks : list Task.Row)
    : list Task.Row :=
  if truthy (trim query) then List.filter (matches query) tasks else [].

End Filter.

Inductive Key := ArrowDown | ArrowUp | Enter | Escape | OtherKey.

(** What a key hands to the parent: [onSelect(task, task.project_id)],
    [onClose()], or nothing. *)
Inductive Outcome :=
| Selected (task : Task.Row) (projectId : option jsstring)
| Closed
| Nothing.

(** [flatResults[selectedIndex]] *)
Definition at_index {A} (l : list A) (i : Z) : option A :=
  if (i <? 0)%Z then None else l !! Z.to_nat i.

(** The key handler of the overlay: the selected index after the key
    and what the parent is handed. *)
Definition handleKeyDown (flatResults : list Task.Row) (key : Key)
    (selectedIndex : Z) : Z * Outcome :=
  match key with
  | ArrowDown =>
      (Z.min (selectedIndex + 1) (Z.of_nat (length flatResults) - 1), Nothing)
  | ArrowUp => (Z.max (selectedIndex - 1) 0, Nothing)
  | Enter =>
      match at_index flatResults selectedIndex with
      | Some task => (selectedIndex, Selected task (Task.project_id task))
      | None => (selectedIndex, Nothing)
      end
  | Escape => (selectedIndex, Closed)
  | OtherKey => (selectedIndex, Nothing)
  end.

(** The selected index after a run of keys. *)
Definition pressAll (flatResults : list Task.Row) (keys : list Key)
    (selectedIndex : Z) : Z :=
  foldl (fun i key => fst (handleKeyDown flatResults key i)) selectedIndex keys.

End SpotlightSearch.

(** ** The state of [Home] outside the collections, and its keys *)

Module HomeUi.

Record HomeState := mkHome {
  app : AppState;
  showShortcutsHelp : bool;
  showSearch : bool;
  highlightedTaskId : option jsstring;
}.

Definition setApp (f : AppState -> AppState) (s : HomeState) : HomeState :=
  mkHome (f (app s)) (showShortcutsHelp s) (showSearch s) (highlightedTaskId s).

(** What the shortcut handler reads of a keyboard event: whether the
    target is an input or a text area, the key, the Command key. *)
Record KeyboardEvent := mkKey {
  targetIsInput : bool;
  key : jsstring;
  metaKey : bool;
}.

Section Keys.

Variable toLowerCase : jsstring -> jsstring.

(** [handleKeyDown(e)] of [Home]. *)
Definition handleKeyDown (e : KeyboardEvent) (s : HomeState) : HomeState :=
  if targetIsInput e then s
  else if bool_decide (key e = js "Escape") then
    mkHome (setIsAddingTask false (setSelectedTask None (app s))) false false None
  else if negb (metaKey e) then s
  else
    let k := toLowerCase (key e) in
    if bool_decide (k = js "1") then setApp (setActiveView (js "today")) s
    else if bool_decide (k = js "2") then setApp (setActiveView (js "this_week")) s
    else if bool_decide (k = js "3") then setApp (setActiveView (js "next_week")) s
    else if bool_decide (k = js "4") then setApp (setActiveView (js "anytime")) s
    else if bool_decide (k = js "5") then setApp (setActiveView (js "someday")) s
    else if bool_decide (k = js "6") then setApp (setActiveView (js "logbook")) s
    else if bool_decide (k = js "n") then setApp (setIsAddingTask true) s
    else if bool_decide (k = js "p") then
      setApp (setIsAddingProjectViaShortcut true) s
    else if bool_decide (k = js "f") then
      mkHome (app s) (showShortcutsHelp s) true (highlightedTaskId s)
    else if bool_decide (k = js "/") || bool_decide (key e = js "?") then
      mkHome (app s) (negb (showShortcutsHelp s)) (showSearch s)
        (highlightedTaskId s)
    else s.

End Keys.

(** [handleSearchSelect(task, projectId)], up to the timer that clears
    the highlight two seconds later. *)
Definition handleSearchSelect (task : Task.Row) (projectId : option jsstring)
    (s : HomeState) : HomeState :=
  if truthy_opt projectId then
    mkHome (setActiveView (projectView (default [] projectId)) (app s))
      (showShortcutsHelp s) false (Some (Task.id task))
  else
    mkHome
      (match Task.schedule task with
       | Some b => setActiveView (bucket_name b) (app s)
       | None => app s
       end)
      (showShortcutsHelp s) false (Some (Task.id task)).

End HomeUi.

(** ** The task detail modal ([components/TaskDetailModal.tsx]) *)

Module TaskDetailModal.

(** The fields of the form. *)
Record Form := mkForm {
  title : jsstring;
  notes : jsstring;
  schedule : option Bucket;
  scheduledDate : jsstring;
  deadline : jsstring;
  projectId : jsstring;
}.

(** The initial values of the [useState] calls. *)
Definition initialForm (task : Task.Row) : Form :=
  {| title := Task.title task;
     notes := or_else (Task.notes task) [];
     schedule := Task.schedule task;
     scheduledDate := or_else (Task.scheduled_date task) [];
     deadline := or_else (Task.deadline task) [];
     projectId := or_else (Task.project_id task) [] |}.

(** The updates of [handleSave]. *)
Definition saveUpdates (f : Form) : TaskPartial.t :=
  {| TaskPartial.id := None;
     TaskPartial.user_id := None;
     TaskPartial.project_id := Some (or_null (Some (projectId f)));
     TaskPartial.heading_id := None;
     TaskPartial.title := Some (title f);
     TaskPartial.emoji := None;
     TaskPartial.notes := Some (or_null (Some (notes f)));
     TaskPartial.status := None;
     TaskPartial.schedule := Some (schedule f);
     TaskPartial.scheduled_date := Some (or_null (Some (scheduledDate f)));
     TaskPartial.deadline := Some (or_null (Some (deadline f)));
     TaskPartial.position := None;
     TaskPartial.created_at := None;
     TaskPartial.updated_at := None;
     TaskPartial.completed_at := None |}.

(** The updates of [handleComplete] and [handleCancel]. *)
Definition closeUpdates (status : TaskStatus) (now : jsstring) : TaskPartial.t :=
  {| TaskPartial.id := None;
     TaskPartial.user_id := None;
     TaskPartial.project_id := None;
     TaskPartial.heading_id := None;
     TaskPartial.title := None;
     TaskPartial.emoji := None;
     TaskPartial.notes := None;
     TaskPartial.status := Some status;
     TaskPartial.schedule := None;
     TaskPartial.scheduled_date := None;
     TaskPartial.deadline := None;
     TaskPartial.position := None;
     TaskPartial.created_at := None;
     TaskPartial.updated_at := None;
     TaskPartial.completed_at := Some (Some now) |}.

(** The modal as [Home] mounts it for the selected task [task]:
    [onUpdate={(updates) => handleUpdateTask(selectedTask.id, updates)}]
    and [onClose={() => setSelectedTask(null)}]; [now] is the time
    [handleUpdateTask] reads. *)
Definition handleSave (task : Task.Row) (f : Form) (now : jsstring)
    (st : AppState) : AppState :=
  setSelectedTask None
    (Handlers.handleUpdateTask (Task.id task) (saveUpdates f) now st).

(** [stamp] is the time the modal reads for [completed_at], [now] the
    one [handleUpdateTask] reads after it. *)
Definition handleComplete (task : Task.Row) (stamp now : jsstring)
    (st : AppState) : AppState :=
  setSelectedTask None
    (Handlers.handleUpdateTask (Task.id task) (closeUpdates Completed stamp) now st).

Definition handleCancel (task : Task.Row) (stamp now : jsstring)
    (st : AppState) : AppState :=
  setSelectedTask None
    (Handlers.handleUpdateTask (Task.id task) (closeUpdates Cancelled stamp) now st).

End TaskDetailModal.

(** ** What the user can do, as [Home] wires it *)

Module App.

Import HomeUi Handlers.

(** One constructor for each callback [Home] hands to the sidebar, the
    project view, the task list, the modals and the search, for the
    keys, and for the timer that clears the highlight. *)
Inductive Action :=
| KeyDown (e : KeyboardEvent)
| SearchSelect (task : Task.Row)
| ViewChange (view : jsstring)
| CreateProject (name : jsstring) (areaId : option jsstring)
    (uuid created updated : jsstring)
| DeleteProject (projectId : jsstring)
| MoveTaskToProject (taskId projectId now : jsstring)
| MoveTaskToSchedule (taskId : jsstring) (schedule : Bucket) (now : jsstring)
| ReorderProjects (reorderedProjects : list Project.Row)
| UpdateProjectEmoji (projectId emoji now : jsstring)
| ToggleTask (taskId : jsstring) (completed : bool) (now : jsstring)
| ScheduleTask (taskId : jsstring) (schedule : option Bucket)
| StartAddTask (headingId : option jsstring)
| CancelAddTask
| AddTask (taskData : TaskData) (uuid created updated : jsstring)
| AddHeading (name uuid now : jsstring)
| UpdateProject (updates : ProjectPartial.t) (now : jsstring)
| TaskClick (task : Task.Row)
| CloseTask
| DeleteTask (taskId : jsstring)
| ReorderTasks (reorderedTasks : list Task.Row)
| UpdateTaskEmoji (taskId emoji now : jsstring)
| SnoozeAll (clock : nat -> jsstring)
| UpdateTask (taskId : jsstring) (updates : TaskPartial.t) (now : jsstring)
| ConvertToProject (task : Task.Row) (uuid created updated : jsstring)
| OpenTaskModal
| CloseQuickProject
| CloseShortcuts
| CloseSearch
| ClearHighlight.

Section Step.

Variable generateEmoji : jsstring -> jsstring.
Variable toLowerCase : jsstring -> jsstring.

Definition step (a : Action) (s : HomeState) : HomeState :=
  match a with
  | KeyDown e => handleKeyDown toLowerCase e s
  | SearchSelect task => handleSearchSelect task (Task.project_id task) s
  | ViewChange view => setApp (setActiveView view) s
  | CreateProject name areaId uuid created updated =>
      setApp (handleCreateProject generateEmoji name areaId uuid created updated) s
  | DeleteProject projectId => setApp (handleDeleteProject projectId) s
  | MoveTaskToProject taskId projectId now =>
      setApp (handleMoveTaskToProject taskId projectId now) s
  | MoveTaskToSchedule taskId schedule now =>
      setApp (handleMoveTaskToSchedule taskId schedule now) s
  | ReorderProjects reorderedProjects =>
      setApp (handleReorderProjects reorderedProjects) s
  | UpdateProjectEmoji projectId emoji now =>
      setApp (handleUpdateProjectEmoji projectId emoji now) s
  | ToggleTask taskId completed now =>
      setApp (handleToggleTask taskId completed now) s
  | ScheduleTask taskId schedule => setApp (handleScheduleTask taskId schedule) s
  | StartAddTask headingId =>
      setApp (fun st => setIsAddingTask true (setAddingTaskHeadingId headingId st)) s
  | CancelAddTask =>
      setApp (fun st => setAddingTaskHeadingId None (setIsAddingTask false st)) s
  | AddTask taskData uuid created updated =>
      setApp (handleAddTask generateEmoji taskData uuid created updated) s
  | AddHeading name uuid now => setApp (handleAddHeading name uuid now) s
  | UpdateProject updates now => setApp (handleUpdateProject updates now) s
  | TaskClick task => setApp (setSelectedTask (Some task)) s
  | CloseTask => setApp (setSelectedTask None) s
  | DeleteTask taskId => setApp (handleDeleteTask taskId) s
  | ReorderTasks reorderedTasks => setApp (handleReorderTasks reorderedTasks) s
  | UpdateTaskEmoji taskId emoji now =>
      setApp (handleUpdateTaskEmoji taskId emoji now) s
  | SnoozeAll clock => setApp (handleSnoozeAllToNextWeek clock) s
  | UpdateTask taskId updates now =>
      setApp (handleUpdateTask taskId updates now) s
  | ConvertToProject task uuid created updated =>
      setApp (handleConvertToProject generateEmoji task uuid created updated) s
  | OpenTaskModal => setApp (setIsAddingTask true) s
  | CloseQuickProject => setApp (setIsAddingProjectViaShortcut false) s
  | CloseShortcuts =>
      mkHome (app s) false (showSearch s) (highlightedTaskId s)
  | CloseSearch =>
      mkHome (app s) (showShortcutsHelp s) false (highlightedTaskId s)
  | ClearHighlight => mkHome (app s) (showShortcutsHelp s) (showSearch s) None
  end.

Definition run (actions : list Action) (s : HomeState) : HomeState :=
  foldl (fun s a => step a s) s actions.

End Step.

(** What the callers hand in: a search result is a task; the sidebar
    opens a fixed view or a project it lists; a task is dropped on a
    listed project; new ids are fresh; updates do not set an id, and
    set the project to none or to a project there is; reordered rows
    have distinct ids and, for tasks, projects there are. *)
Definition allowed (st : AppState) (a : Action) : Prop :=
  match a with
  | SearchSelect task => task ∈ tasks st
  | ViewChange view =>
      view ∈ Home.navIds
      \/ exists p, p ∈ projects st /\ view = projectView (Project.id p)
  | CreateProject _ _ uuid _ _ => uuid ∉ Project.id <$> projects st
  | MoveTaskToProject _ projectId _ => projectId ∈ Project.id <$> projects st
  | ReorderProjects reorderedProjects =>
      NoDup (Project.id <$> reorderedProjects)
  | AddTask _ uuid _ _ => uuid ∉ Task.id <$> tasks st
  | AddHeading _ uuid _ => uuid ∉ Heading.id <$> headings st
  | UpdateProject updates _ => ProjectPartial.id updates = None
  | ReorderTasks reorderedTasks =>
      NoDup (Task.id <$> reorderedTasks) /\
      Forall (fun t => forall p, Task.project_id t = Some p ->
                p ∈ Project.id <$> projects st) reorderedTasks
  | UpdateTask _ updates _ =>
      TaskPartial.id updates = None /\
      forall p, TaskPartial.project_id updates = Some (Some p) ->
                p ∈ Project.id <$> projects st
  | ConvertToProject _ uuid _ _ => uuid ∉ Project.id <$> projects st
  | _ => True
  end.

(** Ids are unique in each collection, and every project a task, a
    heading or the view names is a project of the collection. *)
Definition consistent (st : AppState) : Prop :=
  NoDup (Task.id <$> tasks st) /\
  NoDup (Project.id <$> projects st) /\
  NoDup (Heading.id <$> headings st) /\
  Forall (fun t => forall p, Task.project_id t = Some p ->
            p ∈ Project.id <$> projects st) (tasks st) /\
  Forall (fun h => Heading.project_id h ∈ Project.id <$> projects st)
    (headings st) /\
  (forall cur, currentProjectId st = Some cur ->
               cur ∈ Project.id <$> projects st).

Section Runs.

Variable generateEmoji : jsstring -> jsstring.
Variable toLowerCase : jsstring -> jsstring.

(** Each action of the run is allowed in the state it meets. *)
Fixpoint allowed_run (actions : list Action) (s : HomeState) : Prop :=
  match actions with
  | [] => True
  | a :: actions' =>
      allowed (app s) a
      /\ allowed_run actions' (step generateEmoji toLowerCase a s)
  end.

End Runs.

End App.

(** ** More concrete records for the examples *)

Module MoreSamples.

(** A task with another position and creation stamp. *)
Definition placed (position : Z) (created : string) (t : Task.Row) : Task.Row :=
  Task.mk (Task.id t) (Task.user_id t) (Task.project_id t) (Task.heading_id t)
    (Task.title t) (Task.emoji t) (Task.notes t) (Task.status t)
    (Task.schedule t) (Task.scheduled_date t) (Task.deadline t)
    position (js created) (Task.updated_at t) (Task.completed_at t).

(** Three open tasks of project [p1], two without heading and one
    under [h1], stored out of position order. *)
Definition e1 : Task.Row :=
  placed 2 "2024-02-01T09:00:00.000Z"
    (Samples.task "e1" (Some "p1") None Active (Some Today) None
       "2024-02-01T09:00:00.000Z" None).
Definition e2 : Task.Row :=
  placed 0 "2024-02-03T09:00:00.000Z"
    (Samples.task "e2" (Some "p1") None Active (Some Anytime) None
       "2024-02-03T09:00:00.000Z" None).
Definition e3 : Task.Row :=
  placed 1 "2024-02-02T09:00:00.000Z"
    (Samples.task "e3" (Some "p1") (Some "h1") Active None None
       "2024-02-02T09:00:00.000Z" None).

(** [Home] with the search open over the state that shows project
    [p1]. *)
Definition home : HomeUi.HomeState :=
  HomeUi.mkHome Samples.st1 false true None.

(** The detail modal of task [t1] with project [p2] chosen. *)
Definition form_p2 : TaskDetailModal.Form :=
  TaskDetailModal.mkForm (js "Buy milk") [] (Some Today) [] [] (js "p2").

(** A lower-casing for the examples, which type lower case. *)
Definition asTyped (s : jsstring) : jsstring := s.

End MoreSamples.

(** * Properties *)

(** ** Handlers *)

Section HandlerFacts.

Import Handlers Props.

Lemma filter_keeps_others {A} (P : A -> Prop) `{forall x, Decision (P x)}
    (l : list A) :
  Forall P (filter P l) /\ filter P (filter P l) = filter P l.
Proof.
  split.
  - apply Forall_forall. intros x Hx. apply list_elem_of_filter in Hx. tauto.
  - apply list_filter_filter_l. tauto.
Qed.

(** C1. Deleting project [P] keeps exactly the projects whose id is not
    [P], the tasks whose [project_id] is not [P] and the headings whose
    [project_id] is not [P], in their order; areas are untouched; a
    view that showed [P] falls back to [today], any other view stays. *)
Theorem handleDeleteProject_cascade (P : jsstring) (st : AppState) :
  let st' := handleDeleteProject P st in
  (forall p, p ∈ projects st' <-> p ∈ projects st /\ Project.id p <> P) /\
  (forall t, t ∈ tasks st' <-> t ∈ tasks st /\ Task.project_id t <> Some P) /\
  (forall h, h ∈ headings st' <-> h ∈ headings st /\ Heading.project_id h <> P) /\
  projects st' `sublist_of` projects st /\
  tasks st' `sublist_of` tasks st /\
  headings st' `sublist_of` headings st /\
  areas st' = areas st /\
  (activeView st = projectView P -> activeView st' = js "today") /\
  (activeView st <> projectView P -> activeView st' = activeView st).
Proof.
  unfold handleDeleteProject. cbv zeta.
  destruct (decide (activeView st = projectView P)) as [Hv|Hv]; cbn.
  all: repeat match goal with |- _ /\ _ => split end.
  all: try (intros x; rewrite list_elem_of_filter; tauto).
  all: try apply sublist_filter.
  all: try reflexivity; intros; congruence.
Qed.

(** C1 on a state that shows project [p1]: after the deletion of [p1]
    the view is [today], and task [t2], which is in no project, stays. *)
Lemma handleDeleteProject_cascade_witness :
  activeView (handleDeleteProject (js "p1") Samples.st1) = js "today" /\
  Samples.t2 ∈ tasks (handleDeleteProject (js "p1") Samples.st1).
Proof.
  destruct (handleDeleteProject_cascade (js "p1") Samples.st1)
    as (_ & Ht & _ & _ & _ & _ & _ & Hv & _).
  split.
  - apply Hv. reflexivity.
  - apply Ht. split; [|discriminate].
    apply list_elem_of_here || (apply list_elem_of_further, list_elem_of_here).
Defined.

(** C10. Deleting task [T] leaves no task with id [T], keeps the tasks
    with another id as they were and in their order, and touches no
    other collection nor the view. *)
Theorem handleDeleteTask_frame (T : jsstring) (st : AppState) :
  let st' := handleDeleteTask T st in
  Forall (fun t => Task.id t <> T) (tasks st') /\
  filter (fun t => Task.id t <> T) (tasks st')
    = filter (fun t => Task.id t <> T) (tasks st) /\
  (forall t, t ∈ tasks st' <-> t ∈ tasks st /\ Task.id t <> T) /\
  tasks st' `sublist_of` tasks st /\
  projects st' = projects st /\ areas st' = areas st /\
  headings st' = headings st /\ activeView st' = activeView st.
Proof.
  cbn. pose proof (filter_keeps_others (fun t => Task.id t <> T) (tasks st)) as [H1 H2].
  repeat split; auto using sublist_filter;
    rewrite list_elem_of_filter in *; tauto.
Qed.


Lemma updates_only_fmap (taskId : jsstring) (R : Task.Row -> Task.Row -> Prop)
    (f : Task.Row -> Task.Row) (l : list Task.Row) :
  (forall t, Task.id t = taskId -> R t (f t)) ->
  (forall t, Task.id t <> taskId -> f t = t) ->
  updates_only taskId R l (f <$> l).
Proof.
  intros Hhit Hmiss. unfold updates_only.
  induction l as [|t l IH]; cbn; constructor; auto.
  destruct (decide (Task.id t = taskId)); auto.
Qed.

(** C2 (amended). A move of the tasks with id [taskId] to bucket [b]
    sets [schedule] to [b] and stamps [updated_at]; a move to project
    [p] sets [project_id] to [p], clears [heading_id] and stamps
    [updated_at]. Each move leaves every other field, and every other
    task, as it was: the move to a bucket keeps [heading_id]. *)
Theorem move_task_effects (taskId now : jsstring) (st : AppState) :
  (forall b,
     updates_only taskId (moved_to_schedule b now)
       (tasks st) (tasks (handleMoveTaskToSchedule taskId b now st))) /\
  (forall p,
     updates_only taskId (moved_to_project p now)
       (tasks st) (tasks (handleMoveTaskToProject taskId p now st))).
Proof.
  split; intros x; cbn; apply updates_only_fmap; intros t Ht.
  - unfold moveTaskToSchedule. rewrite decide_True by done.
    repeat split.
  - unfold moveTaskToSchedule. by rewrite decide_False.
  - unfold moveTaskToProject. rewrite decide_True by done.
    repeat split.
  - unfold moveTaskToProject. by rewrite decide_False.
Qed.

(** C2, as stated, fails: task [t1] sits under heading [h1]; moved to
    the [someday] bucket it still does. *)
Lemma schedule_move_keeps_heading :
  ~ schedule_move_clears_heading (js "t1") Someday
      (js "2024-03-01T10:00:00.000Z") Samples.st1.
Proof.
  unfold schedule_move_clears_heading, updates_only. cbn.
  intros H. apply Forall2_cons_1 in H as [H _].
  vm_compute in H. destruct H as [_ H]. discriminate H.
Qed.

Lemma toggleTask_consistent (taskId : jsstring) (c : bool) (now : jsstring)
    (t : Task.Row) :
  completion_consistent t -> completion_consistent (toggleTask taskId c now t).
Proof.
  unfold toggleTask, completion_consistent.
  destruct (decide (Task.id t = taskId)); [|done].
  intros _. destruct c; cbn; split; intros H; try done.
  all: by destruct H.
Qed.

Lemma run_toggles_snoc (ops : list Toggle) (op : Toggle) (st : AppState) :
  run_toggles (ops ++ [op]) st
  = handleToggleTask (toggle_id op) (toggle_completed op) (toggle_now op)
      (run_toggles ops st).
Proof. unfold run_toggles. by rewrite foldl_app. Qed.

(** C3. Completing the tasks with id [taskId] gives them status
    [completed] and the completion time [now]; un-completing gives them
    status [active] and no completion time; a toggle touches no other
    task. Hence a collection in which every task is completed exactly
    when it has a completion time stays so under every sequence of
    toggles. *)
Theorem toggle_completion_invariant (ops : list Toggle) (st : AppState) :
  (forall taskId now,
     updates_only taskId
       (fun _ t' => Task.status t' = Completed /\ Task.completed_at t' = Some now)
       (tasks st) (tasks (handleToggleTask taskId true now st))) /\
  (forall taskId now,
     updates_only taskId
       (fun _ t' => Task.status t' = Active /\ Task.completed_at t' = None)
       (tasks st) (tasks (handleToggleTask taskId false now st))) /\
  (Forall completion_consistent (tasks st) ->
   Forall completion_consistent (tasks (run_toggles ops st))).
Proof.
  split; [|split].
  - intros taskId now. cbn. apply updates_only_fmap; intros t Ht;
      unfold toggleTask; [rewrite decide_True by done|rewrite decide_False by done];
      done.
  - intros taskId now. cbn. apply updates_only_fmap; intros t Ht;
      unfold toggleTask; [rewrite decide_True by done|rewrite decide_False by done];
      done.
  - intros Hinit. induction ops as [|op ops IH] using rev_ind; [done|].
    rewrite run_toggles_snoc. cbn. apply Forall_fmap.
    eapply Forall_impl; [exact IH|].
    intros t Ht. by apply toggleTask_consistent.
Qed.

(** The invariant of C3 on a run: [t1] is completed, [t2] is completed
    and then re-opened. *)
Lemma toggle_completion_invariant_witness :
  Forall completion_consistent
    (tasks (run_toggles
              [mkToggle (js "t1") true (js "2024-03-01T10:00:00.000Z");
               mkToggle (js "t2") true (js "2024-03-01T10:05:00.000Z");
               mkToggle (js "t2") false (js "2024-03-01T10:06:00.000Z")]
              Samples.st1)).
Proof.
  apply (toggle_completion_invariant _ Samples.st1).
  repeat constructor; vm_compute; intros H; try discriminate H;
    by destruct H.
Defined.

(** C4 fails on the code. Toggling a task and scheduling it through the
    picker leave every [updated_at] as it was, though they change
    [status], [completed_at] and [schedule]: completing [t1] at 10:00 on
    2024-03-01 changes the task and keeps its stamp of 2024-01-01. The
    sibling handlers do refresh the stamp: [handleMoveTaskToSchedule]
    writes the same [schedule] field, and [handleUpdateTask] is what the
    detail modal completes a task with. *)
Theorem toggle_and_schedule_keep_updated_at :
  (forall taskId c now st,
     Task.updated_at <$> tasks (handleToggleTask taskId c now st)
     = Task.updated_at <$> tasks st) /\
  (forall taskId s st,
     Task.updated_at <$> tasks (handleScheduleTask taskId s st)
     = Task.updated_at <$> tasks st) /\
  ~ refreshes_updated_at (js "2024-03-01T10:00:00.000Z")
      (tasks Samples.st1)
      (tasks (handleToggleTask (js "t1") true (js "2024-03-01T10:00:00.000Z")
                Samples.st1)) /\
  ~ refreshes_updated_at (js "2024-03-01T10:00:00.000Z")
      (tasks Samples.st1)
      (tasks (handleScheduleTask (js "t1") (Some Someday) Samples.st1)) /\
  (forall taskId b now st,
     refreshes_updated_at now (tasks st)
       (tasks (handleMoveTaskToSchedule taskId b now st))) /\
  (forall taskId updates now st,
     refreshes_updated_at now (tasks st)
       (tasks (handleUpdateTask taskId updates now st))).
Proof.
  repeat match goal with |- _ /\ _ => split end.
  - intros. cbn. rewrite <- list_fmap_compose. apply list_fmap_ext.
    intros i t _. cbn. unfold toggleTask. by case_decide.
  - intros. cbn. rewrite <- list_fmap_compose. apply list_fmap_ext.
    intros i t _. cbn. unfold scheduleTask. by case_decide.
  - intros H. apply Forall2_cons_1 in H as [H _].
    vm_compute in H. specialize (H ltac:(discriminate)). discriminate H.
  - intros H. apply Forall2_cons_1 in H as [H _].
    vm_compute in H. specialize (H ltac:(discriminate)). discriminate H.
  - intros. cbn. unfold refreshes_updated_at.
    induction (tasks st) as [|t l IH]; cbn; constructor; auto.
    unfold moveTaskToSchedule. case_decide; [done|]. intros H'. by destruct H'.
  - intros. cbn. unfold refreshes_updated_at.
    induction (tasks st) as [|t l IH]; cbn; constructor; auto.
    case_decide; [done|]. intros H'. by destruct H'.
Qed.

(** C9. The picker's Clear sends [null]: the tasks with id [taskId]
    then carry the [anytime] bucket, and whatever the picker sends, no
    targeted task is left without a bucket; other tasks are kept. So
    does a click on Clear in the picker of a task of the list. *)
Theorem handleScheduleTask_never_clears (taskId : jsstring) (st : AppState) :
  updates_only taskId (fun _ t' => Task.schedule t' = Some Anytime)
    (tasks st) (tasks (handleScheduleTask taskId None st)) /\
  (forall task click,
     SchedulePicker.clickClear (Task.schedule task) (ProjectView.pickerSelect task)
       = Some click ->
     updates_only (Task.id task) (fun _ t' => Task.schedule t' = Some Anytime)
       (tasks st) (tasks (click st))) /\
  (forall s,
     updates_only taskId (fun _ t' => Task.schedule t' <> None)
       (tasks st) (tasks (handleScheduleTask taskId s st))) /\
  (forall b,
     updates_only taskId (fun _ t' => Task.schedule t' = Some b)
       (tasks st) (tasks (handleScheduleTask taskId (Some b) st))).
Proof.
  repeat match goal with |- _ /\ _ => split end; intros;
    try match goal with
        | H : SchedulePicker.clickClear _ _ = Some _ |- _ =>
            unfold SchedulePicker.clickClear in H;
            destruct (Task.schedule _); [|discriminate H];
            injection H as <-; unfold ProjectView.pickerSelect
        end;
    cbn; apply updates_only_fmap; intros t Ht; unfold scheduleTask;
    first [by rewrite decide_False | rewrite decide_True by done; done].
Qed.

(** C9 on task [t1], which is scheduled for today: its picker shows
    Clear, and the click leaves [t1] in the [anytime] bucket. *)
Lemma handleScheduleTask_never_clears_witness :
  exists click,
    SchedulePicker.clickClear (Task.schedule Samples.t1)
      (ProjectView.pickerSelect Samples.t1) = Some click /\
    updates_only (Task.id Samples.t1)
      (fun _ t' => Task.schedule t' = Some Anytime)
      (tasks Samples.st1) (tasks (click Samples.st1)).
Proof.
  eexists. split; [reflexivity|].
  destruct (handleScheduleTask_never_clears (Task.id Samples.t1) Samples.st1)
    as (_ & H & _).
  apply (H Samples.t1). reflexivity.
Defined.

End HandlerFacts.

(** ** [Array.prototype.sort] *)

Section SortFacts.

Import JsArray.

Context {A : Type} (comparefn : A -> A -> number).

Lemma insert_Permutation (x : A) (l : list A) :
  insert comparefn x l ≡ₚ x :: l.
Proof.
  induction l as [|y l IH]; cbn; [done|].
  case_match; [done|]. rewrite IH. apply Permutation_swap.
Qed.

(** The sorted array holds the elements of the array, each as often. *)
Lemma sort_Permutation (l : list A) : sort comparefn l ≡ₚ l.
Proof.
  induction l as [|x l IH]; cbn; [done|].
  by rewrite insert_Permutation, IH.
Qed.

(** The sort is stable: elements that the comparator does not put
    after one another keep their order. *)
Lemma sort_stable (P : A -> Prop) `{forall x, Decision (P x)} (l : list A) :
  (forall x y, P x -> P y -> (SortCompare comparefn x y <= 0)%Z) ->
  filter P (sort comparefn l) = filter P l.
Proof.
  intros Hties.
  assert (Hins : forall x l', filter P (insert comparefn x l') = filter P (x :: l')).
  { intros x l'. induction l' as [|y l' IH]; [done|].
    cbn [insert]. destruct (Z.leb_spec (SortCompare comparefn x y) 0) as [Hc|Hc];
      [done|].
    rewrite filter_cons, IH, !filter_cons.
    destruct (decide (P y)) as [Hy|Hy], (decide (P x)) as [Hx|Hx]; try done.
    specialize (Hties x y Hx Hy). lia. }
  induction l as [|x l IH]; [done|].
  cbn [sort]. by rewrite Hins, !filter_cons, IH.
Qed.

(** [le] is an order the comparator decides on the elements that
    satisfy [ok]. *)
Context (ok : A -> Prop) (le : A -> A -> Prop).
Hypothesis cmp_le :
  forall x y, ok x -> ok y -> (SortCompare comparefn x y <= 0)%Z -> le x y.
Hypothesis cmp_gt :
  forall x y, ok x -> ok y -> (0 < SortCompare comparefn x y)%Z -> le y x.
Hypothesis le_trans : forall x y z, le x y -> le y z -> le x z.

Lemma insert_StronglySorted (x : A) (l : list A) :
  ok x -> Forall ok l -> StronglySorted le l ->
  StronglySorted le (insert comparefn x l).
Proof.
  intros Hx Hl Hs. induction Hs as [|y l Hs IH Hy]; cbn.
  - repeat constructor.
  - apply Forall_cons in Hl as [Hoky Hl].
    destruct (Z.leb_spec (SortCompare comparefn x y) 0) as [Hc|Hc].
    + constructor; [by constructor|].
      constructor; [by apply cmp_le|].
      eapply Forall_impl; [exact Hy|]. intros z Hz.
      eapply le_trans; [|exact Hz]. by apply cmp_le.
    + constructor; [by apply IH|].
      rewrite insert_Permutation. constructor; [by apply cmp_gt|done].
Qed.

(** On elements the comparator orders by [le], the sorted array is in
    [le] order: each element stands before all later ones. *)
Lemma sort_StronglySorted (l : list A) :
  Forall ok l -> StronglySorted le (sort comparefn l).
Proof.
  induction l as [|x l IH]; cbn; intros Hl; [constructor|].
  apply Forall_cons in Hl as [Hx Hl].
  apply insert_StronglySorted; auto.
  by rewrite sort_Permutation.
Qed.

End SortFacts.

(** ** Due-date order and the logbook *)

Section ViewFacts.

Import JsArray Props.

Variable Date_getTime : jsstring -> number.
Variable localeCompare : jsstring -> jsstring -> Z.

Lemma due_before_trans (a b c : Task.Row) :
  due_before Date_getTime a b -> due_before Date_getTime b c ->
  due_before Date_getTime a c.
Proof.
  unfold due_before, time_le.
  destruct (Task.deadline a) as [da|], (Task.deadline b) as [db|],
    (Task.deadline c) as [dc|]; try done.
  destruct (Date_getTime da), (Date_getTime db), (Date_getTime dc);
    try done. lia.
Qed.

Lemma compare_due_date (order : list jsstring) (a b : Task.Row) :
  deadline_is_date Date_getTime a -> deadline_is_date Date_getTime b ->
  let compare := ProjectView.compareTasks Date_getTime localeCompare DueDate order in
  ((SortCompare compare a b <= 0)%Z -> due_before Date_getTime a b) /\
  ((0 < SortCompare compare a b)%Z -> due_before Date_getTime b a).
Proof.
  unfold deadline_is_date, SortCompare, ProjectView.compareTasks, due_before,
    time_le.
  intros Ha Hb.
  destruct (Task.deadline a) as [da|], (Task.deadline b) as [db|].
  - destruct (Ha da eq_refl) as [Hna [ta Hta]], (Hb db eq_refl) as [Hnb [tb Htb]].
    destruct da; [done|]. destruct db; [done|]. cbn.
    rewrite Hta, Htb. cbn. lia.
  - destruct (Ha da eq_refl) as [Hna _]. destruct da; [done|]. cbn. lia.
  - destruct (Hb db eq_refl) as [Hnb _]. destruct db; [done|]. cbn. lia.
  - cbn. lia.
Qed.

(** C5 (amended). When every deadline is null or a date, sorting in
    due-date mode rearranges the tasks so that each task stands before
    all later ones in due-date order: no task with a null deadline
    before a task with a deadline, and the deadlines ascending, equal
    dates allowed. *)
Theorem sortTasks_due_date (order : list jsstring) (l : list Task.Row) :
  Forall (deadline_is_date Date_getTime) l ->
  let r := ProjectView.sortTasks Date_getTime localeCompare DueDate order l in
  r ≡ₚ l /\ StronglySorted (due_before Date_getTime) r.
Proof.
  intros Hl. split; [apply sort_Permutation|].
  apply sort_StronglySorted with (ok := deadline_is_date Date_getTime);
    [| |exact due_before_trans|exact Hl].
  - intros x y Hx Hy. by apply compare_due_date.
  - intros x y Hx Hy. by apply compare_due_date.
Qed.

Lemma logbook_before_trans (a b c : Task.Row) :
  logbook_before Date_getTime a b -> logbook_before Date_getTime b c ->
  logbook_before Date_getTime a c.
Proof.
  unfold logbook_before, time_le.
  destruct (logbookTime Date_getTime a), (logbookTime Date_getTime b),
    (logbookTime Date_getTime c); try done. lia.
Qed.

Lemma logbookDate_time (t : Task.Row) :
  Task.completed_at t <> Some [] ->
  Date_getTime (Views.logbookDate t) = logbookTime Date_getTime t.
Proof.
  unfold Views.logbookDate, logbookTime, or_else.
  destruct (Task.completed_at t) as [[|c s]|]; done.
Qed.

Lemma compare_logbook (a b : Task.Row) :
  logbook_stamps_are_dates Date_getTime a ->
  logbook_stamps_are_dates Date_getTime b ->
  ((SortCompare (Views.compareInView Date_getTime (js "logbook")) a b <= 0)%Z
     -> logbook_before Date_getTime a b) /\
  ((0 < SortCompare (Views.compareInView Date_getTime (js "logbook")) a b)%Z
     -> logbook_before Date_getTime b a).
Proof.
  intros [Ha [ta Hta]] [Hb [tb Htb]].
  unfold SortCompare, Views.compareInView, logbook_before, time_le.
  rewrite bool_decide_eq_true_2 by done.
  rewrite !logbookDate_time by done. rewrite Hta, Htb. cbn. lia.
Qed.

Lemma inView_logbook (t : Task.Row) :
  Views.inView (js "logbook") t = bool_decide (Task.status t = Completed).
Proof. reflexivity. Qed.

Lemma filter_bool_decide {B} (P : B -> Prop) `{forall x, Decision (P x)}
    (f : B -> bool) (l : list B) :
  (forall x, f x = bool_decide (P x)) -> List.filter f l = filter P l.
Proof.
  intros Hf. induction l as [|x l IH]; [done|].
  rewrite filter_cons. cbn [List.filter]. rewrite Hf, IH.
  destruct (decide (P x)) as [Hp|Hp].
  - by rewrite bool_decide_eq_true_2.
  - by rewrite bool_decide_eq_false_2.
Qed.

(** C6. In the logbook view, when the stamps of the completed tasks
    are dates, the view holds exactly the completed tasks, each as
    often as the collection does, and each stands before all later ones
    in logbook order: descending by [completed_at], with [updated_at]
    in its place where [completed_at] is null. *)
Theorem logbook_view (st : AppState) :
  activeView st = js "logbook" ->
  Forall (fun t => Task.status t = Completed ->
                   logbook_stamps_are_dates Date_getTime t) (tasks st) ->
  let r := Views.filteredTasks Date_getTime st in
  r ≡ₚ filter (fun t => Task.status t = Completed) (tasks st) /\
  Forall (fun t => Task.status t = Completed) r /\
  StronglySorted (logbook_before Date_getTime) r.
Proof.
  intros Hview Hst. unfold Views.filteredTasks. rewrite Hview. cbv zeta.
  rewrite (filter_bool_decide (fun t => Task.status t = Completed))
    by apply inView_logbook.
  split; [apply sort_Permutation|]. split.
  - rewrite sort_Permutation. apply Forall_forall. intros t Ht.
    apply list_elem_of_filter in Ht. tauto.
  - apply sort_StronglySorted
      with (ok := logbook_stamps_are_dates Date_getTime);
      [| |exact logbook_before_trans|].
    + intros x y Hx Hy. by apply compare_logbook.
    + intros x y Hx Hy. by apply compare_logbook.
    + apply Forall_forall. intros t Ht.
      apply list_elem_of_filter in Ht as [Hc Ht].
      rewrite Forall_forall in Hst. by apply Hst.
Qed.

End ViewFacts.

Section ViewExamples.

Import Props.

(** C5, on tasks due on 10 March, never, and on 1 March. *)
Lemma sortTasks_due_date_witness :
  let r := ProjectView.sortTasks IsoDate.getTime Samples.noCollation DueDate []
             [Samples.d1; Samples.d3; Samples.d4] in
  r ≡ₚ [Samples.d1; Samples.d3; Samples.d4] /\
  StronglySorted (due_before IsoDate.getTime) r.
Proof.
  apply (sortTasks_due_date IsoDate.getTime Samples.noCollation []
           [Samples.d1; Samples.d3; Samples.d4]).
  repeat first [apply Forall_nil_2 | apply Forall_cons_2];
    intros d Hd; vm_compute in Hd;
    try discriminate Hd; injection Hd as <-;
    (split; [discriminate | eexists; vm_compute; reflexivity]).
Defined.

(** C5, as stated, fails: two tasks due on the same day are not in
    strictly ascending order, whichever comes first. *)
Lemma due_date_ties_not_strict :
  ~ sorted_strictly_by_due_date IsoDate.getTime Samples.noCollation []
      [Samples.d1; Samples.d2].
Proof.
  unfold sorted_strictly_by_due_date. intros H.
  vm_compute ProjectView.sortTasks in H.
  apply StronglySorted_inv in H as [_ H].
  apply Forall_cons in H as [H _].
  vm_compute in H. discriminate H.
Qed.

(** C6, on a logbook of two completed tasks and an open one. *)
Lemma logbook_view_witness :
  let r := Views.filteredTasks IsoDate.getTime Samples.st_logbook in
  r ≡ₚ filter (fun t => Task.status t = Completed) (tasks Samples.st_logbook) /\
  Forall (fun t => Task.status t = Completed) r /\
  StronglySorted (logbook_before IsoDate.getTime) r.
Proof.
  apply (logbook_view IsoDate.getTime Samples.st_logbook); [reflexivity|].
  repeat first [apply Forall_nil_2 | apply Forall_cons_2];
    intros Hc; try discriminate Hc;
    (split; [discriminate | eexists; vm_compute; reflexivity]).
Defined.

End ViewExamples.

(** ** JSON texts *)

Section JsonFacts.

Import Json.

(** Induction on values, with the elements and members as premises. *)
Lemma value_ind (P : value -> Prop) :
  P Null -> (forall b, P (Bool b)) -> (forall z, P (Num z)) ->
  (forall s, P (Str s)) ->
  (forall l, Forall P l -> P (Arr l)) ->
  (forall l, Forall (fun m => P (snd m)) l -> P (Obj l)) ->
  forall v, P v.
Proof.
  intros HNull HBool HNum HStr HArr HObj.
  fix IH 1. intros [|b|z|s|l|l].
  - exact HNull.
  - apply HBool.
  - apply HNum.
  - apply HStr.
  - apply HArr. revert l. fix IHl 1. intros [|x l].
    + constructor.
    + constructor; [apply IH|apply IHl].
  - apply HObj. revert l. fix IHl 1. intros [|[k x] l].
    + constructor.
    + constructor; [apply IH|apply IHl].
Qed.

(** *** Numbers *)

Lemma read_uint_units (d : Decimal.uint) (rest : jsstring) :
  closes rest -> read_uint (uint_units d ++ rest) = (d, rest).
Proof.
  intros Hrest. induction d; cbn [uint_units app read_uint];
    try (rewrite IHd; reflexivity).
  destruct rest as [|c r]; [done|].
  cbn. destruct Hrest as [->|[->| ->]]; reflexivity.
Qed.

Lemma uint_units_head (d : Decimal.uint) :
  d <> Decimal.Nil ->
  exists c r, uint_units d = c :: r /\ is_digit c = true.
Proof. destruct d; [done|..]; intros _; cbn; eauto. Qed.

Lemma to_uint_normal (n : N) : Decimal.unorm (N.to_uint n) = N.to_uint n.
Proof.
  rewrite <- (DecimalN.Unsigned.of_to n) at 2.
  by rewrite DecimalN.Unsigned.to_of.
Qed.

Lemma to_uint_nonnil (n : N) : N.to_uint n <> Decimal.Nil.
Proof.
  destruct n; [done|]. apply DecimalPos.Unsigned.to_uint_nonnil.
Qed.

Lemma parse_int_units (n : N) (rest : jsstring) :
  closes rest ->
  parse_int (uint_units (N.to_uint n) ++ rest) = Some (n, rest).
Proof.
  intros Hrest. unfold parse_int. rewrite read_uint_units by done.
  rewrite to_uint_normal.
  destruct (Decimal.uint_eq_dec _ _) as [_|Hne]; [|done].
  rewrite DecimalN.Unsigned.of_to.
  destruct rest as [|c r]; [done|].
  destruct Hrest as [->|[->| ->]]; reflexivity.
Qed.

(** The first code unit of a number is a minus sign or a digit. *)
Lemma number_units_head (z : Z) :
  exists c r, number_units z = c :: r /\
              ((c =? ch "-") || is_digit c) = true.
Proof.
  unfold number_units. destruct (z <? 0)%Z.
  - cbn. eauto.
  - destruct (uint_units_head _ (to_uint_nonnil (Z.abs_N z))) as (c & r & -> & Hc).
    exists c, r. rewrite Hc. split; [done|]. apply orb_true_r.
Qed.

Lemma parse_number_units (z : Z) (rest : jsstring) :
  closes rest -> parse_number (number_units z ++ rest) = Some (z, rest).
Proof.
  intros Hrest. unfold number_units.
  destruct (Z.ltb_spec z 0) as [Hz|Hz].
  - cbn [app parse_number]. replace (ch "-" =? ch "-") with true by done.
    rewrite parse_int_units by done. do 2 f_equal. lia.
  - cbn [app].
    destruct (uint_units_head _ (to_uint_nonnil (Z.abs_N z))) as (c & r & Hu & Hc).
    pose proof (parse_int_units (Z.abs_N z) rest Hrest) as Hp.
    rewrite Hu in *. cbn [app parse_number] in *.
    assert ((c =? ch "-") = false) as ->.
    { unfold is_digit in Hc. apply andb_true_iff in Hc as [H1 H2].
      apply N.leb_le in H1. apply N.eqb_neq. cbn. lia. }
    rewrite Hp. do 2 f_equal. lia.
Qed.

(** *** Strings *)

Lemma all_below_spec (n : N) (f : N -> bool) (c : N) :
  all_below n f = true -> c < n -> f c = true.
Proof.
  unfold all_below.
  enough (H : forall k b, all_from k b f = true ->
              b <= c < b + N.of_nat k -> f c = true).
  { intros Ha Hc. apply (H _ _ Ha). lia. }
  induction k as [|k IH]; intros b Hk Hb; [lia|].
  cbn in Hk. apply andb_true_iff in Hk as [Hfb Hk].
  destruct (decide (b = c)) as [->|Hne]; [done|].
  apply (IH _ Hk). lia.
Qed.

Lemma escapes_read_back : all_below 65536 escape_reads_back = true.
Proof. vm_compute. reflexivity. Qed.

Lemma parse_unicode_escape (c : N) (t : jsstring) :
  c < 65536 ->
  parse_string (unicode_escape c ++ t)
  = match parse_string t with
    | Some (str, rest) => Some (c :: str, rest)
    | None => None
    end.
Proof.
  intros Hc.
  pose proof (all_below_spec _ _ c escapes_read_back ltac:(lia)) as H.
  unfold escape_reads_back in H. unfold unicode_escape in *.
  cbn [app parse_string].
  replace (92 =? 34) with false by done.
  replace (92 =? 92) with true by done.
  replace (ch "u" =? ch "u") with true by done.
  destruct (hex4 _ _ _ _) as [u|]; [|done].
  apply N.eqb_eq in H as ->. done.
Qed.

Lemma parse_raw_unit (c : N) (t : jsstring) :
  c <> 34 -> c <> 92 -> 32 <= c ->
  parse_string (c :: t)
  = match parse_string t with
    | Some (str, rest) => Some (c :: str, rest)
    | None => None
    end.
Proof.
  intros H1 H2 H3. cbn [parse_string].
  apply N.eqb_neq in H1 as ->.
  replace (c =? 92) with false by (symmetry; by apply N.eqb_neq).
  replace (c <? 32) with false by (symmetry; apply N.ltb_ge; lia).
  done.
Qed.

Lemma parse_quote_unit (c : N) (t : jsstring) :
  parse_string (quote_unit c ++ t)
  = match parse_string t with
    | Some (str, rest) => Some (c :: str, rest)
    | None => None
    end.
Proof.
  unfold quote_unit.
  destruct (N.eqb_spec c 8) as [->|?]; [reflexivity|].
  destruct (N.eqb_spec c 9) as [->|?]; [reflexivity|].
  destruct (N.eqb_spec c 10) as [->|?]; [reflexivity|].
  destruct (N.eqb_spec c 12) as [->|?]; [reflexivity|].
  destruct (N.eqb_spec c 13) as [->|?]; [reflexivity|].
  destruct (N.eqb_spec c 34) as [->|?]; [reflexivity|].
  destruct (N.eqb_spec c 92) as [->|?]; [reflexivity|].
  destruct (_ || _) eqn:E.
  - apply parse_unicode_escape.
    unfold is_leading_surrogate, is_trailing_surrogate in E.
    repeat (apply orb_true_iff in E as [E|E]);
      [apply N.ltb_lt in E|apply andb_true_iff in E as [_ E%N.leb_le]..]; lia.
  - apply orb_false_iff in E as [E _]. apply orb_false_iff in E as [E _].
    apply N.ltb_ge in E. cbn [app]. by apply parse_raw_unit.
Qed.

Lemma parse_string_quote_body (s rest : jsstring) :
  parse_string (quote_body s ++ 34 :: rest) = Some (s, rest).
Proof.
  remember (length s) as n eqn:Hn.
  assert (Hle : (length s <= n)%nat) by lia. clear Hn.
  revert s Hle. induction n as [|n IH]; intros [|c r] Hle; cbn in Hle;
    try lia; try reflexivity.
  assert (Hr : parse_string (quote_body r ++ 34 :: rest) = Some (r, rest))
    by (apply IH; lia).
  cbn [quote_body]. destruct (is_leading_surrogate c) eqn:Hc.
  - destruct r as [|d r'].
    + rewrite parse_quote_unit. reflexivity.
    + destruct (is_trailing_surrogate d) eqn:Hd.
      * unfold is_leading_surrogate in Hc. unfold is_trailing_surrogate in Hd.
        apply andb_true_iff in Hc as [Hc1%N.leb_le Hc2%N.leb_le].
        apply andb_true_iff in Hd as [Hd1%N.leb_le Hd2%N.leb_le].
        cbn [app]. rewrite !parse_raw_unit by lia.
        rewrite IH by (cbn in Hle; lia). reflexivity.
      * rewrite <- app_assoc, parse_quote_unit, Hr. reflexivity.
  - rewrite <- app_assoc, parse_quote_unit, Hr. reflexivity.
Qed.

(** A quoted string reads back. *)
Lemma parse_string_quote (s rest : jsstring) :
  exists t, quote s ++ rest = 34 :: t /\ parse_string t = Some (s, rest).
Proof.
  exists (quote_body s ++ 34 :: rest). split.
  - unfold quote. cbn. by rewrite <- app_assoc.
  - apply parse_string_quote_body.
Qed.

(** *** Objects *)

Lemma obj_set_fresh (k : jsstring) (v : value) (l : list (jsstring * value)) :
  k ∉ fst <$> l -> obj_set k v l = l ++ [(k, v)].
Proof.
  induction l as [|[k' v'] l IH]; cbn; [done|].
  intros Hk. apply not_elem_of_cons in Hk as [Hne Hk].
  rewrite decide_False by done. by rewrite IH.
Qed.

Lemma obj_of_members_NoDup (ms : list (jsstring * value)) :
  NoDup (fst <$> ms) -> obj_of_members ms = ms.
Proof.
  unfold obj_of_members.
  enough (H : forall acc, NoDup (fst <$> (acc ++ ms)) ->
              foldl (fun acc m => obj_set (fst m) (snd m) acc) acc ms = acc ++ ms)
    by (intros Hnd; by apply (H [])).
  induction ms as [|[k v] ms IH]; intros acc Hnd; cbn.
  - by rewrite app_nil_r.
  - rewrite obj_set_fresh.
    + rewrite IH; rewrite <- app_assoc; done.
    + rewrite fmap_app in Hnd. apply NoDup_app in Hnd as (_ & Hd & _).
      intros Hin. apply (Hd k Hin). cbn. left.
Qed.

(** *** Values *)

Lemma stringify_Arr_cons (x : value) (l : list value) :
  stringify (Arr (x :: l)) = ch "[" :: stringify x ++ stringify_elements l.
Proof.
reflexivity. Qed.

Lemma stringify_Obj_cons (k : jsstring) (x : value) (l : list (jsstring * value)) :
  stringify (Obj ((k, x) :: l))
  = ch "{" :: quote k ++ ch ":" :: stringify x ++ stringify_members l.
Proof.
reflexivity. Qed.

Lemma wf_Arr (l : list value) : wf (Arr l) <-> Forall wf l.
Proof.
  cbn. induction l as [|x l IH]; cbn.
  - split; [constructor|done].
  - rewrite Forall_cons, IH. done.
Qed.

Lemma wf_Obj (l : list (jsstring * value)) :
  wf (Obj l) <-> NoDup (fst <$> l) /\ Forall (fun m => wf (snd m)) l.
Proof.
  cbn. apply and_iff_compat_l.
  induction l as [|m l IH]; cbn.
  - split; [constructor|done].
  - rewrite Forall_cons, IH. done.
Qed.

(** A value starts with a code unit that opens a value. *)
Lemma stringify_head (v : value) :
  exists c r, stringify v = c :: r /\ starts_value c = true.
Proof.
  destruct v as [|[|]|z|s|[|x l]|[|[k x] l]];
    try (eexists _, _; split; [reflexivity|reflexivity]).
  destruct (number_units_head z) as (c & r & Hz & Hc).
  exists c, r. split; [done|]. unfold starts_value.
  apply orb_true_iff in Hc as [->| ->];
    rewrite ?orb_true_r; reflexivity.
Qed.

Lemma starts_value_cases (c : N) :
  starts_value c = true ->
  is_space c = false /\ (c =? ch "]") = false /\ (c =? ch "}") = false.
Proof.
  unfold starts_value, is_digit. intros H.
  repeat (apply orb_true_iff in H as [H|H]);
    try (apply N.eqb_eq in H as ->; by repeat split).
  apply andb_true_iff in H as [H1%N.leb_le H2%N.leb_le].
  unfold is_space. repeat split;
    repeat (apply orb_false_iff; split); apply N.eqb_neq; cbn; lia.
Qed.

Lemma skip_ws_value (v : value) (rest : jsstring) :
  exists c r, stringify v ++ rest = c :: r /\
              skip_ws (c :: r) = c :: r /\
              (c =? ch "]") = false /\ (c =? ch "}") = false.
Proof.
  destruct (stringify_head v) as (c & r & Hv & Hc).
  apply starts_value_cases in Hc as (Hs & H1 & H2).
  exists c, (r ++ rest). rewrite Hv. cbn [app skip_ws]. by rewrite Hs.
Qed.

Lemma closes_elements (l : list value) (rest : jsstring) :
  closes (stringify_elements l ++ rest).
Proof. destruct l; cbn; auto. Qed.

Lemma closes_members (l : list (jsstring * value)) (rest : jsstring) :
  closes (stringify_members l ++ rest).
Proof. destruct l as [|[k x] l]; cbn; auto. Qed.

Section Readers.

Context (pv : jsstring -> option (value * jsstring))
        (pe : jsstring -> option (list value * jsstring))
        (pm : jsstring -> option (list (jsstring * value) * jsstring)).

Lemma read_elements_comma (t : jsstring) :
  read_elements pv pe (ch "," :: t)
  = match pv t with
    | Some (v, r1) =>
        match pe r1 with
        | Some (vs, r2) => Some (v :: vs, r2)
        | None => None
        end
    | None => None
    end.
Proof. reflexivity. Qed.

Lemma read_elements_close (t : jsstring) :
  read_elements pv pe (ch "]" :: t) = Some ([], t).
Proof. reflexivity. Qed.

Lemma read_members_comma (t : jsstring) :
  read_members pv pm (ch "," :: t)
  = match parse_member pv t with
    | Some (m, r1) =>
        match pm r1 with
        | Some (ms, r2) => Some (m :: ms, r2)
        | None => None
        end
    | None => None
    end.
Proof. reflexivity. Qed.

Lemma read_members_close (t : jsstring) :
  read_members pv pm (ch "}" :: t) = Some ([], t).
Proof. reflexivity. Qed.

Lemma read_value_array (c : N) (r : jsstring) :
  skip_ws (c :: r) = c :: r -> (c =? ch "]") = false ->
  read_value pv pe pm (ch "[" :: c :: r)
  = match pv (c :: r) with
    | Some (v, r2) =>
        match pe r2 with
        | Some (vs, r3) => Some (Arr (v :: vs), r3)
        | None => None
        end
    | None => None
    end.
Proof.
  intros Hs Hc. unfold read_value.
  change (skip_ws (ch "[" :: c :: r)) with (ch "[" :: c :: r).
  change (ch "[" =? ch "{") with false.
  change (ch "[" =? ch "[") with true. cbv iota.
  by rewrite Hs, Hc.
Qed.

Lemma read_value_object (t : jsstring) :
  read_value pv pe pm (ch "{" :: 34 :: t)
  = match parse_member pv (34 :: t) with
    | Some (m, r2) =>
        match pm r2 with
        | Some (ms, r3) => Some (Obj (obj_of_members (m :: ms)), r3)
        | None => None
        end
    | None => None
    end.
Proof. reflexivity. Qed.

Lemma read_value_string (t : jsstring) :
  read_value pv pe pm (34 :: t)
  = match parse_string t with
    | Some (str, r1) => Some (Str str, r1)
    | None => None
    end.
Proof. reflexivity. Qed.

Lemma read_value_number (c : N) (r : jsstring) :
  ((c =? ch "-") || is_digit c) = true ->
  read_value pv pe pm (c :: r)
  = match parse_number (c :: r) with
    | Some (z, r1) => Some (Num z, r1)
    | None => None
    end.
Proof.
  intros Hc. unfold read_value.
  assert (Hv : starts_value c = true).
  { unfold starts_value. apply orb_true_iff in Hc as [->| ->];
      rewrite ?orb_true_r; reflexivity. }
  apply starts_value_cases in Hv as (Hs & _ & _).
  cbn [skip_ws]. rewrite Hs, Hc.
  unfold is_digit in Hc.
  assert ((c =? ch "{") = false /\ (c =? ch "[") = false /\ (c =? 34) = false)
    as (-> & -> & ->); [|done].
  apply orb_true_iff in Hc as [Hc|Hc].
  - apply N.eqb_eq in Hc as ->. done.
  - apply andb_true_iff in Hc as [H1%N.leb_le H2%N.leb_le].
    repeat split; apply N.eqb_neq; cbn; lia.
Qed.

Lemma parse_member_quote (k : jsstring) (x : value) (rest : jsstring) :
  pv (stringify x ++ rest) = Some (x, rest) ->
  parse_member pv (quote k ++ ch ":" :: stringify x ++ rest)
  = Some ((k, x), rest).
Proof.
  intros Hx. destruct (parse_string_quote k (ch ":" :: stringify x ++ rest))
    as (t & -> & Ht).
  unfold parse_member.
  change (skip_ws (34 :: t)) with (34 :: t).
  change (34 =? 34) with true. cbv iota. rewrite Ht.
  change (skip_ws (ch ":" :: stringify x ++ rest))
    with (ch ":" :: stringify x ++ rest).
  change (ch ":" =? ch ":") with true. cbv iota. by rewrite Hx.
Qed.

End Readers.

Lemma elements_read_back (l : list value) (rest : jsstring) :
  Forall reads_back l -> Forall wf l -> closes rest ->
  forall F, (length (stringify_elements l) <= F)%nat ->
    parse_elements F (stringify_elements l ++ rest) = Some (l, rest).
Proof.
  intros Hl Hwf Hrest. induction Hl as [|y l Hy Hl IH]; intros [|f] HF;
    cbn [stringify_elements length] in HF; try lia.
  - reflexivity.
  - apply Forall_cons in Hwf as [Hwy Hwl].
    rewrite length_app in HF.
    cbn [parse_elements stringify_elements app].
    rewrite read_elements_comma, <- app_assoc.
    rewrite Hy; [|lia|apply closes_elements|done].
    rewrite IH; [done|done|lia].
Qed.

Lemma members_read_back (l : list (jsstring * value)) (rest : jsstring) :
  Forall (fun m => reads_back (snd m)) l -> Forall (fun m => wf (snd m)) l ->
  closes rest ->
  forall F, (length (stringify_members l) <= F)%nat ->
    parse_members F (stringify_members l ++ rest) = Some (l, rest).
Proof.
  intros Hl Hwf Hrest. induction Hl as [|[k y] l Hy Hl IH]; intros [|f] HF;
    cbn [stringify_members length] in HF; try lia.
  - reflexivity.
  - apply Forall_cons in Hwf as [Hwy Hwl]. cbn [snd] in *.
    rewrite !length_app in HF. cbn [length] in HF. rewrite length_app in HF.
    cbn [parse_members stringify_members app].
    rewrite read_members_comma.
    replace ((quote k ++ ch ":" :: stringify y ++ stringify_members l) ++ rest)
      with (quote k ++ ch ":" :: stringify y ++ stringify_members l ++ rest)
      by (by rewrite <- !app_assoc, <- app_comm_cons, <- app_assoc).
    rewrite parse_member_quote;
      [|apply Hy; [lia|apply closes_members|done]].
    rewrite IH; [done|done|lia].
Qed.

(** The text of a value without repeated keys reads back as the
    value. *)
Lemma value_reads_back (v : value) : reads_back v.
Proof.
  induction v as [|b|z|s|l IH|l IH] using value_ind;
    intros rest F HF Hrest Hwf.
  all: destruct F as [|f];
    [match type of HF with
     | (length (stringify ?v) <= 0)%nat =>
         destruct (stringify_head v) as (? & ? & E & _);
         rewrite E in HF; cbn [length] in HF; lia
     end|].
  - reflexivity.
  - destruct b; reflexivity.
  - destruct (number_units_head z) as (c & r & E & Hc).
    cbn [stringify parse_value].
    pose proof (parse_number_units z rest Hrest) as Hp.
    rewrite E in *. cbn [app] in *.
    by rewrite read_value_number, Hp.
  - destruct (parse_string_quote s rest) as (t & E & Ht).
    cbn [stringify parse_value]. rewrite E.
    by rewrite read_value_string, Ht.
  - destruct l as [|x l]; [reflexivity|].
    apply wf_Arr in Hwf. apply Forall_cons in Hwf as [Hwx Hwl].
    apply Forall_cons in IH as [Hx Hl].
    rewrite stringify_Arr_cons in *. cbn [length] in HF.
    rewrite length_app in HF.
    cbn [parse_value app]. rewrite <- app_assoc.
    destruct (skip_ws_value x (stringify_elements l ++ rest))
      as (c & r & E & Hs & Hc & _).
    pose proof (Hx (stringify_elements l ++ rest) f ltac:(lia)
                  (closes_elements l rest) Hwx) as Hpx.
    rewrite E in *. rewrite read_value_array, Hpx by done.
    by rewrite elements_read_back by (done || lia).
  - destruct l as [|[k x] l]; [reflexivity|].
    apply wf_Obj in Hwf as [Hnd Hwf].
    apply Forall_cons in Hwf as [Hwx Hwl].
    apply Forall_cons in IH as [Hx Hl]. cbn [snd] in *.
    rewrite stringify_Obj_cons in *. cbn [length] in HF.
    rewrite !length_app in HF. cbn [length] in HF. rewrite length_app in HF.
    cbn [parse_value app].
    replace ((quote k ++ ch ":" :: stringify x ++ stringify_members l) ++ rest)
      with (quote k ++ ch ":" :: stringify x ++ stringify_members l ++ rest)
      by (by rewrite <- !app_assoc, <- app_comm_cons, <- app_assoc).
    pose proof (parse_member_quote (parse_value f) k x
                  (stringify_members l ++ rest)
                  (Hx _ f ltac:(lia) (closes_members l rest) Hwx)) as Hm.
    unfold quote in Hm |- *. cbn [app] in Hm |- *.
    rewrite read_value_object, Hm.
    rewrite members_read_back by (done || lia).
    by rewrite obj_of_members_NoDup.
Qed.

(** [JSON.parse (JSON.stringify v)] is [v]. *)
Lemma parse_stringify (v : value) : wf v -> parse (stringify v) = Some v.
Proof.
  intros Hwf. unfold parse.
  pose proof (value_reads_back v [] (S (length (stringify v)))
                ltac:(lia) I Hwf) as H.
  rewrite app_nil_r in H. by rewrite H.
Qed.

End JsonFacts.

(** ** Persistence *)

Section PersistenceFacts.

Import Json Persistence.

Lemma as_nullable_nullable (o : option jsstring) :
  as_nullable (nullable o) = Some o.
Proof. by destruct o. Qed.

Lemma as_task_status_name (s : TaskStatus) :
  as_task_status (Str (task_status_name s)) = Some s.
Proof. by destruct s. Qed.

Lemma as_project_status_name (s : ProjectStatus) :
  as_project_status (Str (project_status_name s)) = Some s.
Proof. by destruct s. Qed.

Lemma as_schedule_value (o : option Bucket) :
  as_schedule (schedule_value o) = Some o.
Proof. by destruct o as [[]|]. Qed.

(** Reads the properties of a row's object, then the values. *)
Ltac read_row :=
  unfold field;
  repeat match goal with
  | |- context [obj_get (js ?k) ?l] =>
      let r := eval cbv -[nullable schedule_value task_status_name
                          project_status_name] in (obj_get (js k) l) in
      change (obj_get (js k) l) with r
  end;
  repeat first
    [ rewrite as_nullable_nullable
    | rewrite as_task_status_name
    | rewrite as_project_status_name
    | rewrite as_schedule_value
    | progress cbn [mbind option_bind as_string as_number] ];
  reflexivity.

Lemma Heading_round_trip (h : Heading.Row) :
  Heading_of_json (Heading_to_json h) = Some h.
Proof. destruct h. unfold Heading_of_json, Heading_to_json. read_row. Qed.

Lemma Area_round_trip (a : Area.Row) : Area_of_json (Area_to_json a) = Some a.
Proof. destruct a. unfold Area_of_json, Area_to_json. read_row. Qed.

Lemma Project_round_trip (p : Project.Row) :
  Project_of_json (Project_to_json p) = Some p.
Proof. destruct p. unfold Project_of_json, Project_to_json. read_row. Qed.

Lemma Task_round_trip (t : Task.Row) : Task_of_json (Task_to_json t) = Some t.
Proof. destruct t. unfold Task_of_json, Task_to_json. read_row. Qed.

Lemma wf_nullable (o : option jsstring) : wf (nullable o).
Proof. by destruct o. Qed.

Lemma wf_schedule_value (o : option Bucket) : wf (schedule_value o).
Proof. by destruct o. Qed.

(** The keys of a row's object are distinct. *)
Ltac wf_row :=
  apply wf_Obj; split;
  [ apply (bool_decide_unpack _); vm_compute; reflexivity
  | repeat first [apply Forall_nil_2 | apply Forall_cons_2]; cbn [snd];
    first [apply wf_nullable | apply wf_schedule_value | exact I] ].

Lemma wf_Task (t : Task.Row) : wf (Task_to_json t).
Proof. wf_row. Qed.

Lemma wf_Project (p : Project.Row) : wf (Project_to_json p).
Proof. wf_row. Qed.

Lemma wf_Area (a : Area.Row) : wf (Area_to_json a).
Proof. wf_row. Qed.

Lemma wf_Heading (h : Heading.Row) : wf (Heading_to_json h).
Proof. wf_row. Qed.

(** A collection reads back from its text when each row does. *)
Lemma parseRows_stringifyRows {A} (to_json : A -> value)
    (of_json : value -> option A) (rows : list A) :
  (forall x, of_json (to_json x) = Some x) ->
  (forall x, wf (to_json x)) ->
  parseRows of_json (stringifyRows to_json rows) = Some rows.
Proof.
  intros Hrt Hwf. unfold parseRows, stringifyRows.
  rewrite parse_stringify.
  - apply mapM_Some. induction rows as [|x rows IH]; cbn; constructor; auto.
  - apply wf_Arr. induction rows as [|x rows IH]; cbn; constructor; auto.
Qed.

(** The text of a collection is not the empty string. *)
Lemma stringifyRows_truthy {A} (to_json : A -> value) (rows : list A) :
  truthy (stringifyRows to_json rows) = true.
Proof.
  unfold stringifyRows.
  by destruct (stringify_head (Arr (to_json <$> rows))) as (c & r & -> & _).
Qed.

Lemma restore_saved {A} (to_json : A -> value) (of_json : value -> option A)
    (rows : list A) (set : list A -> AppState -> AppState) (st : AppState) :
  (forall x, of_json (to_json x) = Some x) ->
  (forall x, wf (to_json x)) ->
  restore of_json (Some (stringifyRows to_json rows)) set st = Some (set rows st).
Proof.
  intros Hrt Hwf. unfold restore.
  by rewrite stringifyRows_truthy, parseRows_stringifyRows.
Qed.

(** What the four slots hold once the save effects have run. *)
Lemma saveAll_slots (st : AppState) (ls : Storage) :
  isLoaded st = true ->
  getItem TASKS_KEY (saveAll st ls)
    = Some (stringifyRows Task_to_json (tasks st)) /\
  getItem PROJECTS_KEY (saveAll st ls)
    = Some (stringifyRows Project_to_json (projects st)) /\
  getItem AREAS_KEY (saveAll st ls)
    = Some (stringifyRows Area_to_json (areas st)) /\
  getItem HEADINGS_KEY (saveAll st ls)
    = Some (stringifyRows Heading_to_json (headings st)).
Proof.
  intros Hl. unfold saveAll, saveTasks, saveProjects, saveAreas, saveHeadings,
    getItem, setItem. rewrite Hl.
  repeat split;
    repeat first
      [ apply lookup_insert_eq
      | rewrite lookup_insert_ne by (intros E; vm_compute in E; discriminate E) ].
Qed.

(** C8. The text of a collection of tasks, projects, areas or headings
    reads back as the same collection, row by row and field by field;
    and a first render over the storage the save effects have written
    loads the four collections of the state that was saved, leaving
    the storage as it is. *)
Theorem storage_round_trip :
  (forall rows, parseRows Task_of_json (stringifyRows Task_to_json rows) = Some rows) /\
  (forall rows, parseRows Project_of_json (stringifyRows Project_to_json rows) = Some rows) /\
  (forall rows, parseRows Area_of_json (stringifyRows Area_to_json rows) = Some rows) /\
  (forall rows, parseRows Heading_of_json (stringifyRows Heading_to_json rows) = Some rows) /\
  (forall seedTasks seedProjects st ls,
     isLoaded st = true ->
     exists st',
       loadEffect seedTasks seedProjects (saveAll st ls) initialState
         = Some (st', saveAll st ls) /\
       tasks st' = tasks st /\ projects st' = projects st /\
       areas st' = areas st /\ headings st' = headings st /\
       isLoaded st' = true).
Proof.
  repeat match goal with |- _ /\ _ => split end.
  - intros. apply parseRows_stringifyRows; auto using Task_round_trip, wf_Task.
  - intros. apply parseRows_stringifyRows; auto using Project_round_trip, wf_Project.
  - intros. apply parseRows_stringifyRows; auto using Area_round_trip, wf_Area.
  - intros. apply parseRows_stringifyRows; auto using Heading_round_trip, wf_Heading.
  - intros seedTasks seedProjects st ls Hl.
    destruct (saveAll_slots st ls Hl) as (HT & HP & HA & HH).
    unfold loadEffect. rewrite HT, HP, HA, HH. cbn [truthy_opt].
    rewrite !stringifyRows_truthy. unfold FORCE_RESEED. cbn [negb andb orb].
    rewrite (restore_saved Task_to_json) by auto using Task_round_trip, wf_Task.
    cbn [mbind option_bind].
    rewrite (restore_saved Project_to_json)
      by auto using Project_round_trip, wf_Project.
    cbn [mbind option_bind].
    rewrite (restore_saved Area_to_json) by auto using Area_round_trip, wf_Area.
    cbn [mbind option_bind].
    rewrite (restore_saved Heading_to_json)
      by auto using Heading_round_trip, wf_Heading.
    cbn [mbind option_bind].
    eexists. split; [reflexivity|]. by cbn.
Qed.

(** C8 on a state with two tasks, two projects, an area and two
    headings, saved to an empty storage. *)
Lemma storage_round_trip_witness :
  exists st',
    loadEffect [] [] (saveAll Samples.st1 ∅) initialState
      = Some (st', saveAll Samples.st1 ∅) /\
    tasks st' = tasks Samples.st1 /\ projects st' = projects Samples.st1 /\
    areas st' = areas Samples.st1 /\ headings st' = headings Samples.st1 /\
    isLoaded st' = true.
Proof.
  destruct storage_round_trip as (_ & _ & _ & _ & H).
  apply (H [] [] Samples.st1 ∅). reflexivity.
Defined.

End PersistenceFacts.

(** ** Forms and their guards *)

Section FormFacts.

Import Handlers Forms Props Effects.

Lemma trimStart_blank (s : jsstring) : trimStart s = [] <-> blank s.
Proof.
  unfold blank. induction s as [|c s IH]; cbn.
  - split; [constructor|done].
  - destruct (isWhiteSpace c) eqn:Hc.
    + rewrite IH. split; [by constructor|]. by intros [_ ?]%Forall_cons.
    + split; [done|]. intros [? _]%Forall_cons. congruence.
Qed.

Lemma trimStart_head (s : jsstring) (c : N) (r : jsstring) :
  trimStart s = c :: r -> isWhiteSpace c = false.
Proof.
  induction s as [|d s IH]; cbn; [done|].
  destruct (isWhiteSpace d) eqn:Hd; [done|]. congruence.
Qed.

Lemma trimStart_not_blank (s : jsstring) :
  trimStart s <> [] -> ~ blank (trimStart s).
Proof.
  destruct (trimStart s) as [|c r] eqn:Hs; [done|].
  intros _ [Hc _]%Forall_cons.
  apply trimStart_head in Hs. congruence.
Qed.

Lemma blank_rev (l : jsstring) : blank (rev l) -> blank l.
Proof.
  unfold blank. intros H. apply Forall_rev in H. by rewrite rev_involutive in H.
Qed.

Lemma truthy_false (l : jsstring) : truthy l = false <-> l = [].
Proof. by destruct l. Qed.

Lemma rev_nil_inv (l : jsstring) : rev l = [] -> l = [].
Proof.
  intros H. apply (f_equal (@rev N)) in H. by rewrite rev_involutive in H.
Qed.

(** [trim] returns the empty string exactly on blank strings. *)
Lemma trim_blank (s : jsstring) : truthy (trim s) = false <-> blank s.
Proof.
  unfold trim, trimEnd. rewrite truthy_false. split.
  - intros H%rev_nil_inv%trimStart_blank%blank_rev.
    apply trimStart_blank.
    destruct (decide (trimStart s = [])) as [|Hne]; [done|].
    by apply trimStart_not_blank in Hne.
  - intros H%trimStart_blank. by rewrite H.
Qed.











(** The detail modal has no such guard as the forms that create: task
    [t1] saved with an emptied title carries the empty title. *)
Example detail_modal_saves_blank_title :
  Task.title <$>
    tasks (TaskDetailModal.handleSave Samples.t1
             (TaskDetailModal.mkForm [] [] (Some Today) [] [] (js "p1"))
             (js "2024-03-01T10:00:00.000Z") Samples.st1)
  = [[]; js "Buy milk"].
Proof. reflexivity. Qed.

(** The scenario of the specification: a task titled [Buy milk],
    created in the today view of an empty collection, is active,
    scheduled for today and at position 0; ticked off, it is completed
    with a completion time, leaves the today view and shows in the
    logbook. A blank title creates nothing. *)
Example buy_milk_scenario :
  (exists t,
     tasks Samples.st_milk = [t] /\
     Task.title t = js "Buy milk" /\ Task.schedule t = Some Today /\
     Task.status t = Active /\ Task.position t = 0%Z /\
     Views.inView (js "today") t = true) /\
  (exists t,
     tasks Samples.st_milk_done = [t] /\
     Task.status t = Completed /\
     Task.completed_at t = Some (js "2024-03-02T08:00:00.000Z") /\
     Views.inView (js "today") t = false /\
     Views.filteredTasks IsoDate.getTime Samples.st_milk_done = [t]) /\
  submitTask Samples.starEmoji (js "   ") [] [] (js "u2")
    (js "2024-03-01T10:00:00.000Z") (js "2024-03-01T10:00:00.001Z")
    Samples.st_empty = Samples.st_empty.
Proof.
  split; [|split].
  - eexists. split; [vm_compute; reflexivity|]. by vm_compute.
  - eexists. split; [vm_compute; reflexivity|]. by vm_compute.
  - by vm_compute.
Qed.

End FormFacts.

(** ** Views *)

Section MoreViewFacts.

Import JsArray Props.

(** A comparator that never sorts an element after another leaves the
    array as it is. *)
Lemma sort_all_ties {A} (comparefn : A -> A -> number) (l : list A) :
  (forall x y, (SortCompare comparefn x y <= 0)%Z) -> sort comparefn l = l.
Proof.
  intros Hties. induction l as [|x l IH]; [done|].
  cbn [sort]. rewrite IH. destruct l as [|y l]; [done|].
  cbn [insert]. by rewrite (proj2 (Z.leb_le _ _) (Hties x y)).
Qed.

Lemma startsWith_app (p s : jsstring) : startsWith p (p ++ s) = true.
Proof.
  induction p as [|c p IH]; [done|]. cbn. by rewrite N.eqb_refl, IH.
Qed.

Lemma replace_unfold (pat rep s : jsstring) :
  replace pat rep s
  = if startsWith pat s then rep ++ drop (length pat) s
    else match s with
         | [] => []
         | c :: r => c :: replace pat rep r
         end.
Proof. by destruct s. Qed.

Lemma replace_prefix (p s : jsstring) : replace p [] (p ++ s) = s.
Proof.
  rewrite replace_unfold, startsWith_app. cbn [app]. apply drop_app_length.
Qed.

(** The view of a project names the project: [currentProjectId] reads
    back the id [projectView] was built from. *)
Lemma currentProjectId_projectView (id : jsstring) (st : AppState) :
  currentProjectId (setActiveView (projectView id) st) = Some id.
Proof.
  unfold currentProjectId, projectView. cbn [activeView setActiveView].
  by rewrite startsWith_app, replace_prefix.
Qed.

Lemma inView_project (id : jsstring) (t : Task.Row) :
  Views.inView (projectView id) t = bool_decide (Task.project_id t = Some id).
Proof.
  unfold Views.inView, projectView. by rewrite startsWith_app, replace_prefix.
Qed.

Lemma inView_bucket (b : Bucket) (t : Task.Row) :
  Views.inView (bucket_name b) t
  = match b with
    | Evening => false
    | _ => bool_decide (Task.schedule t = Some b)
           && bool_decide (Task.status t <> Completed)
    end.
Proof. by destruct b. Qed.

Lemma compareInView_other (Date_getTime : jsstring -> number) (view : jsstring)
    (a b : Task.Row) :
  view <> js "logbook" ->
  SortCompare (Views.compareInView Date_getTime view) a b = 0%Z.
Proof.
  intros Hv. unfold SortCompare, Views.compareInView.
  by rewrite bool_decide_eq_false_2.
Qed.

(** Outside the logbook the view is the filtered collection, in the
    order of the collection. *)
Lemma filteredTasks_other (Date_getTime : jsstring -> number) (st : AppState) :
  activeView st <> js "logbook" ->
  Views.filteredTasks Date_getTime st
  = List.filter (Views.inView (activeView st)) (tasks st).
Proof.
  intros Hv. unfold Views.filteredTasks. apply sort_all_ties.
  intros x y. by rewrite compareInView_other.
Qed.

Lemma filter_never {B} (l : list B) : List.filter (fun _ => false) l = [].
Proof. by induction l. Qed.

Lemma filteredTasks_bucket (Date_getTime : jsstring -> number) (b : Bucket)
    (st : AppState) :
  Views.filteredTasks Date_getTime (setActiveView (bucket_name b) st)
  = match b with
    | Evening => []
    | _ => filter (fun t => Task.schedule t = Some b /\ Task.status t <> Completed)
             (tasks st)
    end.
Proof.
  rewrite filteredTasks_other by (by destruct b).
  cbn [activeView tasks setActiveView].
  destruct b; try apply filter_never;
    apply filter_bool_decide; intros t;
    by rewrite bool_decide_and.
Qed.

(** X1. A bucket view holds the tasks of the bucket that are not
    completed, in the order of the collection; the string [evening],
    which is a schedule and no view, shows nothing. *)
Theorem bucket_view_contents (Date_getTime : jsstring -> number) (b : Bucket)
    (st : AppState) :
  Views.filteredTasks Date_getTime (setActiveView (bucket_name b) st)
  = match b with
    | Evening => []
    | _ => filter (fun t => Task.schedule t = Some b /\ Task.status t <> Completed)
             (tasks st)
    end.
Proof.
  rewrite filteredTasks_other by (by destruct b).
  cbn [activeView tasks setActiveView].
  destruct b; try apply filter_never;
    apply filter_bool_decide; intros t;
    by rewrite bool_decide_and.
Qed.

Lemma filteredTasks_project (Date_getTime : jsstring -> number)
    (id : jsstring) (st : AppState) :
  let st' := setActiveView (projectView id) st in
  Views.filteredTasks Date_getTime st'
    = filter (fun t => Task.project_id t = Some id) (tasks st) /\
  (id <> [] ->
   Home.projectHeadings st'
     = filter (fun h => Heading.project_id h = id) (headings st)) /\
  (id = [] -> Home.projectHeadings st' = []).
Proof.
  cbv zeta. split; [|split].
  - rewrite filteredTasks_other.
    + cbn [activeView tasks setActiveView].
      apply filter_bool_decide. intros t. apply inView_project.
    + cbn [activeView setActiveView]. unfold projectView.
      intros E. vm_compute in E. destruct id; discriminate E.
  - intros Hid. unfold Home.projectHeadings.
    rewrite currentProjectId_projectView. by destruct id.
  - intros ->. unfold Home.projectHeadings.
    by rewrite currentProjectId_projectView.
Qed.

(** X2. A project view holds every task of the project, completed or
    not, in the order of the collection, and the headings of the
    project. *)
Theorem project_view_contents (Date_getTime : jsstring -> number)
    (id : jsstring) (st : AppState) :
  let st' := setActiveView (projectView id) st in
  Views.filteredTasks Date_getTime st'
    = filter (fun t => Task.project_id t = Some id) (tasks st) /\
  (id <> [] ->
   Home.projectHeadings st'
     = filter (fun h => Heading.project_id h = id) (headings st)) /\
  (id = [] -> Home.projectHeadings st' = []).
Proof.
  cbv zeta. split; [|split].
  - rewrite filteredTasks_other.
    + cbn [activeView tasks setActiveView].
      apply filter_bool_decide. intros t. apply inView_project.
    + cbn [activeView setActiveView]. unfold projectView.
      intros E. vm_compute in E. destruct id; discriminate E.
  - intros Hid. unfold Home.projectHeadings.
    rewrite currentProjectId_projectView. by destruct id.
  - intros ->. unfold Home.projectHeadings.
    by rewrite currentProjectId_projectView.
Qed.

(** X3. A task shows in at most one of the six fixed views, and in none
    of them exactly when it is not completed and its schedule is null or
    [evening]. *)
Theorem fixed_views_disjoint (t : Task.Row) :
  (forall v w, v ∈ Home.navIds -> w ∈ Home.navIds ->
     Views.inView v t = true -> Views.inView w t = true -> v = w) /\
  ((forall v, v ∈ Home.navIds -> Views.inView v t = false) <->
   Task.status t <> Completed /\
   (Task.schedule t = None \/ Task.schedule t = Some Evening)).
Proof.
  assert (Hnav : forall v, v ∈ Home.navIds <->
            v = js "today" \/ v = js "this_week" \/ v = js "next_week" \/
            v = js "anytime" \/ v = js "someday" \/ v = js "logbook").
  { intros v. unfold Home.navIds. rewrite !elem_of_cons, elem_of_nil. tauto. }
  destruct t as [i u p h ti e n s sc sd d po c up co].
  split.
  - intros v w Hv%Hnav Hw%Hnav.
    destruct Hv as [->|[->|[->|[->|[->| ->]]]]],
             Hw as [->|[->|[->|[->|[->| ->]]]]];
      try reflexivity;
      destruct sc as [[]|], s; vm_compute; intros; discriminate.
  - split.
    + intros H.
      pose proof (H (js "today") ltac:(apply Hnav; tauto)) as H1.
      pose proof (H (js "this_week") ltac:(apply Hnav; tauto)) as H2.
      pose proof (H (js "next_week") ltac:(apply Hnav; tauto)) as H3.
      pose proof (H (js "anytime") ltac:(apply Hnav; tauto)) as H4.
      pose proof (H (js "someday") ltac:(apply Hnav; tauto)) as H5.
      pose proof (H (js "logbook") ltac:(apply Hnav; tauto)) as H6.
      cbn [Task.status Task.schedule].
      destruct sc as [[]|], s; vm_compute in H1, H2, H3, H4, H5, H6;
        try discriminate; split; (discriminate || tauto).
    + cbn [Task.status Task.schedule]. intros [Hs Hsc] v Hv%Hnav.
      destruct Hv as [->|[->|[->|[->|[->| ->]]]]];
        destruct Hsc as [->| ->]; destruct s; try done.
Qed.

End MoreViewFacts.

(** ** Handlers and views together *)

Section HandlerViewFacts.

Import JsArray Handlers Props.

Variable Date_getTime : jsstring -> number.

Lemma List_filter_app {B} (f : B -> bool) (l k : list B) :
  List.filter f (l ++ k) = List.filter f l ++ List.filter f k.
Proof. induction l as [|x l IH]; cbn; [done|]. rewrite IH. by destruct (f x). Qed.

(** X4. Ticking a task off takes it out of every bucket view and into
    the logbook; re-opening it takes it out of the logbook and back
    into the view of its bucket. *)
Theorem toggle_moves_between_views (taskId now : jsstring) (st : AppState) :
  Forall (fun t => Task.id t = taskId ->
            Views.inView (js "logbook") t = true /\
            forall b, Views.inView (bucket_name b) t = false)
    (tasks (handleToggleTask taskId true now st)) /\
  Forall (fun t => Task.id t = taskId ->
            Views.inView (js "logbook") t = false /\
            forall b, b <> Evening -> Task.schedule t = Some b ->
                      Views.inView (bucket_name b) t = true)
    (tasks (handleToggleTask taskId false now st)).
Proof.
  split; cbn [tasks handleToggleTask setTasks]; apply Forall_fmap, Forall_forall;
    intros t _; unfold compose, toggleTask;
    destruct (decide (Task.id t = taskId)) as [Heq|Hne]; try done;
    intros _; (split; [done|]).
  - intros b. rewrite inView_bucket. destruct b; try done.
    all: by rewrite andb_false_r.
  - intros b Hb Hs. rewrite inView_bucket. cbn in Hs |- *.
    destruct b; try done; by rewrite Hs.
Qed.

Lemma filter_fmap_l {B C} (P : C -> Prop) `{forall x, Decision (P x)}
    (f : B -> C) (l : list B) :
  filter P (f <$> l) = f <$> filter (fun x => P (f x)) l.
Proof.
  induction l as [|x l IH]; [done|].
  cbn [fmap list_fmap]. rewrite !filter_cons, IH. by case_decide.
Qed.

Lemma filter_none {B} (P : B -> Prop) `{forall x, Decision (P x)} (l : list B) :
  Forall (fun x => ~ P x) l -> filter P l = [].
Proof.
  induction 1 as [|x l Hx Hl IH]; [done|].
  by rewrite filter_cons, decide_False.
Qed.

Lemma length_filter_split {B} (P : B -> Prop) `{forall x, Decision (P x)}
    (l : list B) :
  length l = (length (filter (fun x => ~ P x) l) + length (filter P l))%nat.
Proof.
  induction l as [|x l IH]; [done|].
  rewrite !filter_cons. destruct (decide (P x)) as [Hp|Hp].
  - rewrite decide_False by tauto. cbn. lia.
  - rewrite decide_True by done. cbn. lia.
Qed.

(** What "move all to next week" does to a collection, whatever the
    clock reads. *)
Lemma snoozeAll_ids (clock : nat -> jsstring) (k : nat) (l : list Task.Row) :
  Task.id <$> snoozeAll clock k l = Task.id <$> l.
Proof.
  revert k. induction l as [|t l IH]; intros k; [done|].
  cbn [snoozeAll]. case_decide; cbn; by rewrite IH.
Qed.

Lemma snoozeAll_Forall (Q : Task.Row -> Prop) (clock : nat -> jsstring)
    (k : nat) (l : list Task.Row) :
  (forall now t, Q t -> Q (snoozeTask now t)) ->
  Forall Q l -> Forall Q (snoozeAll clock k l).
Proof.
  intros HQ Hl. revert k. induction Hl as [|t l Ht Hl IH]; intros k; [done|].
  cbn [snoozeAll]. case_decide; constructor; auto.
Qed.

Lemma snoozeAll_completed (clock : nat -> jsstring) (k : nat) (l : list Task.Row) :
  filter (fun t => Task.status t = Completed) (snoozeAll clock k l)
  = filter (fun t => Task.status t = Completed) l.
Proof.
  revert k. induction l as [|t l IH]; intros k; [done|].
  cbn [snoozeAll]. case_decide as Hc; rewrite !filter_cons, IH; [|done].
  cbn. destruct Hc as [_ Hc]. by rewrite !decide_False.
Qed.

Lemma snoozeAll_this_week (clock : nat -> jsstring) (k : nat) (l : list Task.Row) :
  filter (fun t => Task.schedule t = Some ThisWeek /\ Task.status t <> Completed)
    (snoozeAll clock k l) = [].
Proof.
  revert k. induction l as [|t l IH]; intros k; [done|].
  cbn [snoozeAll]. case_decide as Hc; rewrite filter_cons, IH.
  - rewrite decide_False; [done|]. cbn. by intros [? _].
  - by rewrite decide_False.
Qed.

Lemma snoozeAll_next_week (clock : nat -> jsstring) (k : nat) (l : list Task.Row) :
  Task.id <$> filter (fun t => Task.schedule t = Some NextWeek /\
                               Task.status t <> Completed) (snoozeAll clock k l)
  = Task.id <$> filter (fun t => (Task.schedule t = Some ThisWeek \/
                                  Task.schedule t = Some NextWeek) /\
                                 Task.status t <> Completed) l.
Proof.
  revert k. induction l as [|t l IH]; intros k; [done|].
  cbn [snoozeAll]. case_decide as Hc; rewrite !filter_cons.
  - destruct Hc as [Hs Hc]. rewrite decide_True by (cbn; done).
    rewrite decide_True by tauto. cbn. by rewrite IH.
  - destruct (decide (Task.schedule t = Some NextWeek /\ Task.status t <> Completed))
      as [Hn|Hn].
    + rewrite decide_True by tauto. cbn. by rewrite IH.
    + rewrite decide_False by tauto. apply IH.
Qed.

(** X5. After "move all to next week" the this-week view is empty; the
    next-week view holds the open tasks that were scheduled for this
    week or next week, in the order of the collection; completed tasks
    of this week stay as they are, and no task is added or lost. *)
Theorem snooze_moves_this_week (clock : nat -> jsstring) (st : AppState) :
  let st' := handleSnoozeAllToNextWeek clock st in
  Views.filteredTasks Date_getTime (setActiveView (bucket_name ThisWeek) st') = [] /\
  Task.id <$> Views.filteredTasks Date_getTime
                (setActiveView (bucket_name NextWeek) st')
    = Task.id <$> filter (fun t => (Task.schedule t = Some ThisWeek \/
                                    Task.schedule t = Some NextWeek) /\
                                   Task.status t <> Completed) (tasks st) /\
  filter (fun t => Task.status t = Completed) (tasks st')
    = filter (fun t => Task.status t = Completed) (tasks st) /\
  Task.id <$> tasks st' = Task.id <$> tasks st.
Proof.
  cbv zeta. rewrite !filteredTasks_bucket.
  cbn [tasks handleSnoozeAllToNextWeek setTasks].
  repeat match goal with |- _ /\ _ => split end.
  - apply snoozeAll_this_week.
  - apply snoozeAll_next_week.
  - apply snoozeAll_completed.
  - apply snoozeAll_ids.
Qed.

(** X7. The delete dialog of a project view announces as many tasks as
    the deletion removes, and after the deletion the view of that
    project holds no task and no heading. *)
Theorem delete_dialog_count (P : jsstring) (st : AppState) :
  activeView st = projectView P ->
  let st' := handleDeleteProject P st in
  length (tasks st)
    = (length (tasks st') + Home.deleteDialogCount Date_getTime st)%nat /\
  Views.filteredTasks Date_getTime (setActiveView (projectView P) st') = [] /\
  Home.projectHeadings (setActiveView (projectView P) st') = [].
Proof.
  intros Hv. cbv zeta. unfold Home.deleteDialogCount.
  replace st with (setActiveView (projectView P) st) at 3
    by (destruct st; cbn in *; by subst).
  pose proof (filteredTasks_project Date_getTime P) as Hpv. cbv zeta in Hpv.
  rewrite (proj1 (Hpv st)), (proj1 (Hpv _)).
  assert (Ht : tasks (handleDeleteProject P st)
               = filter (fun t => Task.project_id t <> Some P) (tasks st)).
  { unfold handleDeleteProject. cbv zeta. by case_decide. }
  assert (Hh : headings (handleDeleteProject P st)
               = filter (fun h => Heading.project_id h <> P) (headings st)).
  { unfold handleDeleteProject. cbv zeta. by case_decide. }
  rewrite Ht. split; [apply length_filter_split|]. split.
  - apply filter_none, Forall_forall. intros t Hin%list_elem_of_filter. tauto.
  - destruct (decide (P = [])) as [->|Hne].
    + by apply (proj2 (proj2 (Hpv (handleDeleteProject [] st)))).
    + rewrite (proj1 (proj2 (Hpv (handleDeleteProject P st))) Hne), Hh.
      apply filter_none, Forall_forall. intros h Hin%list_elem_of_filter. tauto.
Qed.

Variable generateEmoji : jsstring -> jsstring.

(** X6. A task added while a bucket view or a project view is shown
    goes to the end of that view; a task added while the logbook is
    shown is open and does not show there. *)
Theorem added_task_shows_in_view (taskData : TaskData)
    (uuid created updated : jsstring) (st : AppState) :
  let st' := handleAddTask generateEmoji taskData uuid created updated st in
  ((exists b, b <> Evening /\ activeView st = bucket_name b) \/
   startsWith (js "project:") (activeView st) = true ->
   exists t,
     tasks st' = tasks st ++ [t] /\
     Views.filteredTasks Date_getTime st'
       = Views.filteredTasks Date_getTime st ++ [t]) /\
  (activeView st = js "logbook" ->
   Views.filteredTasks Date_getTime st' = Views.filteredTasks Date_getTime st).
Proof.
  cbv zeta. split.
  - intros Hview. eexists. split; [reflexivity|].
    assert (Hlog : activeView st <> js "logbook").
    { destruct Hview as [(b & Hb & ->)|Hp]; [by destruct b|].
      intros E. by rewrite E in Hp. }
    rewrite !filteredTasks_other by done.
    cbn [tasks activeView handleAddTask setTasks setIsAddingTask
         setAddingTaskHeadingId].
    rewrite List_filter_app. f_equal. cbn [List.filter].
    match goal with |- (if ?c then _ else _) = _ => assert (c = true) as -> end;
      [|done].
    destruct Hview as [(b & Hb & Hv)|Hp].
    + rewrite Hv. by destruct b.
    + unfold Views.inView, currentProjectId. rewrite Hp. cbn.
      by rewrite bool_decide_eq_true_2.
  - intros Hv. unfold Views.filteredTasks.
    cbn [tasks activeView handleAddTask setTasks setIsAddingTask
         setAddingTaskHeadingId].
    rewrite List_filter_app, Hv. cbn [List.filter].
    by rewrite app_nil_r.
Qed.


Lemma head_filter_app_l {B} (P : B -> Prop) `{forall x, Decision (P x)}
    (l k : list B) (x : B) :
  head (filter P l) = Some x -> head (filter P (l ++ k)) = Some x.
Proof. rewrite filter_app. by destruct (filter P l). Qed.

(** X8. A new project becomes the view, with its id read back from the
    view string. Where the id is fresh, the project shown is the new
    one, last in the collection and at the position of its index, and
    its view holds no task; where a project with that id exists already,
    the older one is shown. *)
Theorem created_project_is_shown (name : jsstring) (areaId : option jsstring)
    (uuid created updated : jsstring) (st : AppState) :
  let st' := handleCreateProject generateEmoji name areaId uuid created updated st in
  currentProjectId st' = Some uuid /\
  (Forall (fun p => Project.id p <> uuid) (projects st) ->
   exists p,
     Home.currentProject st' = Some p /\ projects st' = projects st ++ [p] /\
     Project.id p = uuid /\ Project.name p = name /\
     Project.position p = Z.of_nat (length (projects st))) /\
  (forall p0,
     head (filter (fun p => Project.id p = uuid) (projects st)) = Some p0 ->
     Home.currentProject st' = Some p0) /\
  (Forall (fun t => Task.project_id t <> Some uuid) (tasks st) ->
   Views.filteredTasks Date_getTime st' = []) /\
  tasks st' = tasks st /\ headings st' = headings st /\ areas st' = areas st.
Proof.
  cbv zeta.
  assert (Hcur : currentProjectId
            (handleCreateProject generateEmoji name areaId uuid created updated st)
            = Some uuid) by apply currentProjectId_projectView.
  split; [exact Hcur|].
  unfold Home.currentProject. rewrite Hcur.
  repeat match goal with |- _ /\ _ => split end; try done.
  - intros Hfresh. eexists. split; [|split; [reflexivity|done]].
    cbn [projects handleCreateProject setActiveView setProjects].
    rewrite filter_app, filter_none.
    + rewrite filter_cons, decide_True by done. done.
    + eapply Forall_impl; [exact Hfresh|]. intros p Hp. exact Hp.
  - intros p0 Hp0. by apply head_filter_app_l.
  - intros Hfresh.
    unfold handleCreateProject. cbv zeta.
    rewrite (proj1 (filteredTasks_project Date_getTime uuid _)).
    by apply filter_none.
Qed.

(** X9. Turning a task into a project removes every task with the id
    of that task and closes the detail modal. Where the new id is
    fresh, the project shown afterwards is the new one: it carries the
    title, notes and deadline of the task and its emoji (the generated
    one where the task has none), and its view holds no task: the
    task's schedule, status and heading are not carried over. *)
Theorem converted_task_becomes_project (task : Task.Row)
    (uuid created updated : jsstring) (st : AppState) :
  let st' := handleConvertToProject generateEmoji task uuid created updated st in
  Forall (fun t => Task.id t <> Task.id task) (tasks st') /\
  (Forall (fun p => Project.id p <> uuid) (projects st) ->
   exists p,
     Home.currentProject st' = Some p /\ projects st' = projects st ++ [p] /\
     Project.id p = uuid /\
     Project.name p = Task.title task /\ Project.notes p = Task.notes task /\
     Project.deadline p = Task.deadline task /\ Project.area_id p = None /\
     Project.status p = PActive /\
     Project.emoji p
       = Some (match Task.emoji task with
               | Some (c :: e) => c :: e
               | _ => generateEmoji (Task.title task)
               end)) /\
  (Forall (fun t => Task.project_id t <> Some uuid) (tasks st) ->
   Views.filteredTasks Date_getTime st' = []) /\
  selectedTask st' = None /\
  headings st' = headings st /\ areas st' = areas st.
Proof.
  cbv zeta.
  assert (Hcur : currentProjectId
            (handleConvertToProject generateEmoji task uuid created updated st)
            = Some uuid) by apply currentProjectId_projectView.
  repeat match goal with |- _ /\ _ => split end; try done.
  - cbn. apply Forall_forall. intros t Ht%list_elem_of_filter. tauto.
  - intros Hfresh. unfold Home.currentProject. rewrite Hcur.
    eexists. split; [|split; [reflexivity|]].
    + cbn [projects handleConvertToProject setActiveView setProjects setTasks
           setSelectedTask].
      rewrite filter_app, filter_none.
      * rewrite filter_cons, decide_True by done. done.
      * eapply Forall_impl; [exact Hfresh|]. intros p Hp. exact Hp.
    + cbn. repeat split. by destruct (Task.emoji task) as [[|c e]|].
  - intros Hfresh.
    pose proof (proj1 (filteredTasks_project Date_getTime uuid
      (setTasks (filter (fun t => Task.id t <> Task.id task) (tasks st)) st)))
      as Hft.
    cbv zeta in Hft. cbn [tasks setTasks] in Hft.
    unfold Views.filteredTasks in *.
    cbn [activeView tasks handleConvertToProject setActiveView setProjects
         setTasks setSelectedTask] in *.
    rewrite Hft. apply filter_none. apply Forall_forall.
    intros t [_ Ht]%list_elem_of_filter.
    by eapply Forall_forall in Hfresh.
Qed.

(** X10. A task dropped on a bucket of the sidebar shows in the view of
    that bucket when it is open, and in no other bucket view; it keeps
    its project, so that it still shows in the view of its project. *)
Theorem moved_task_shows_in_bucket (taskId : jsstring) (b : Bucket)
    (now : jsstring) (st : AppState) :
  b <> Evening ->
  Forall (fun t => Task.id t = taskId ->
            (Task.status t <> Completed ->
             forall b', Views.inView (bucket_name b') t = true <-> b' = b))
    (tasks (handleMoveTaskToSchedule taskId b now st)) /\
  Task.project_id <$> tasks (handleMoveTaskToSchedule taskId b now st)
    = Task.project_id <$> tasks st.
Proof.
  intros Hb. split.
  - cbn [tasks handleMoveTaskToSchedule setTasks].
    apply Forall_fmap, Forall_forall. intros t _. unfold compose, moveTaskToSchedule.
    destruct (decide (Task.id t = taskId)) as [Heq|Hne]; [|done].
    intros _ Hs b'. rewrite inView_bucket. cbn in Hs |- *.
    destruct b, b'; try done;
      rewrite ?bool_decide_eq_true_2, ?bool_decide_eq_false_2 by done; done.
  - cbn [tasks handleMoveTaskToSchedule setTasks].
    rewrite <- list_fmap_compose. apply list_fmap_ext. intros i t _. cbn.
    unfold moveTaskToSchedule. by case_decide.
Qed.

(** X29. A heading added in the view of a project comes last among
    the headings of that project, at the position of their number
    before, and is shown with them; tasks and view stay. *)
Theorem added_heading_shows_in_project (name uuid now cur : jsstring)
    (st : AppState) :
  currentProjectId st = Some cur -> cur <> [] ->
  let st' := handleAddHeading name uuid now st in
  exists h,
    Home.projectHeadings st' = Home.projectHeadings st ++ [h] /\
    headings st' = headings st ++ [h] /\
    Heading.id h = uuid /\ Heading.name h = name /\
    Heading.project_id h = cur /\
    Heading.position h = Z.of_nat (length (Home.projectHeadings st)) /\
    tasks st' = tasks st /\ activeView st' = activeView st.
Proof.
  intros Hcur Hne. cbv zeta.
  assert (Ht : truthy cur = true) by by destruct cur.
  unfold handleAddHeading, Home.projectHeadings.
  rewrite Hcur, Ht. cbv zeta.
  unfold currentProjectId in *. cbn [activeView headings setHeadings].
  rewrite Hcur, Ht. eexists. split_and!; try reflexivity.
  rewrite filter_app, filter_cons, decide_True by done. done.
Qed.

End HandlerViewFacts.

(** ** The project view: groups and sort modes *)

Section ProjectViewFacts.

Import JsArray ViewProps ProjectViewBody.

Variable Date_getTime : jsstring -> number.
Variable localeCompare : jsstring -> jsstring -> Z.

Lemma elem_of_sortTasks (sortBy : SortOption) (order : list jsstring)
    (l : list Task.Row) (t : Task.Row) :
  t ∈ ProjectView.sortTasks Date_getTime localeCompare sortBy order l <-> t ∈ l.
Proof. unfold ProjectView.sortTasks. by rewrite sort_Permutation. Qed.

Lemma elem_of_renderedActive (sortBy : SortOption) (order : list jsstring)
    (hs : list Heading.Row) (ts : list Task.Row) (t : Task.Row) :
  t ∈ renderedActive Date_getTime localeCompare sortBy order hs ts <->
  t ∈ ts /\ Task.status t <> Completed /\
  (truthy_opt (Task.heading_id t) = false \/
   exists h, h ∈ hs /\ Task.heading_id t = Some (Heading.id h)).
Proof.
  unfold renderedActive, tasksWithoutHeading, activeTasks.
  rewrite elem_of_app, elem_of_sortTasks, !list_elem_of_filter.
  assert (Hgroups :
    t ∈ concat (snd <$> tasksByHeading Date_getTime localeCompare sortBy order hs ts)
    <-> t ∈ ts /\ Task.status t <> Completed /\
        exists h, h ∈ hs /\ Task.heading_id t = Some (Heading.id h)).
  { induction hs as [|h hs' IH]; cbn.
    - split; [by intros ?%elem_of_nil|].
      by intros (_ & _ & h & ?%elem_of_nil & _).
    - rewrite elem_of_app, elem_of_sortTasks. unfold activeTasks.
      rewrite !list_elem_of_filter, IH. split.
      + intros [(Hh & Hs & Ht)|(Ht & Hs & h' & Hin & Hh)].
        * split_and!; [done..|]. exists h. split; [left|done].
        * split_and!; [done..|]. exists h'. split; [by right|done].
      + intros (Ht & Hs & h' & Hin & Hh).
        apply elem_of_cons in Hin as [->|Hin]; [by left|].
        right. split_and!; [done..|]. by exists h'. }
  rewrite Hgroups. tauto.
Qed.

Lemma active_completed_partition (ts : list Task.Row) :
  activeTasks ts ++ completedTasks ts ≡ₚ ts.
Proof.
  unfold activeTasks, completedTasks. induction ts as [|x ts IH]; [done|].
  rewrite !filter_cons.
  destruct (decide (Task.status x <> Completed)) as [Hx|Hx].
  - rewrite decide_False by done. cbn. by rewrite IH.
  - rewrite decide_True by (by destruct (decide (Task.status x = Completed))).
    rewrite <- Permutation_middle. by rewrite IH.
Qed.

(** X11. The project view splits its tasks into the open and the
    completed ones, each task in one of the two. An open task is
    rendered exactly when it has no heading or its heading is one of
    the project's headings: an open task whose [heading_id] names no
    heading of the project is rendered in no group. *)
Theorem rendered_groups (sortBy : SortOption) (order : list jsstring)
    (hs : list Heading.Row) (ts : list Task.Row) (t : Task.Row) :
  (t ∈ renderedActive Date_getTime localeCompare sortBy order hs ts <->
   t ∈ ts /\ Task.status t <> Completed /\
   (truthy_opt (Task.heading_id t) = false \/
    exists h, h ∈ hs /\ Task.heading_id t = Some (Heading.id h))) /\
  activeTasks ts ++ completedTasks ts ≡ₚ ts.
Proof.
  split; [|apply active_completed_partition].
  unfold renderedActive, tasksWithoutHeading, activeTasks.
  rewrite elem_of_app, elem_of_sortTasks, !list_elem_of_filter.
  assert (Hgroups :
    t ∈ concat (snd <$> tasksByHeading Date_getTime localeCompare sortBy order hs ts)
    <-> t ∈ ts /\ Task.status t <> Completed /\
        exists h, h ∈ hs /\ Task.heading_id t = Some (Heading.id h)).
  { induction hs as [|h hs' IH]; cbn.
    - split; [by intros ?%elem_of_nil|].
      by intros (_ & _ & h & ?%elem_of_nil & _).
    - rewrite elem_of_app, elem_of_sortTasks. unfold activeTasks.
      rewrite !list_elem_of_filter, IH. split.
      + intros [(Hh & Hs & Ht)|(Ht & Hs & h' & Hin & Hh)].
        * split_and!; [done..|]. exists h. split; [left|done].
        * split_and!; [done..|]. exists h'. split; [by right|done].
      + intros (Ht & Hs & h' & Hin & Hh).
        apply elem_of_cons in Hin as [->|Hin]; [by left|].
        right. split_and!; [done..|]. by exists h'. }
  rewrite Hgroups. tauto.
Qed.

Lemma indexOf_ge {B} `{EqDecision B} (x : B) (l : list B) :
  (-1 <= indexOf x l)%Z.
Proof.
  induction l as [|y l IH]; cbn; [lia|].
  destruct (decide (y = x)); [lia|].
  destruct (Z.eqb_spec (indexOf x l) (-1)); lia.
Qed.

Lemma indexOf_absent {B} `{EqDecision B} (x : B) (l : list B) :
  indexOf x l = (-1)%Z <-> x ∉ l.
Proof.
  induction l as [|y l IH]; cbn.
  - split; [intros _; apply not_elem_of_nil|done].
  - rewrite not_elem_of_cons. destruct (decide (y = x)) as [->|Hne].
    + split; [lia|]. by intros [? _].
    + pose proof (indexOf_ge x l).
      destruct (Z.eqb_spec (indexOf x l) (-1)) as [He|He].
      * split; [|done]. intros _. split; [done|]. by apply IH.
      * split; [lia|]. intros [_ Hx]. apply IH in Hx. lia.
Qed.

Lemma manual_before_trans (order : list jsstring) (a b c : Task.Row) :
  manual_before order a b -> manual_before order b c -> manual_before order a c.
Proof. unfold manual_before. cbv zeta. lia. Qed.

Lemma compare_manual (order : list jsstring) (a b : Task.Row) :
  ((SortCompare (ProjectView.compareTasks Date_getTime localeCompare Manual order) a b <= 0)%Z
   -> manual_before order a b) /\
  ((0 < SortCompare (ProjectView.compareTasks Date_getTime localeCompare Manual order) a b)%Z
   -> manual_before order b a).
Proof.
  unfold SortCompare, ProjectView.compareTasks, manual_before. cbv zeta.
  destruct (Z.eqb_spec (indexOf (Task.id a) order) (-1)),
           (Z.eqb_spec (indexOf (Task.id b) order) (-1)); cbn; lia.
Qed.

Lemma sortTasks_manual_order (order : list jsstring) (l : list Task.Row) :
  let sorted := ProjectView.sortTasks Date_getTime localeCompare Manual order l in
  sorted ≡ₚ l /\
  StronglySorted (manual_before order) sorted /\
  filter (fun t => Task.id t ∉ order) sorted = filter (fun t => Task.id t ∉ order) l.
Proof.
  cbv zeta. unfold ProjectView.sortTasks. split_and!.
  - apply sort_Permutation.
  - apply (sort_StronglySorted _ (fun _ => True)).
    + intros x y _ _. apply compare_manual.
    + intros x y _ _. apply compare_manual.
    + apply manual_before_trans.
    + by apply Forall_forall.
  - apply sort_stable. intros x y Hx%indexOf_absent Hy%indexOf_absent.
    unfold SortCompare, ProjectView.compareTasks. cbv zeta.
    rewrite Hx, Hy. cbn. lia.
Qed.

(** X12. In manual mode the sorted tasks are the given tasks in the
    manual order: a task of the order stands before every later task
    of the order and before every task that is not in the order; the
    tasks that are not in the order come last, in the order they had. *)
Theorem sortTasks_manual (order : list jsstring) (l : list Task.Row) :
  let sorted := ProjectView.sortTasks Date_getTime localeCompare Manual order l in
  sorted ≡ₚ l /\
  StronglySorted (manual_before order) sorted /\
  filter (fun t => Task.id t ∉ order) sorted = filter (fun t => Task.id t ∉ order) l.
Proof.
  cbv zeta. unfold ProjectView.sortTasks. split_and!.
  - apply sort_Permutation.
  - apply (sort_StronglySorted _ (fun _ => True)).
    + intros x y _ _. apply compare_manual.
    + intros x y _ _. apply compare_manual.
    + apply manual_before_trans.
    + by apply Forall_forall.
  - apply sort_stable. intros x y Hx%indexOf_absent Hy%indexOf_absent.
    unfold SortCompare, ProjectView.compareTasks. cbv zeta.
    rewrite Hx, Hy. cbn. lia.
Qed.

(** X13. In schedule mode the tasks are sorted by the priority of
    their bucket (today, this week, next week, anytime, someday, then
    the evening bucket and no bucket together), and the tasks of one
    bucket keep the order they had. *)
Theorem sortTasks_schedule (order : list jsstring) (l : list Task.Row) :
  let sorted := ProjectView.sortTasks Date_getTime localeCompare Schedule order l in
  sorted ≡ₚ l /\
  StronglySorted schedule_before sorted /\
  forall s, filter (fun t => Task.schedule t = s) sorted
            = filter (fun t => Task.schedule t = s) l.
Proof.
  cbv zeta. unfold ProjectView.sortTasks. split_and!.
  - apply sort_Permutation.
  - apply (sort_StronglySorted _ (fun _ => True)).
    + intros x y _ _. unfold SortCompare, schedule_before. cbn. lia.
    + intros x y _ _. unfold SortCompare, schedule_before. cbn. lia.
    + unfold schedule_before. intros x y z. lia.
    + by apply Forall_forall.
  - intros s. apply sort_stable. intros x y Hx Hy.
    unfold SortCompare, ProjectView.compareTasks. rewrite Hx, Hy. lia.
Qed.

Lemma created_after_trans (a b c : Task.Row) :
  created_after Date_getTime a b -> created_after Date_getTime b c ->
  created_after Date_getTime a c.
Proof.
  unfold created_after.
  destruct (Date_getTime (Task.created_at a)), (Date_getTime (Task.created_at b)),
    (Date_getTime (Task.created_at c)); try done. lia.
Qed.

(** X14. In created mode tasks whose creation stamps are dates are
    sorted newest first. *)
Theorem sortTasks_created (order : list jsstring) (l : list Task.Row) :
  Forall (created_at_is_date Date_getTime) l ->
  let sorted := ProjectView.sortTasks Date_getTime localeCompare Created order l in
  sorted ≡ₚ l /\ StronglySorted (created_after Date_getTime) sorted.
Proof.
  intros Hl. cbv zeta. unfold ProjectView.sortTasks. split.
  - apply sort_Permutation.
  - apply (sort_StronglySorted _ (created_at_is_date Date_getTime)); [..|done].
    + intros x y [tx Hx] [ty Hy].
      unfold SortCompare, created_after. cbn. rewrite Hx, Hy. cbn. lia.
    + intros x y [tx Hx] [ty Hy].
      unfold SortCompare, created_after. cbn. rewrite Hx, Hy. cbn. lia.
    + apply created_after_trans.
Qed.

End ProjectViewFacts.

(** ** Reordering: the manual order, the task positions, the sidebar *)

Section ReorderFacts.

Import JsArray ViewProps ProjectViewBody.

Lemma filter_all {B} (P : B -> Prop) `{forall x, Decision (P x)} (l : list B) :
  Forall P l -> filter P l = l.
Proof.
  induction 1 as [|x l Hx Hl IH]; [done|].
  by rewrite filter_cons, decide_True, IH.
Qed.

Lemma StronglySorted_impl_in {B} (R R' : B -> B -> Prop) (l : list B) :
  (forall x y, x ∈ l -> y ∈ l -> R x y -> R' x y) ->
  StronglySorted R l -> StronglySorted R' l.
Proof.
  intros HR Hs. induction Hs as [|x l Hs IH Hx]; constructor.
  - apply IH. intros a b Ha Hb. apply HR; by right.
  - apply Forall_forall. intros y Hy. apply HR; [left|by right|].
    by eapply Forall_forall in Hx.
Qed.

(** An array that is in comparator order is left as it is. *)
Lemma sort_sorted {B} (comparefn : B -> B -> number) (l : list B) :
  StronglySorted (fun x y => (SortCompare comparefn x y <= 0)%Z) l ->
  sort comparefn l = l.
Proof.
  induction 1 as [|x l Hs IH Hx]; [done|].
  cbn [sort]. rewrite IH. destruct Hx as [|y l Hy _]; [done|].
  cbn [insert]. by rewrite (proj2 (Z.leb_le _ _) Hy).
Qed.

Lemma imap_position_sorted {B} (setp : Z -> B -> B) (pos : B -> Z)
    (l : list B) (k : nat) :
  (forall i b, pos (setp i b) = i) ->
  StronglySorted (fun a b => (pos a <= pos b)%Z)
    (imap (fun i b => setp (Z.of_nat (k + i)) b) l) /\
  Forall (fun b => (Z.of_nat k <= pos b)%Z)
    (imap (fun i b => setp (Z.of_nat (k + i)) b) l).
Proof.
  intros Hpos. revert k. induction l as [|x l IH]; intros k.
  - split; constructor.
  - rewrite imap_cons.
    rewrite (imap_ext _ (fun i b => setp (Z.of_nat (S k + i)) b))
      by (intros i b _; cbn; f_equal; lia).
    destruct (IH (S k)) as [Hs Hf]. split.
    + constructor; [done|]. eapply Forall_impl; [exact Hf|].
      intros b Hb. cbn beta in *. rewrite Hpos. lia.
    + constructor; [rewrite Hpos; lia|].
      eapply Forall_impl; [exact Hf|]. intros b Hb. cbn beta in *. lia.
Qed.

Lemma elem_of_imap_inv {B} (f : nat -> B -> B) (l : list B) (y : B) :
  y ∈ imap f l -> exists i x, y = f i x /\ x ∈ l.
Proof.
  revert f. induction l as [|x l IH]; intros f; [by intros ?%elem_of_nil|].
  rewrite imap_cons. intros [->|Hy]%elem_of_cons.
  - exists 0%nat, x. split; [done|left].
  - apply IH in Hy as (i & x' & -> & Hx'). exists (S i), x'. split; [done|by right].
Qed.

Lemma fmap_imap_const {B C} (g : B -> C) (f : nat -> B -> B) (l : list B) :
  (forall i x, g (f i x) = g x) -> g <$> imap f l = g <$> l.
Proof.
  intros Hg. revert f Hg. induction l as [|x l IH]; intros f Hg; [done|].
  rewrite imap_cons. cbn. rewrite Hg. f_equal. apply IH. intros i y. apply Hg.
Qed.

(** X15. Dragging the standalone projects of the sidebar into a new
    order makes the sidebar list them in exactly that order afterwards,
    with the positions 0, 1, 2, ... *)
Theorem sidebar_reorder_round_trip (reorderedProjects : list Project.Row)
    (st : AppState) :
  reorderedProjects ≡ₚ Sidebar.standaloneProjects (projects st) ->
  Sidebar.standaloneProjects
    (projects (Sidebar.handleReorder reorderedProjects st))
  = imap (fun index p => Project_with_position (Z.of_nat index) p)
      reorderedProjects.
Proof.
  intros Hperm.
  set (updated := imap (fun index p => Project_with_position (Z.of_nat index) p)
                    reorderedProjects).
  assert (Hstandalone : forall p, p ∈ reorderedProjects <->
            p ∈ projects st /\ Project.status p <> PCompleted /\
            truthy_opt (Project.area_id p) = false).
  { intros p. rewrite Hperm. unfold Sidebar.standaloneProjects, Sidebar.activeProjects.
    rewrite sort_Permutation, !list_elem_of_filter. tauto. }
  assert (Hids : Project.id <$> updated = Project.id <$> reorderedProjects).
  { by apply fmap_imap_const. }
  unfold Sidebar.handleReorder, Handlers.handleReorderProjects. cbv zeta.
  fold updated. cbn [projects setProjects].
  unfold Sidebar.standaloneProjects, Sidebar.activeProjects.
  rewrite !filter_app.
  rewrite (filter_all _ updated), (filter_all _ updated).
  - rewrite (filter_none (fun p => truthy_opt (Project.area_id p) = false)).
    + rewrite app_nil_r. apply sort_sorted.
      destruct (imap_position_sorted Project_with_position Project.position
                  reorderedProjects 0) as [Hs _]; [done|].
      eapply StronglySorted_impl_in; [|exact Hs].
      intros a b _ _ Hab. unfold SortCompare. cbn beta in *. lia.
    + apply Forall_forall. intros p [Hact [Hother Hp]%list_elem_of_filter]%list_elem_of_filter
        Harea.
      apply Hother. rewrite elem_of_list_to_set, Hids.
      apply list_elem_of_fmap. exists p. split; [done|]. by apply Hstandalone.
  - apply Forall_forall. intros q (i & p & -> & Hp)%elem_of_imap_inv.
    by apply Hstandalone in Hp as (_ & _ & ?).
  - apply Forall_forall. intros q (i & p & -> & Hp)%elem_of_imap_inv.
    by apply Hstandalone in Hp as (_ & ? & _).
Qed.

Lemma reorderLocal_shape (newOrder prev : list jsstring) :
  exists i,
    reorderLocal newOrder prev
    = filter (fun id => id ∉ newOrder) (take i prev) ++ newOrder
      ++ filter (fun id => id ∉ newOrder) (drop i prev).
Proof.
  assert (Hf : forall l : list jsstring,
            filter (fun id => id ∉ (list_to_set newOrder : gset jsstring)) l
            = filter (fun id => id ∉ newOrder) l).
  { intros l. apply list_filter_iff. intros x. by rewrite elem_of_list_to_set. }
  unfold reorderLocal. cbv zeta. destruct (findIndex _ prev) as [i|].
  - exists i. by rewrite !Hf.
  - exists (length prev). by rewrite Hf, firstn_all, drop_all, app_nil_r.
Qed.

Lemma reorderLocal_keeps_ids (newOrder prev : list jsstring) :
  filter (fun id => id ∈ newOrder) (reorderLocal newOrder prev) = newOrder /\
  filter (fun id => id ∉ newOrder) (reorderLocal newOrder prev)
  = filter (fun id => id ∉ newOrder) prev /\
  (NoDup newOrder -> NoDup prev -> newOrder ⊆ prev ->
   reorderLocal newOrder prev ≡ₚ prev).
Proof.
  destruct (reorderLocal_shape newOrder prev) as [i ->].
  assert (Hin : filter (fun id => id ∈ newOrder)
                  (filter (fun id => id ∉ newOrder) (take i prev) ++ newOrder
                   ++ filter (fun id => id ∉ newOrder) (drop i prev)) = newOrder).
  { rewrite !filter_app.
    rewrite (filter_none (fun id => id ∈ newOrder) (filter _ (take i prev))),
      (filter_none (fun id => id ∈ newOrder) (filter _ (drop i prev))),
      app_nil_r.
    - apply filter_all. by apply Forall_forall.
    - apply Forall_forall. by intros x [? _]%list_elem_of_filter.
    - apply Forall_forall. by intros x [? _]%list_elem_of_filter. }
  assert (Hout : filter (fun id => id ∉ newOrder)
                  (filter (fun id => id ∉ newOrder) (take i prev) ++ newOrder
                   ++ filter (fun id => id ∉ newOrder) (drop i prev))
                 = filter (fun id => id ∉ newOrder) prev).
  { rewrite !filter_app.
    rewrite (filter_none (fun id => id ∉ newOrder) newOrder).
    - rewrite (filter_all _ (filter _ (take i prev))),
        (filter_all _ (filter _ (drop i prev))).
      + by rewrite app_nil_l, <- filter_app, take_drop.
      + apply Forall_forall. by intros x [? _]%list_elem_of_filter.
      + apply Forall_forall. by intros x [? _]%list_elem_of_filter.
    - apply Forall_forall. intros x Hx Hn. by apply Hn. }
  split_and!; [done..|].
  intros Hnew Hprev Hsub.
  rewrite (Permutation_app_comm newOrder), app_assoc, <- filter_app, take_drop.
  rewrite <- (filter_app_complement (fun id => id ∈ newOrder) prev) at 2.
  rewrite (Permutation_app_comm (filter (fun id => id ∈ newOrder) prev)).
  apply Permutation_app; [done|].
  apply NoDup_Permutation; [done|by apply NoDup_filter|].
  intros x. rewrite list_elem_of_filter. specialize (Hsub x). tauto.
Qed.

(** X16. A reorder in the project view does nothing outside manual
    mode. In manual mode the manual order afterwards lists the
    reordered ids in the order given and the other ids in the order
    they had; when the reordered ids are ids of the order, none twice,
    no id is lost or doubled. The collection is handed the reordered
    tasks with the positions 0, 1, 2, ... *)
Theorem handleTaskReorder_order (reorderedTasks : list Task.Row)
    (order : list jsstring) (st : AppState) :
  let ids := Task.id <$> reorderedTasks in
  let after := handleTaskReorder Manual reorderedTasks (order, st) in
  (forall sortBy, sortBy <> Manual ->
     handleTaskReorder sortBy reorderedTasks (order, st) = (order, st)) /\
  filter (fun id => id ∈ ids) (fst after) = ids /\
  filter (fun id => id ∉ ids) (fst after) = filter (fun id => id ∉ ids) order /\
  (NoDup ids -> NoDup order -> ids ⊆ order -> fst after ≡ₚ order) /\
  snd after
  = Handlers.handleReorderTasks
      (imap (fun index t => Task_with_position (Z.of_nat index) t)
         reorderedTasks) st.
Proof.
  cbv zeta. split_and!.
  - intros sortBy Hs. by destruct sortBy.
  - apply reorderLocal_keeps_ids.
  - apply reorderLocal_keeps_ids.
  - apply reorderLocal_keeps_ids.
  - done.
Qed.

Lemma NoDup_fmap_filter {B C} (f : B -> C) (P : B -> Prop)
    `{forall x, Decision (P x)} (l : list B) :
  NoDup (f <$> l) -> NoDup (f <$> filter P l).
Proof.
  induction l as [|x l IH]; [done|].
  cbn [fmap list_fmap]. intros [Hx Hl]%NoDup_cons.
  rewrite filter_cons. case_decide; [|by apply IH].
  cbn [fmap list_fmap]. apply NoDup_cons. split; [|by apply IH].
  intros (y & Hy & [_ Hin]%list_elem_of_filter)%list_elem_of_fmap.
  apply Hx. apply list_elem_of_fmap. by exists y.
Qed.

Lemma NoDup_fmap_inj_in {B C} (f : B -> C) (l : list B) (x y : B) :
  NoDup (f <$> l) -> x ∈ l -> y ∈ l -> f x = f y -> x = y.
Proof.
  induction l as [|z l IH]; [by intros _ ?%elem_of_nil|].
  cbn [fmap list_fmap]. intros [Hz Hl]%NoDup_cons.
  intros [->|Hx]%elem_of_cons [->|Hy]%elem_of_cons Hf; [done|..].
  - exfalso. apply Hz. apply list_elem_of_fmap. by exists y.
  - exfalso. apply Hz. apply list_elem_of_fmap. by exists x.
  - by apply IH.
Qed.

(** X17. A reorder of tasks of the collection keeps the ids of the
    collection: no task is lost and none is doubled, and the tasks
    outside the reordered ones keep their order. *)
Theorem handleReorderTasks_keeps_ids (reorderedTasks : list Task.Row)
    (st : AppState) :
  NoDup (Task.id <$> tasks st) ->
  NoDup (Task.id <$> reorderedTasks) ->
  (Task.id <$> reorderedTasks) ⊆ (Task.id <$> tasks st) ->
  let st' := Handlers.handleReorderTasks reorderedTasks st in
  (Task.id <$> tasks st') ≡ₚ (Task.id <$> tasks st) /\
  NoDup (Task.id <$> tasks st') /\
  filter (fun t => Task.id t ∉ Task.id <$> reorderedTasks) (tasks st')
  = filter (fun t => Task.id t ∉ Task.id <$> reorderedTasks) (tasks st).
Proof.
  intros Hst Hre Hsub. cbv zeta.
  unfold Handlers.handleReorderTasks. cbv zeta. cbn [tasks setTasks].
  assert (Hf : filter (fun t => Task.id t ∉
                 (list_to_set (Task.id <$> reorderedTasks) : gset jsstring)) (tasks st)
               = filter (fun t => Task.id t ∉ Task.id <$> reorderedTasks) (tasks st)).
  { apply list_filter_iff. intros x. by rewrite elem_of_list_to_set. }
  rewrite Hf.
  assert (Hperm : (Task.id <$> filter (fun t => Task.id t ∉ Task.id <$> reorderedTasks)
                     (tasks st) ++ reorderedTasks) ≡ₚ (Task.id <$> tasks st)).
  { rewrite fmap_app.
    rewrite <- (filter_app_complement (fun t => Task.id t ∈ Task.id <$> reorderedTasks)
                  (tasks st)) at 2.
    rewrite fmap_app, (Permutation_app_comm (Task.id <$> filter
      (fun t => Task.id t ∈ Task.id <$> reorderedTasks) (tasks st))).
    apply Permutation_app; [done|].
    apply NoDup_Permutation; [done|by apply NoDup_fmap_filter|].
    intros x. rewrite !list_elem_of_fmap. split.
    - intros Hx. assert (Hx' : x ∈ Task.id <$> reorderedTasks)
        by by apply list_elem_of_fmap.
      apply Hsub in Hx' as (t & -> & Ht)%list_elem_of_fmap.
      exists t. split; [done|]. apply list_elem_of_filter. split; [|done].
      by apply list_elem_of_fmap.
    - intros (t & -> & [Ht _]%list_elem_of_filter).
      apply list_elem_of_fmap in Ht as (t' & Hid & Ht'). by exists t'. }
  split_and!.
  - done.
  - by rewrite Hperm.
  - rewrite filter_app, (filter_none _ reorderedTasks).
    + rewrite app_nil_r. apply filter_all.
      apply Forall_forall. by intros x [? _]%list_elem_of_filter.
    + apply Forall_forall. intros x Hx Hn. apply Hn.
      apply list_elem_of_fmap. by exists x.
Qed.

Lemma indexOf_lookup {B} `{EqDecision B} (x : B) (l : list B) :
  indexOf x l <> (-1)%Z -> l !! Z.to_nat (indexOf x l) = Some x.
Proof.
  induction l as [|y l IH]; cbn; [done|].
  destruct (decide (y = x)) as [->|Hne]; [done|].
  pose proof (indexOf_ge x l).
  destruct (Z.eqb_spec (indexOf x l) (-1)) as [He|He]; [done|].
  intros _. replace (Z.to_nat (indexOf x l + 1)) with (S (Z.to_nat (indexOf x l)))
    by lia.
  by apply IH.
Qed.

Lemma StronglySorted_lookup_lt {B} (R : B -> B -> Prop) (l : list B)
    (i j : nat) (a b : B) :
  StronglySorted R l -> l !! i = Some a -> l !! j = Some b -> (i < j)%nat ->
  R a b.
Proof.
  intros Hs. revert i j. induction Hs as [|x l Hs IH Hx]; intros i j; [done|].
  destruct i as [|i], j as [|j]; cbn; try lia.
  - intros [= ->] Hb _. eapply Forall_forall; [exact Hx|].
    by eapply list_elem_of_lookup_2.
  - intros Ha Hb Hij. eapply IH; [done..|lia].
Qed.

Variable Date_getTime : jsstring -> number.
Variable localeCompare : jsstring -> jsstring -> Z.

Lemma manual_synced_by_position (ts l : list Task.Row) :
  NoDup (Task.id <$> ts) -> l ⊆ activeTasks ts ->
  StronglySorted position_before
    (ProjectView.sortTasks Date_getTime localeCompare Manual
       (syncLocalTaskOrder ts) l).
Proof.
  intros Hnd Hsub.
  set (S := sort (fun a b => Some (Task.position a - Task.position b)%Z)
              (activeTasks ts)).
  assert (HS : StronglySorted position_before S).
  { apply (sort_StronglySorted _ (fun _ => True)).
    - intros x y _ _. unfold SortCompare, position_before. lia.
    - intros x y _ _. unfold SortCompare, position_before. lia.
    - unfold position_before. intros x y z. lia.
    - by apply Forall_forall. }
  assert (HndS : NoDup (Task.id <$> S)).
  { unfold S. rewrite sort_Permutation. by apply NoDup_fmap_filter. }
  assert (Hidx : forall x, x ∈ S ->
            indexOf (Task.id x) (Task.id <$> S) <> (-1)%Z /\
            S !! Z.to_nat (indexOf (Task.id x) (Task.id <$> S)) = Some x).
  { intros x Hx.
    assert (Hne : indexOf (Task.id x) (Task.id <$> S) <> (-1)%Z).
    { intros He%indexOf_absent. apply He. apply list_elem_of_fmap. by exists x. }
    split; [done|]. apply indexOf_lookup in Hne.
    rewrite list_lookup_fmap in Hne.
    destruct (S !! Z.to_nat _) as [x'|] eqn:Hl; [|done].
    injection Hne as Hid. f_equal.
    eapply (NoDup_fmap_inj_in Task.id S); [done| |done|done].
    by eapply list_elem_of_lookup_2. }
  destruct (sortTasks_manual_order Date_getTime localeCompare (syncLocalTaskOrder ts) l)
    as (Hperm & Hsorted & _).
  eapply StronglySorted_impl_in; [|exact Hsorted].
  intros x y Hx Hy Hxy.
  assert (HxS : x ∈ S).
  { unfold S. rewrite sort_Permutation. apply Hsub. by rewrite <- Hperm. }
  assert (HyS : y ∈ S).
  { unfold S. rewrite sort_Permutation. apply Hsub. by rewrite <- Hperm. }
  destruct (Hidx x HxS) as [Hnx Hlx], (Hidx y HyS) as [Hny Hly].
  unfold manual_before, syncLocalTaskOrder in Hxy. cbv zeta in Hxy. fold S in Hxy.
  destruct Hxy as [?|[_ Hle]]; [done|].
  pose proof (indexOf_ge (Task.id x) (Task.id <$> S)).
  pose proof (indexOf_ge (Task.id y) (Task.id <$> S)).
  destruct (decide (indexOf (Task.id x) (Task.id <$> S)
                    = indexOf (Task.id y) (Task.id <$> S))) as [He|He].
  - rewrite He, Hly in Hlx. injection Hlx as ->. unfold position_before. lia.
  - eapply (StronglySorted_lookup_lt _ S); [done..|lia].
Qed.

(** X18. With unique task ids, once the manual order is in sync with
    the tasks, manual mode shows every group of the project view by
    stored position. *)
Theorem manual_groups_by_position (hs : list Heading.Row) (ts : list Task.Row) :
  NoDup (Task.id <$> ts) ->
  StronglySorted position_before
    (tasksWithoutHeading Date_getTime localeCompare Manual
       (syncLocalTaskOrder ts) ts) /\
  Forall (fun g => StronglySorted position_before g.2)
    (tasksByHeading Date_getTime localeCompare Manual
       (syncLocalTaskOrder ts) hs ts).
Proof.
  intros Hnd. split.
  - apply manual_synced_by_position; [done|].
    by intros x [_ ?]%list_elem_of_filter.
  - unfold tasksByHeading. apply Forall_fmap, Forall_forall. intros h _. cbn.
    apply manual_synced_by_position; [done|].
    by intros x [_ ?]%list_elem_of_filter.
Qed.

End ReorderFacts.

(** ** The search overlay and the task detail modal *)

Section OverlayFacts.

Import JsArray Handlers Props ProjectViewBody.

Variable Date_getTime : jsstring -> number.
Variable localeCompare : jsstring -> jsstring -> Z.

Lemma handleKeyDown_range (flatResults : list Task.Row)
    (key : SpotlightSearch.Key) (i : Z) :
  (0 <= i < Z.of_nat (length flatResults))%Z ->
  (0 <= fst (SpotlightSearch.handleKeyDown flatResults key i)
   < Z.of_nat (length flatResults))%Z.
Proof.
  intros Hi. destruct key; cbn; try lia.
  by destruct (SpotlightSearch.at_index flatResults i).
Qed.

Lemma pressAll_range (flatResults : list Task.Row)
    (keys : list SpotlightSearch.Key) (i : Z) :
  (0 <= i < Z.of_nat (length flatResults))%Z ->
  (0 <= SpotlightSearch.pressAll flatResults keys i
   < Z.of_nat (length flatResults))%Z.
Proof.
  revert i. induction keys as [|key keys IH]; intros i Hi; [done|].
  cbn. apply IH. by apply handleKeyDown_range.
Qed.

Lemma enter_selects_result (flatResults : list Task.Row)
    (keys : list SpotlightSearch.Key) :
  flatResults <> [] ->
  let i := SpotlightSearch.pressAll flatResults keys 0 in
  exists task,
    task ∈ flatResults /\
    SpotlightSearch.handleKeyDown flatResults SpotlightSearch.Enter i
    = (i, SpotlightSearch.Selected task (Task.project_id task)).
Proof.
  intros Hne. cbv zeta.
  assert (Hlen : (0 <= 0 < Z.of_nat (length flatResults))%Z).
  { destruct flatResults; [done|]. cbn [length]. lia. }
  pose proof (pressAll_range flatResults keys 0 Hlen) as Hr.
  set (i := SpotlightSearch.pressAll flatResults keys 0) in *.
  destruct (lookup_lt_is_Some_2 flatResults (Z.to_nat i)) as [task Ht]; [lia|].
  exists task. split; [by eapply list_elem_of_lookup_2|].
  cbn. unfold SpotlightSearch.at_index.
  destruct (Z.ltb_spec i 0) as [?|_]; [lia|]. by rewrite Ht.
Qed.

(** X19. A blank query finds nothing, and Enter then selects nothing.
    While the search has results, the selected index stays inside them
    under any run of keys from the first result, so that Enter hands
    the parent a task of the collection that matches the query, with
    its own project id. *)
Theorem search_selection_in_range (toLowerCase : jsstring -> jsstring)
    (query : jsstring) (tasks : list Task.Row)
    (keys : list SpotlightSearch.Key) :
  let flatResults := SpotlightSearch.filteredTasks toLowerCase query tasks in
  let i := SpotlightSearch.pressAll flatResults keys 0 in
  (blank query ->
   flatResults = [] /\
   snd (SpotlightSearch.handleKeyDown flatResults SpotlightSearch.Enter i)
   = SpotlightSearch.Nothing) /\
  (flatResults <> [] ->
   exists task,
     task ∈ tasks /\ SpotlightSearch.matches toLowerCase query task = true /\
     SpotlightSearch.handleKeyDown flatResults SpotlightSearch.Enter i
     = (i, SpotlightSearch.Selected task (Task.project_id task))).
Proof.
  cbv zeta. split.
  - intros Hb%trim_blank. unfold SpotlightSearch.filteredTasks. rewrite Hb.
    split; [done|]. cbn. unfold SpotlightSearch.at_index.
    destruct (_ <? 0)%Z; [done|]. by rewrite lookup_nil.
  - intros Hne.
    destruct (enter_selects_result _ keys Hne) as (task & Hin & Henter).
    exists task. split_and!; [| |done].
    + unfold SpotlightSearch.filteredTasks in Hin.
      destruct (truthy (trim query)); [|by apply elem_of_nil in Hin].
      by apply list_elem_of_In, filter_In in Hin as [?%list_elem_of_In _].
    + unfold SpotlightSearch.filteredTasks in Hin.
      destruct (truthy (trim query)); [|by apply elem_of_nil in Hin].
      by apply list_elem_of_In, filter_In in Hin as [_ ?].
Qed.

(** X20. Picking a search result closes the search and highlights the
    task without touching the collections. A result with a project
    opens that project, where it is among the tasks shown; a result
    without project that has a bucket opens the view of the bucket,
    where it shows exactly when it is not completed. *)
Theorem search_select_shows_task (task : Task.Row) (s : HomeUi.HomeState) :
  task ∈ tasks (HomeUi.app s) ->
  let s' := HomeUi.handleSearchSelect task (Task.project_id task) s in
  HomeUi.showSearch s' = false /\
  HomeUi.highlightedTaskId s' = Some (Task.id task) /\
  tasks (HomeUi.app s') = tasks (HomeUi.app s) /\
  (truthy_opt (Task.project_id task) = true ->
   task ∈ Views.filteredTasks Date_getTime (HomeUi.app s')) /\
  (truthy_opt (Task.project_id task) = false ->
   forall b, Task.schedule task = Some b -> b <> Evening ->
     (task ∈ Views.filteredTasks Date_getTime (HomeUi.app s')
      <-> Task.status task <> Completed)).
Proof.
  intros Hin. cbv zeta. unfold HomeUi.handleSearchSelect.
  destruct (truthy_opt (Task.project_id task)) eqn:Hp.
  - split_and!; try done.
    intros _. destruct (Task.project_id task) as [pid|] eqn:Hpid; [|done].
    cbn [default from_option id HomeUi.app].
    rewrite (proj1 (filteredTasks_project Date_getTime pid (HomeUi.app s))).
    by apply list_elem_of_filter.
  - split_and!; try done.
    + cbn. by destruct (Task.schedule task).
    + intros _ b Hb Hev. rewrite Hb. cbn [HomeUi.app].
      rewrite filteredTasks_bucket. destruct b; try done;
        rewrite list_elem_of_filter; tauto.
Qed.

(** The updates of the modal's buttons keep the id. *)
Lemma closeUpdates_id (status : TaskStatus) (stamp now : jsstring) (u : Task.Row) :
  Task.id (Task_with_updated_at now
             (TaskPartial.patch u (TaskDetailModal.closeUpdates status stamp)))
  = Task.id u.
Proof. done. Qed.

Lemma List_filter_fmap_ids (p : Task.Row -> bool) (f : Task.Row -> Task.Row)
    (l : list Task.Row) :
  (forall u, u ∈ l -> p (f u) = p u /\ Task.id (f u) = Task.id u) ->
  Task.id <$> List.filter p (f <$> l) = Task.id <$> List.filter p l.
Proof.
  induction l as [|x l IH]; intros Hf; [done|].
  cbn [fmap list_fmap List.filter].
  destruct (Hf x) as [Hp Hid]; [left|]. rewrite Hp.
  specialize (IH (fun u Hu => Hf u (list_elem_of_further _ _ _ Hu))).
  destruct (p x); [|done]. cbn [fmap list_fmap]. by rewrite Hid, IH.
Qed.

Lemma List_filter_fmap_same {B} (p : B -> bool) (f : B -> B) (l : list B) :
  (forall u, u ∈ l -> p (f u) = p u /\ (p u = true -> f u = u)) ->
  List.filter p (f <$> l) = List.filter p l.
Proof.
  induction l as [|x l IH]; intros Hf; [done|].
  cbn [fmap list_fmap List.filter].
  destruct (Hf x) as [Hp Hid]; [left|]. rewrite Hp.
  specialize (IH (fun u Hu => Hf u (list_elem_of_further _ _ _ Hu))).
  rewrite IH. destruct (p x); [|done]. by rewrite Hid.
Qed.

(** X21. Cancelling an open task from the detail modal changes what no
    view shows: the task stays in the bucket and project views it was
    in, and it does not enter the logbook. *)
Theorem modal_cancel_keeps_views (task : Task.Row) (stamp now : jsstring)
    (st : AppState) :
  (forall u, u ∈ tasks st -> Task.id u = Task.id task ->
             Task.status u <> Completed) ->
  let st' := TaskDetailModal.handleCancel task stamp now st in
  (forall view,
     Task.id <$> Views.filteredTasks Date_getTime (setActiveView view st')
     = Task.id <$> Views.filteredTasks Date_getTime (setActiveView view st)) /\
  Forall (fun u => Task.id u <> Task.id task)
    (Views.filteredTasks Date_getTime (setActiveView (js "logbook") st')) /\
  Forall (fun u => Task.id u = Task.id task ->
            Task.status u = Cancelled /\ Task.completed_at u = Some stamp)
    (tasks st').
Proof.
  intros Hopen. cbv zeta.
  unfold TaskDetailModal.handleCancel, handleUpdateTask.
  set (f := fun u : Task.Row =>
              if decide (Task.id u = Task.id task)
              then Task_with_updated_at now
                     (TaskPartial.patch u
                        (TaskDetailModal.closeUpdates Cancelled stamp))
              else u).
  assert (Hview : forall view u, u ∈ tasks st ->
            Views.inView view (f u) = Views.inView view u).
  { intros view u Hu. unfold f.
    destruct (decide (Task.id u = Task.id task)) as [Hid|]; [|done].
    specialize (Hopen u Hu Hid). unfold Views.inView. cbn.
    rewrite !(bool_decide_eq_true_2 (Task.status u <> Completed)) by done.
    rewrite !(bool_decide_eq_false_2 (Task.status u = Completed)) by done.
    rewrite !(bool_decide_eq_true_2 (Cancelled <> Completed)) by done.
    by rewrite !(bool_decide_eq_false_2 (Cancelled = Completed)) by done. }
  assert (Hid : forall u, Task.id (f u) = Task.id u).
  { intros u. unfold f. by destruct (decide _). }
  assert (Hlog :
    List.filter (Views.inView (js "logbook")) (f <$> tasks st)
    = List.filter (Views.inView (js "logbook")) (tasks st)).
  { apply List_filter_fmap_same. intros u Hu. split; [by apply Hview|].
    rewrite inView_logbook. intros Hc%bool_decide_eq_true.
    unfold f. destruct (decide (Task.id u = Task.id task)) as [Hi|]; [|done].
    by specialize (Hopen u Hu Hi). }
  split_and!.
  - intros view. unfold Views.filteredTasks.
    cbn [activeView tasks setActiveView setTasks setSelectedTask].
    destruct (decide (view = js "logbook")) as [->|Hv].
    + by rewrite Hlog.
    + rewrite !sort_all_ties
        by (intros x y; by rewrite compareInView_other).
      apply List_filter_fmap_ids. intros u Hu. split; [by apply Hview|done].
  - unfold Views.filteredTasks.
    cbn [activeView tasks setActiveView setTasks setSelectedTask].
    rewrite Hlog. apply Forall_forall. intros u Hu.
    rewrite sort_Permutation in Hu.
    apply list_elem_of_In, filter_In in Hu as [Hu%list_elem_of_In Hc].
    rewrite inView_logbook in Hc. apply bool_decide_eq_true in Hc.
    intros Hi. by specialize (Hopen u Hu Hi).
  - cbn [tasks setTasks setSelectedTask]. apply Forall_fmap, Forall_forall.
    intros u _. unfold compose, f.
    by destruct (decide (Task.id u = Task.id task)).
Qed.

(** X22. Completing a task from the detail modal takes it out of every
    bucket view and puts it in the logbook, completed at the time the
    modal read and updated at the time the handler read. *)
Theorem modal_complete_moves_to_logbook (task : Task.Row) (stamp now : jsstring)
    (st : AppState) :
  task ∈ tasks st ->
  let st' := TaskDetailModal.handleComplete task stamp now st in
  selectedTask st' = None /\
  (forall b,
     Forall (fun u => Task.id u <> Task.id task)
       (Views.filteredTasks Date_getTime (setActiveView (bucket_name b) st'))) /\
  exists u,
    u ∈ Views.filteredTasks Date_getTime (setActiveView (js "logbook") st') /\
    Task.id u = Task.id task /\ Task.status u = Completed /\
    Task.completed_at u = Some stamp /\ Task.updated_at u = now.
Proof.
  intros Hin. cbv zeta. split_and!.
  - done.
  - intros b. rewrite filteredTasks_bucket.
    destruct b; try apply Forall_nil_2; apply Forall_forall;
      intros u [[_ Hs] Hu]%list_elem_of_filter;
      cbn [tasks TaskDetailModal.handleComplete handleUpdateTask setTasks
           setSelectedTask] in Hu;
      apply list_elem_of_fmap in Hu as (u0 & -> & _);
      destruct (decide (Task.id u0 = Task.id task)); done.
  - exists (Task_with_updated_at now
              (TaskPartial.patch task
                 (TaskDetailModal.closeUpdates Completed stamp))).
    split; [|done].
    unfold Views.filteredTasks. rewrite sort_Permutation.
    apply list_elem_of_In, filter_In. split; [|done].
    apply list_elem_of_In.
    cbn [activeView tasks setActiveView TaskDetailModal.handleComplete
         handleUpdateTask setTasks setSelectedTask].
    apply list_elem_of_fmap. exists task. split; [|done].
    by rewrite decide_True.
Qed.

(** X23. Saving the detail modal with another project keeps the
    task's heading: the task is among the tasks of the new project,
    and when its heading is not one of that project's headings the
    project view renders it in no group, whatever the sort mode. *)
Theorem modal_save_keeps_heading (task : Task.Row) (f : TaskDetailModal.Form)
    (now h : jsstring) (sortBy : SortOption) (order : list jsstring)
    (st : AppState) :
  task ∈ tasks st ->
  TaskDetailModal.projectId f <> [] ->
  Task.heading_id task = Some h -> h <> [] ->
  (forall hd, hd ∈ headings st -> Heading.id hd = h ->
              Heading.project_id hd <> TaskDetailModal.projectId f) ->
  let st' := setActiveView (projectView (TaskDetailModal.projectId f))
               (TaskDetailModal.handleSave task f now st) in
  exists u,
    u ∈ Views.filteredTasks Date_getTime st' /\
    Task.id u = Task.id task /\ Task.heading_id u = Some h /\
    u ∉ renderedActive Date_getTime localeCompare sortBy order
          (Home.projectHeadings st') (Views.filteredTasks Date_getTime st').
Proof.
  intros Hin Hq Hh Hne Hforeign. cbv zeta.
  destruct (filteredTasks_project Date_getTime (TaskDetailModal.projectId f)
              (TaskDetailModal.handleSave task f now st)) as (Hft & Hph & _).
  cbv zeta in Hft, Hph. rewrite Hft, (Hph Hq).
  exists (Task_with_updated_at now
            (TaskPartial.patch task (TaskDetailModal.saveUpdates f))).
  assert (Hproj : or_null (Some (TaskDetailModal.projectId f))
                  = Some (TaskDetailModal.projectId f)).
  { unfold or_null. cbn. by destruct (TaskDetailModal.projectId f). }
  split_and!.
  - apply list_elem_of_filter. split; [by cbn; rewrite Hproj|].
    cbn [tasks TaskDetailModal.handleSave handleUpdateTask setTasks
         setSelectedTask].
    apply list_elem_of_fmap. exists task. split; [|done].
    by rewrite decide_True.
  - done.
  - done.
  - rewrite elem_of_renderedActive. intros (_ & _ & [Hfalse|(hd & Hhd & Heq)]).
    + cbn in Hfalse. rewrite Hh in Hfalse. cbn in Hfalse. by destruct h.
    + apply list_elem_of_filter in Hhd as [Hp Hhd].
      cbn in Heq. rewrite Hh in Heq. injection Heq as ->.
      by apply (Hforeign hd).
Qed.

Lemma or_null_or_else (o : option jsstring) :
  or_null (Some (or_else o [])) = or_null o.
Proof. by destruct o as [[|c s]|]. Qed.

(** X28. Saving the detail modal of a task without an edit keeps the
    task but for the time of the update: empty notes, dates and
    project id become null, every other field stays, and the modal
    closes. *)
Theorem modal_save_unedited (task : Task.Row) (now : jsstring) (st : AppState) :
  task ∈ tasks st ->
  let st' := TaskDetailModal.handleSave task
               (TaskDetailModal.initialForm task) now st in
  selectedTask st' = None /\
  Task.id <$> tasks st' = Task.id <$> tasks st /\
  exists u,
    u ∈ tasks st' /\
    u = {| Task.id := Task.id task;
           Task.user_id := Task.user_id task;
           Task.project_id := or_null (Task.project_id task);
           Task.heading_id := Task.heading_id task;
           Task.title := Task.title task;
           Task.emoji := Task.emoji task;
           Task.notes := or_null (Task.notes task);
           Task.status := Task.status task;
           Task.schedule := Task.schedule task;
           Task.scheduled_date := or_null (Task.scheduled_date task);
           Task.deadline := or_null (Task.deadline task);
           Task.position := Task.position task;
           Task.created_at := Task.created_at task;
           Task.updated_at := now;
           Task.completed_at := Task.completed_at task |}.
Proof.
  intros Hin. cbv zeta. split_and!.
  - done.
  - cbn [tasks TaskDetailModal.handleSave handleUpdateTask setTasks
         setSelectedTask].
    rewrite <- list_fmap_compose. apply list_fmap_ext. intros i x _. cbn.
    by destruct (decide (Task.id x = Task.id task)).
  - eexists. split.
    + cbn [tasks TaskDetailModal.handleSave handleUpdateTask setTasks
           setSelectedTask].
      apply list_elem_of_fmap. exists task. split; [|done].
      rewrite decide_True by done. reflexivity.
    + unfold Task_with_updated_at, TaskPartial.patch,
        TaskDetailModal.saveUpdates, TaskDetailModal.initialForm. cbn.
      by rewrite !or_null_or_else.
Qed.

End OverlayFacts.

(** ** What the forms hand on, and the first render *)

Section PayloadFacts.

Import Handlers Forms Props FormProps Persistence.

Lemma trimStart_length (s : jsstring) : (length (trimStart s) <= length s)%nat.
Proof.
  induction s as [|c s IH]; cbn; [done|].
  destruct (isWhiteSpace c); cbn; lia.
Qed.

Lemma trimStart_fixed (c : N) (r : jsstring) :
  trimStart (c :: r) = c :: r <-> isWhiteSpace c = false.
Proof.
  cbn. destruct (isWhiteSpace c); [|done]. split; [|done].
  intros H. pose proof (trimStart_length r) as Hl. rewrite H in Hl.
  cbn in Hl. lia.
Qed.

Lemma trimStart_idem (s : jsstring) : trimStart (trimStart s) = trimStart s.
Proof.
  induction s as [|c s IH]; cbn; [done|].
  destruct (isWhiteSpace c) eqn:Hc; [done|]. cbn. by rewrite Hc.
Qed.

Lemma trimStart_snoc (l : jsstring) (c : N) :
  isWhiteSpace c = false -> trimStart (l ++ [c]) = trimStart l ++ [c].
Proof.
  intros Hc. induction l as [|d l IH]; cbn; [by rewrite Hc|].
  by destruct (isWhiteSpace d).
Qed.

Lemma trimStart_first (s : jsstring) (c : N) (r : jsstring) :
  s = c :: r -> trimStart s = s -> isWhiteSpace c = false.
Proof. intros ->. apply trimStart_fixed. Qed.

(** What [trim] returns has no white space at either end. *)
Lemma trim_trimmed (s : jsstring) : trimmed (trim s).
Proof.
  assert (Hstart : trimStart (trim s) = trim s).
  { unfold trim, trimEnd.
    pose proof (trimStart_idem s) as Hu. destruct (trimStart s) as [|c r]; [done|].
    apply trimStart_fixed in Hu. cbn [rev].
    rewrite trimStart_snoc, rev_app_distr by done. cbn. by rewrite Hu. }
  assert (Hend : trimStart (rev (trim s)) = rev (trim s)).
  { unfold trim, trimEnd. by rewrite rev_involutive, trimStart_idem. }
  split.
  - intros c r Hs. by eapply trimStart_first.
  - intros l c Hs. rewrite Hs, rev_app_distr in Hend. cbn in Hend.
    by apply (trimStart_fixed c (rev l)).
Qed.

Lemma trimmed_trim (s : jsstring) : trimmed s -> trim s = s.
Proof.
  intros [Hh Hl]. unfold trim, trimEnd.
  assert (Hs : trimStart s = s).
  { destruct s as [|c r]; [done|]. apply trimStart_fixed. by eapply Hh. }
  rewrite Hs.
  assert (Hr : trimStart (rev s) = rev s).
  { destruct (rev s) as [|c r] eqn:Hrev; [done|]. apply trimStart_fixed.
    apply (Hl (rev r)). by rewrite <- (rev_involutive s), Hrev. }
  by rewrite Hr, rev_involutive.
Qed.

(** X24. What the task modal hands to its parent: nothing for a blank
    title; otherwise a title that is not empty and has no white space
    at either end, notes without white space at either end, and a
    deadline that is null rather than the empty string. Trimming what
    it hands on again changes nothing. *)
Theorem task_modal_payload (title notes deadline : jsstring) :
  match TaskModal_handleSubmit title notes deadline record None with
  | None => blank title
  | Some d =>
      ~ blank title /\
      data_title d <> [] /\ trimmed (data_title d) /\ trimmed (data_notes d) /\
      trim (data_title d) = data_title d /\ trim (data_notes d) = data_notes d /\
      data_deadline d <> Some []
  end.
Proof.
  unfold TaskModal_handleSubmit, record.
  destruct (truthy (trim title)) eqn:Ht.
  - cbn [data_title data_notes data_deadline]. split_and!.
    + intros Hb%trim_blank. congruence.
    + by destruct (trim title).
    + apply trim_trimmed.
    + apply trim_trimmed.
    + apply trimmed_trim, trim_trimmed.
    + apply trimmed_trim, trim_trimmed.
    + unfold or_null. cbn. by destruct deadline.
  - by apply trim_blank.
Qed.

Lemma restore_falsy {A} (of_json : Json.value -> option A)
    (saved : option jsstring) (set : list A -> AppState -> AppState)
    (st : AppState) :
  truthy_opt saved = false -> restore of_json saved set st = Some st.
Proof. unfold restore. destruct saved as [text|]; cbn; [|done]. by intros ->. Qed.

(** X25. A first render over a storage without tasks and projects
    loads the seed data and writes it to the storage; every later
    first render over that storage loads what was written, whatever
    the seed data of the code then is, and leaves the storage alone. *)
Theorem first_run_seeds_once (seedTasks : list Task.Row)
    (seedProjects : list Project.Row) (ls : Storage) (st : AppState) :
  truthy_opt (getItem TASKS_KEY ls) = false ->
  truthy_opt (getItem PROJECTS_KEY ls) = false ->
  truthy_opt (getItem AREAS_KEY ls) = false ->
  truthy_opt (getItem HEADINGS_KEY ls) = false ->
  exists st' ls',
    loadEffect seedTasks seedProjects ls st = Some (st', ls') /\
    tasks st' = seedTasks /\ projects st' = seedProjects /\
    areas st' = areas st /\ headings st' = headings st /\ isLoaded st' = true /\
    forall laterTasks laterProjects st0,
      exists st'',
        loadEffect laterTasks laterProjects ls' st0 = Some (st'', ls') /\
        tasks st'' = seedTasks /\ projects st'' = seedProjects /\
        isLoaded st'' = true.
Proof.
  intros HT HP HA HH.
  set (ls' := setItem PROJECTS_KEY (stringifyRows Project_to_json seedProjects)
                (setItem TASKS_KEY (stringifyRows Task_to_json seedTasks) ls)).
  assert (HT' : getItem TASKS_KEY ls'
                = Some (stringifyRows Task_to_json seedTasks)).
  { unfold ls', getItem, setItem.
    rewrite lookup_insert_ne by (intros E; vm_compute in E; discriminate E).
    apply lookup_insert_eq. }
  assert (HP' : getItem PROJECTS_KEY ls'
                = Some (stringifyRows Project_to_json seedProjects)).
  { unfold ls', getItem, setItem. apply lookup_insert_eq. }
  assert (HA' : getItem AREAS_KEY ls' = getItem AREAS_KEY ls).
  { unfold ls', getItem, setItem.
    by rewrite !lookup_insert_ne by (intros E; vm_compute in E; discriminate E). }
  assert (HH' : getItem HEADINGS_KEY ls' = getItem HEADINGS_KEY ls).
  { unfold ls', getItem, setItem.
    by rewrite !lookup_insert_ne by (intros E; vm_compute in E; discriminate E). }
  eexists _, ls'. split_and!.
  - unfold loadEffect. rewrite HT, HP. unfold FORCE_RESEED. cbn [negb andb orb].
    fold ls'. rewrite (restore_falsy _ _ _ _ HA). cbn [mbind option_bind].
    rewrite (restore_falsy _ _ _ _ HH). cbn [mbind option_bind]. reflexivity.
  - done.
  - done.
  - done.
  - done.
  - done.
  - intros laterTasks laterProjects st0. eexists. split_and!.
    + unfold loadEffect. rewrite HT', HP', HA', HH'. cbn [truthy_opt].
      rewrite !stringifyRows_truthy. unfold FORCE_RESEED. cbn [negb andb orb].
      rewrite (restore_saved Task_to_json) by auto using Task_round_trip, wf_Task.
      cbn [mbind option_bind].
      rewrite (restore_saved Project_to_json)
        by auto using Project_round_trip, wf_Project.
      cbn [mbind option_bind].
      rewrite (restore_falsy _ _ _ _ HA). cbn [mbind option_bind].
      rewrite (restore_falsy _ _ _ _ HH). cbn [mbind option_bind]. reflexivity.
    + done.
    + done.
    + done.
Qed.

End PayloadFacts.

(** ** What every operation keeps *)

Section ConsistencyFacts.

Import JsArray Handlers HomeUi App Props.

Variable generateEmoji : jsstring -> jsstring.
Variable toLowerCase : jsstring -> jsstring.

Lemma startsWith_replace (p s : jsstring) :
  startsWith p s = true -> s = p ++ replace p [] s.
Proof.
  intros Hs. rewrite replace_unfold, Hs. cbn [app].
  revert s Hs. induction p as [|a p IH]; intros s Hs; [done|].
  destruct s as [|b s]; [done|]. cbn in Hs.
  apply andb_true_iff in Hs as [Hab%N.eqb_eq Hs]. subst b.
  cbn. f_equal. by apply IH.
Qed.

Lemma currentProjectId_activeView (st : AppState) (cur : jsstring) :
  currentProjectId st = Some cur -> activeView st = projectView cur.
Proof.
  unfold currentProjectId, projectView.
  destruct (startsWith _ _) eqn:Hs; [|done]. intros [= <-].
  by apply startsWith_replace.
Qed.

Lemma currentProjectId_nav (view : jsstring) (st : AppState) :
  view ∈ Home.navIds -> currentProjectId (setActiveView view st) = None.
Proof.
  unfold Home.navIds. rewrite !elem_of_cons, elem_of_nil.
  intros [->|[->|[->|[->|[->|[->|[]]]]]]]; reflexivity.
Qed.

Lemma currentProjectId_bucket (b : Bucket) (st : AppState) :
  currentProjectId (setActiveView (bucket_name b) st) = None.
Proof. by destruct b. Qed.

Lemma fmap_fmap_same {B C} (g : B -> C) (f : B -> B) (l : list B) :
  (forall x, g (f x) = g x) -> g <$> (f <$> l) = g <$> l.
Proof.
  intros Hg. induction l as [|x l IH]; [done|]. cbn. by rewrite Hg, IH.
Qed.

Lemma Forall_filter_keep {B} (Q P : B -> Prop) `{forall x, Decision (P x)}
    (l : list B) :
  Forall Q l -> Forall Q (filter P l).
Proof.
  intros Hl. apply Forall_forall. intros x [_ Hx]%list_elem_of_filter.
  by eapply Forall_forall in Hl.
Qed.

(** The state with other tasks. *)
Lemma consistent_setTasks (ts : list Task.Row) (st : AppState) :
  consistent st ->
  NoDup (Task.id <$> ts) ->
  Forall (fun t => forall p, Task.project_id t = Some p ->
            p ∈ Project.id <$> projects st) ts ->
  consistent (setTasks ts st).
Proof. intros (HT & HP & HH & Ht & Hh & Hv) Hnd Hts. by split_and!. Qed.

Lemma consistent_fmap_tasks (f : Task.Row -> Task.Row) (st : AppState) :
  consistent st ->
  (forall t, Task.id (f t) = Task.id t) ->
  (forall t p, Task.project_id (f t) = Some p ->
     Task.project_id t = Some p \/ p ∈ Project.id <$> projects st) ->
  consistent (setTasks (f <$> tasks st) st).
Proof.
  intros Hc Hid Hp. apply consistent_setTasks; [done|..].
  - rewrite fmap_fmap_same by done. apply Hc.
  - destruct Hc as (_ & _ & _ & Ht & _). apply Forall_fmap.
    eapply Forall_impl; [exact Ht|]. intros t Hgood p Hfp.
    destruct (Hp t p Hfp) as [?|?]; [by apply Hgood|done].
Qed.

Lemma consistent_filter_tasks (P : Task.Row -> Prop) `{forall t, Decision (P t)}
    (st : AppState) :
  consistent st -> consistent (setTasks (filter P (tasks st)) st).
Proof.
  intros Hc. apply consistent_setTasks; [done|..].
  - apply NoDup_fmap_filter, Hc.
  - apply Forall_filter_keep, Hc.
Qed.

(** The state with other projects that keep the ids there were. *)
Lemma consistent_setProjects (ps : list Project.Row) (st : AppState) :
  consistent st ->
  NoDup (Project.id <$> ps) ->
  (Project.id <$> projects st) ⊆ (Project.id <$> ps) ->
  consistent (setProjects ps st).
Proof.
  intros (HT & HP & HH & Ht & Hh & Hv) Hnd Hsub. split_and!; try done.
  - eapply Forall_impl; [exact Ht|]. intros t Hgood p Hp. by apply Hsub, Hgood.
  - eapply Forall_impl; [exact Hh|]. intros h Hgood. by apply Hsub.
  - intros cur Hcur. by apply Hsub, Hv.
Qed.

Lemma consistent_fmap_projects (f : Project.Row -> Project.Row) (st : AppState) :
  consistent st ->
  (forall p, Project.id (f p) = Project.id p) ->
  consistent (setProjects (f <$> projects st) st).
Proof.
  intros Hc Hid. apply consistent_setProjects; [done|..].
  - rewrite fmap_fmap_same by done. apply Hc.
  - by rewrite fmap_fmap_same.
Qed.

Lemma consistent_add_project (p : Project.Row) (st : AppState) :
  consistent st -> Project.id p ∉ Project.id <$> projects st ->
  consistent (setProjects (projects st ++ [p]) st).
Proof.
  intros Hc Hfresh. apply consistent_setProjects; [done|..].
  - rewrite fmap_app. apply NoDup_app. split_and!; [apply Hc| |].
    + intros x Hx [->|[]%elem_of_nil]%elem_of_cons. done.
    + apply NoDup_singleton.
  - rewrite fmap_app. intros x Hx. apply elem_of_app. by left.
Qed.

(** The state with another view. *)
Lemma consistent_setActiveView (view : jsstring) (st : AppState) :
  consistent st ->
  (forall cur, currentProjectId (setActiveView view st) = Some cur ->
               cur ∈ Project.id <$> projects st) ->
  consistent (setActiveView view st).
Proof. intros (HT & HP & HH & Ht & Hh & Hv) Hview. by split_and!. Qed.

Lemma consistent_nav (view : jsstring) (st : AppState) :
  consistent st -> view ∈ Home.navIds -> consistent (setActiveView view st).
Proof.
  intros Hc Hnav. apply consistent_setActiveView; [done|].
  intros cur. by rewrite currentProjectId_nav.
Qed.

(** The collections and the view are all the property reads. *)
Lemma consistent_same_data (st st' : AppState) :
  same_data st st' -> consistent st -> consistent st'.
Proof.
  intros (HT & HP & HA & HH & HV) Hc. unfold consistent, currentProjectId in *.
  by rewrite HT, HP, HH, HV.
Qed.

Lemma consistent_handleDeleteProject (projectId : jsstring) (st : AppState) :
  consistent st -> consistent (handleDeleteProject projectId st).
Proof.
  intros (HT & HP & HH & Ht & Hh & Hv).
  assert (Hkeep : forall x, x ∈ Project.id <$> projects st -> x <> projectId ->
            x ∈ Project.id <$> filter (fun p => Project.id p <> projectId)
                                 (projects st)).
  { intros x (p & -> & Hp)%list_elem_of_fmap Hne.
    apply list_elem_of_fmap. exists p. split; [done|].
    by apply list_elem_of_filter. }
  assert (Hbody :
    NoDup (Task.id <$> filter (fun t => Task.project_id t <> Some projectId)
                         (tasks st)) /\
    NoDup (Project.id <$> filter (fun p => Project.id p <> projectId)
                            (projects st)) /\
    NoDup (Heading.id <$> filter (fun h => Heading.project_id h <> projectId)
                            (headings st)) /\
    Forall (fun t => forall p, Task.project_id t = Some p ->
              p ∈ Project.id <$> filter (fun p => Project.id p <> projectId)
                                   (projects st))
      (filter (fun t => Task.project_id t <> Some projectId) (tasks st)) /\
    Forall (fun h => Heading.project_id h
              ∈ Project.id <$> filter (fun p => Project.id p <> projectId)
                                 (projects st))
      (filter (fun h => Heading.project_id h <> projectId) (headings st))).
  { split_and!; try by apply NoDup_fmap_filter.
    - apply Forall_forall. intros t [Hne Hin]%list_elem_of_filter p Hp.
      apply Hkeep; [|congruence].
      eapply Forall_forall in Ht; [|exact Hin]. by apply Ht.
    - apply Forall_forall. intros h [Hne Hin]%list_elem_of_filter.
      apply Hkeep; [|done]. by eapply Forall_forall in Hh. }
  destruct Hbody as (HT' & HP' & HH' & Ht' & Hh').
  unfold handleDeleteProject. cbv zeta.
  destruct (decide (activeView st = projectView projectId)) as [Hshown|Hother].
  - by split_and!.
  - split_and!; try done.
    intros cur Hcur. cbn in Hcur. apply Hkeep; [by apply Hv|].
    intros ->. apply Hother. by apply currentProjectId_activeView.
Qed.

Lemma consistent_handleReorderTasks (reorderedTasks : list Task.Row)
    (st : AppState) :
  consistent st -> allowed st (ReorderTasks reorderedTasks) ->
  consistent (handleReorderTasks reorderedTasks st).
Proof.
  intros Hc [Hnd Hrefs]. unfold handleReorderTasks. cbv zeta.
  apply consistent_setTasks; [done|..].
  - rewrite fmap_app. apply NoDup_app. split_and!; [| |done].
    + apply NoDup_fmap_filter, Hc.
    + intros x (t & -> & [Hout _]%list_elem_of_filter)%list_elem_of_fmap Hx.
      apply Hout. by apply elem_of_list_to_set.
  - apply Forall_app. split; [|done]. apply Forall_filter_keep, Hc.
Qed.

Lemma consistent_handleReorderProjects (reorderedProjects : list Project.Row)
    (st : AppState) :
  consistent st -> allowed st (ReorderProjects reorderedProjects) ->
  consistent (handleReorderProjects reorderedProjects st).
Proof.
  intros Hc Hnd. cbn in Hnd. unfold handleReorderProjects. cbv zeta.
  apply consistent_setProjects; [done|..].
  - rewrite fmap_app. apply NoDup_app. split_and!; [done| |].
    + intros x Hx (p & -> & [Hout _]%list_elem_of_filter)%list_elem_of_fmap.
      apply Hout. by apply elem_of_list_to_set.
    + apply NoDup_fmap_filter, Hc.
  - intros x (p & -> & Hp)%list_elem_of_fmap. rewrite fmap_app, elem_of_app.
    destruct (decide (Project.id p ∈ Project.id <$> reorderedProjects));
      [by left|right].
    apply list_elem_of_fmap. exists p. split; [done|].
    apply list_elem_of_filter. split; [|done]. by rewrite elem_of_list_to_set.
Qed.

Lemma consistent_handleAddTask (taskData : TaskData)
    (uuid created updated : jsstring) (st : AppState) :
  consistent st -> uuid ∉ Task.id <$> tasks st ->
  consistent (handleAddTask generateEmoji taskData uuid created updated st).
Proof.
  intros Hc Hfresh. unfold handleAddTask. cbv zeta.
  eapply (consistent_same_data (setTasks _ st)); [by split_and!|].
  apply consistent_setTasks; [done|..].
  - rewrite fmap_app. apply NoDup_app. split_and!; [apply Hc| |].
    + intros x Hx [->|[]%elem_of_nil]%elem_of_cons. done.
    + apply NoDup_singleton.
  - apply Forall_app. split; [apply Hc|]. apply Forall_singleton.
    intros p Hp. cbn in Hp. by apply Hc.
Qed.

Lemma consistent_handleAddHeading (name uuid now : jsstring) (st : AppState) :
  consistent st -> uuid ∉ Heading.id <$> headings st ->
  consistent (handleAddHeading name uuid now st).
Proof.
  intros Hc Hfresh. unfold handleAddHeading.
  destruct (currentProjectId st) as [cur|] eqn:Hcur; [|done].
  destruct (truthy cur); [|done]. cbv zeta.
  destruct Hc as (HT & HP & HH & Ht & Hh & Hv). split_and!; try done.
  - cbn [headings setHeadings]. rewrite fmap_app. apply NoDup_app.
    split_and!; [done| |apply NoDup_singleton].
    intros x Hx [->|[]%elem_of_nil]%elem_of_cons. done.
  - cbn [headings setHeadings projects]. apply Forall_app. split; [done|].
    apply Forall_singleton. cbn. by apply Hv.
Qed.

Lemma consistent_handleUpdateProject (updates : ProjectPartial.t)
    (now : jsstring) (st : AppState) :
  consistent st -> ProjectPartial.id updates = None ->
  consistent (handleUpdateProject updates now st).
Proof.
  intros Hc Hid. unfold handleUpdateProject.
  destruct (currentProjectId st) as [cur|]; [|done].
  destruct (truthy cur); [|done].
  apply consistent_fmap_projects; [done|]. intros p.
  destruct (decide (Project.id p = cur)); [|done]. cbn. by rewrite Hid.
Qed.

Lemma consistent_handleCreateProject (name : jsstring) (areaId : option jsstring)
    (uuid created updated : jsstring) (st : AppState) :
  consistent st -> uuid ∉ Project.id <$> projects st ->
  consistent (handleCreateProject generateEmoji name areaId uuid created updated st).
Proof.
  intros Hc Hfresh. unfold handleCreateProject. cbv zeta.
  apply consistent_setActiveView; [by apply consistent_add_project|].
  intros cur. rewrite currentProjectId_projectView. intros [= <-].
  cbn [projects setProjects]. rewrite fmap_app, elem_of_app. right. by left.
Qed.

Lemma consistent_handleConvertToProject (task : Task.Row)
    (uuid created updated : jsstring) (st : AppState) :
  consistent st -> uuid ∉ Project.id <$> projects st ->
  consistent (handleConvertToProject generateEmoji task uuid created updated st).
Proof.
  intros Hc Hfresh. unfold handleConvertToProject. cbv zeta.
  eapply (consistent_same_data (setActiveView _ (setTasks _ (setProjects _ st))));
    [by split_and!|].
  apply consistent_setActiveView.
  - apply (consistent_filter_tasks _ (setProjects _ st)).
    by apply consistent_add_project.
  - intros cur. rewrite currentProjectId_projectView. intros [= <-].
    cbn [projects setProjects setTasks]. rewrite fmap_app, elem_of_app.
    right. by left.
Qed.

Lemma consistent_handleKeyDown (e : KeyboardEvent) (s : HomeState) :
  consistent (app s) -> consistent (app (handleKeyDown toLowerCase e s)).
Proof.
  intros Hc. unfold handleKeyDown.
  repeat (case_match; try done);
    try (cbn [app setApp]; apply consistent_nav; [done|];
         unfold Home.navIds; rewrite !elem_of_cons; tauto);
    by eapply consistent_same_data; [|exact Hc].
Qed.

Lemma consistent_handleSearchSelect (task : Task.Row) (s : HomeState) :
  consistent (app s) -> task ∈ tasks (app s) ->
  consistent (app (handleSearchSelect task (Task.project_id task) s)).
Proof.
  intros Hc Hin. unfold handleSearchSelect.
  destruct (Task.project_id task) as [pid|] eqn:Hp; cbn [truthy_opt].
  - destruct (truthy pid); cbn [app default from_option id].
    + apply consistent_setActiveView; [done|]. intros cur.
      rewrite currentProjectId_projectView. intros [= <-].
      destruct Hc as (_ & _ & _ & Ht & _).
      eapply Forall_forall in Ht; [|exact Hin]. by apply Ht.
    + destruct (Task.schedule task) as [b|]; [|done].
      apply consistent_setActiveView; [done|]. intros cur.
      by rewrite currentProjectId_bucket.
  - cbn [app]. destruct (Task.schedule task) as [b|]; [|done].
    apply consistent_setActiveView; [done|]. intros cur.
    by rewrite currentProjectId_bucket.
Qed.

Lemma consistent_step (a : Action) (s : HomeState) :
  consistent (app s) -> allowed (app s) a ->
  consistent (app (step generateEmoji toLowerCase a s)).
Proof.
  intros Hc Ha. destruct a; cbn [step app setApp].
  - by apply consistent_handleKeyDown.
  - by apply consistent_handleSearchSelect.
  - destruct Ha as [Hnav|(p & Hp & ->)]; [by apply consistent_nav|].
    apply consistent_setActiveView; [done|]. intros cur.
    rewrite currentProjectId_projectView. intros [= <-].
    apply list_elem_of_fmap. by exists p.
  - by apply consistent_handleCreateProject.
  - by apply consistent_handleDeleteProject.
  - apply consistent_fmap_tasks; [done|..]; intros t; unfold moveTaskToProject;
      destruct (decide (Task.id t = taskId)); try done.
    + cbn. intros p [= <-]. by right.
    + intros p ?. by left.
  - apply consistent_fmap_tasks; [done|..]; intros t; unfold moveTaskToSchedule;
      destruct (decide (Task.id t = taskId)); try done; intros p ?; by left.
  - by apply consistent_handleReorderProjects.
  - apply consistent_fmap_projects; [done|]. intros p.
    by destruct (decide (Project.id p = projectId)).
  - apply consistent_fmap_tasks; [done|..]; intros t; unfold toggleTask;
      destruct (decide (Task.id t = taskId)); try done; intros p ?; by left.
  - apply consistent_fmap_tasks; [done|..]; intros t; unfold scheduleTask;
      destruct (decide (Task.id t = taskId)); try done; intros p ?; by left.
  - by eapply consistent_same_data; [|exact Hc].
  - by eapply consistent_same_data; [|exact Hc].
  - by apply consistent_handleAddTask.
  - by apply consistent_handleAddHeading.
  - by apply consistent_handleUpdateProject.
  - by eapply consistent_same_data; [|exact Hc].
  - by eapply consistent_same_data; [|exact Hc].
  - by apply consistent_filter_tasks.
  - by apply consistent_handleReorderTasks.
  - apply consistent_fmap_tasks; [done|..]; intros t;
      destruct (decide (Task.id t = taskId)); try done; intros p ?; by left.
  - apply consistent_setTasks; [done|..].
    + rewrite snoozeAll_ids. apply Hc.
    + apply snoozeAll_Forall; [done|apply Hc].
  - destruct Ha as [Hid Hproj].
    apply consistent_fmap_tasks; [done|..]; intros t;
      destruct (decide (Task.id t = taskId)); try done.
    + cbn. by rewrite Hid.
    + cbn. destruct (TaskPartial.project_id updates) as [[q|]|] eqn:Hq; cbn.
      * intros p [= <-]. right. by apply Hproj.
      * done.
      * intros p ?. by left.
    + intros p ?. by left.
  - by apply consistent_handleConvertToProject.
  - by eapply consistent_same_data; [|exact Hc].
  - by eapply consistent_same_data; [|exact Hc].
  - done.
  - done.
  - done.
Qed.

Lemma consistent_currentProject (st : AppState) (cur : jsstring) :
  consistent st -> currentProjectId st = Some cur ->
  exists p, Home.currentProject st = Some p /\ Project.id p = cur.
Proof.
  intros (_ & _ & _ & _ & _ & Hv) Hcur.
  apply Hv in Hcur as Hin. apply list_elem_of_fmap in Hin as (p & -> & Hp).
  unfold Home.currentProject. rewrite Hcur.
  destruct (filter (fun q => Project.id q = Project.id p) (projects st))
    as [|x l] eqn:Hf.
  - assert (Hpf : p ∈ filter (fun q => Project.id q = Project.id p) (projects st))
      by by apply list_elem_of_filter.
    rewrite Hf in Hpf. by apply elem_of_nil in Hpf.
  - exists x. split; [done|].
    assert (Hx : x ∈ filter (fun q => Project.id q = Project.id p) (projects st))
      by (rewrite Hf; left).
    by apply list_elem_of_filter in Hx as [? _].
Qed.

(** X26. Every run of operations keeps the state consistent: ids stay
    unique in the tasks, the projects and the headings, and every
    project that a task, a heading or the view names stays a project
    of the collection: deleting a project takes its tasks and headings
    with it and leaves a view that showed it. So a project view always
    has its project to show. *)
Theorem operations_keep_consistency (actions : list Action) (s : HomeState) :
  consistent (app s) ->
  allowed_run generateEmoji toLowerCase actions s ->
  let s' := run generateEmoji toLowerCase actions s in
  consistent (app s') /\
  forall cur, currentProjectId (app s') = Some cur ->
    exists p, Home.currentProject (app s') = Some p /\ Project.id p = cur.
Proof.
  intros Hc Hrun. cbv zeta.
  assert (Hc' : consistent (app (run generateEmoji toLowerCase actions s))).
  { revert s Hc Hrun. induction actions as [|a actions IH]; intros s Hc Hrun;
      [done|].
    destruct Hrun as [Ha Hrun]. cbn [run foldl].
    apply IH; [|done]. by apply consistent_step. }
  split; [done|]. intros cur. by apply consistent_currentProject.
Qed.

End ConsistencyFacts.

(** ** Drops on the sidebar *)

Section DropFacts.

Import JsArray Handlers Props ProjectViewBody.

Variable Date_getTime : jsstring -> number.
Variable localeCompare : jsstring -> jsstring -> Z.

Lemma bucket_of_nav_name (item : jsstring) (b : Bucket) :
  Sidebar.bucket_of_nav item = Some b -> item = bucket_name b /\ b <> Evening.
Proof.
  unfold Sidebar.bucket_of_nav.
  repeat (case_bool_decide; [intros [= <-]; by subst|]). done.
Qed.

(** X27. An open task dragged to a project of the sidebar is rendered
    in the view of that project, in the group without heading; dragged
    to a fixed view other than the logbook, it is among the tasks of
    that view. A drop on the logbook, and a drop that carries no task
    id, change nothing. *)
Theorem sidebar_drop_shows_task (t : Task.Row) (now : jsstring) (st : AppState) :
  t ∈ tasks st -> Task.id t <> [] -> Task.status t <> Completed ->
  (forall projectId sortBy order,
     let st' := setActiveView (projectView projectId)
                  (Sidebar.dropOnProject (Task.id t) projectId now st) in
     exists u,
       Task.id u = Task.id t /\ Task.updated_at u = now /\
       u ∈ tasksWithoutHeading Date_getTime localeCompare sortBy order
             (Views.filteredTasks Date_getTime st')) /\
  (forall item,
     item ∈ Home.navIds -> item <> js "logbook" ->
     exists u,
       Task.id u = Task.id t /\ Task.project_id u = Task.project_id t /\
       u ∈ Views.filteredTasks Date_getTime
             (setActiveView item (Sidebar.dropOnNav item (Task.id t) now st))) /\
  Sidebar.dropOnNav (js "logbook") (Task.id t) now st = st /\
  (forall target, Sidebar.dropOnProject [] target now st = st) /\
  (forall item, Sidebar.dropOnNav item [] now st = st).
Proof.
  intros Hin Hid Hopen.
  assert (Htruthy : truthy (Task.id t) = true) by by destruct (Task.id t).
  split_and!.
  - intros projectId sortBy order. cbv zeta.
    unfold Sidebar.dropOnProject. rewrite Htruthy.
    rewrite (proj1 (filteredTasks_project Date_getTime projectId _)).
    set (u := moveTaskToProject (Task.id t) projectId now t).
    assert (Hu : Task.id u = Task.id t /\ Task.updated_at u = now /\
                 Task.project_id u = Some projectId /\
                 Task.heading_id u = None /\ Task.status u = Task.status t).
    { unfold u, moveTaskToProject. by rewrite decide_True. }
    destruct Hu as (Hu1 & Hu2 & Hu3 & Hu4 & Hu5).
    exists u. split_and!; [done..|].
    unfold tasksWithoutHeading, activeTasks.
    rewrite elem_of_sortTasks, !list_elem_of_filter.
    split_and!; [by rewrite Hu4|by rewrite Hu5|done|].
    cbn [tasks handleMoveTaskToProject setTasks].
    apply list_elem_of_fmap. by exists t.
  - intros item Hnav Hlog.
    assert (Hb : exists b, Sidebar.bucket_of_nav item = Some b).
    { revert Hnav Hlog. unfold Home.navIds. rewrite !elem_of_cons, elem_of_nil.
      intros [->|[->|[->|[->|[->|[->|[]]]]]]] Hlog; try done;
        by eexists. }
    destruct Hb as [b Hb]. unfold Sidebar.dropOnNav. rewrite Hb, Htruthy.
    apply bucket_of_nav_name in Hb as [-> Hev].
    rewrite filteredTasks_bucket.
    set (u := moveTaskToSchedule (Task.id t) b now t).
    assert (Hu : Task.id u = Task.id t /\
                 Task.project_id u = Task.project_id t /\
                 Task.schedule u = Some b /\ Task.status u = Task.status t).
    { unfold u, moveTaskToSchedule. by rewrite decide_True. }
    destruct Hu as (Hu1 & Hu2 & Hu3 & Hu4).
    assert (Hmem : u ∈ tasks (handleMoveTaskToSchedule (Task.id t) b now st)).
    { cbn [tasks handleMoveTaskToSchedule setTasks].
      apply list_elem_of_fmap. by exists t. }
    exists u. split_and!; [done..|].
    destruct b; try done; apply list_elem_of_filter;
      (split; [split; [done|by rewrite Hu4]|done]).
  - reflexivity.
  - done.
  - intros item. unfold Sidebar.dropOnNav.
    by destruct (Sidebar.bucket_of_nav item).
Qed.

End DropFacts.

(** ** The facts above on concrete states *)

Section MoreExamples.

Import JsArray Handlers Props ViewProps ProjectViewBody HomeUi App Persistence.

(** X7 on the state that shows project [p1], which has one task. *)
Lemma delete_dialog_count_witness :
  length (tasks Samples.st1)
    = (length (tasks (handleDeleteProject (js "p1") Samples.st1))
       + Home.deleteDialogCount IsoDate.getTime Samples.st1)%nat /\
  Views.filteredTasks IsoDate.getTime
    (setActiveView (projectView (js "p1"))
       (handleDeleteProject (js "p1") Samples.st1)) = [] /\
  Home.projectHeadings
    (setActiveView (projectView (js "p1"))
       (handleDeleteProject (js "p1") Samples.st1)) = [].
Proof.
  apply (delete_dialog_count IsoDate.getTime (js "p1") Samples.st1). reflexivity.
Defined.

(** X10: task [t1] dropped on Someday. *)
Lemma moved_task_shows_in_bucket_witness :
  Forall (fun t => Task.id t = js "t1" ->
            (Task.status t <> Completed ->
             forall b', Views.inView (bucket_name b') t = true <-> b' = Someday))
    (tasks (handleMoveTaskToSchedule (js "t1") Someday
              (js "2024-03-01T10:00:00.000Z") Samples.st1)) /\
  Task.project_id <$> tasks (handleMoveTaskToSchedule (js "t1") Someday
                               (js "2024-03-01T10:00:00.000Z") Samples.st1)
    = Task.project_id <$> tasks Samples.st1.
Proof.
  apply (moved_task_shows_in_bucket (js "t1") Someday
           (js "2024-03-01T10:00:00.000Z") Samples.st1).
  discriminate.
Defined.

(** X14 on three tasks created on different days. *)
Lemma sortTasks_created_witness :
  let sorted := ProjectView.sortTasks IsoDate.getTime Samples.noCollation Created []
                  [MoreSamples.e1; MoreSamples.e2; MoreSamples.e3] in
  sorted ≡ₚ [MoreSamples.e1; MoreSamples.e2; MoreSamples.e3] /\
  StronglySorted (created_after IsoDate.getTime) sorted.
Proof.
  apply (sortTasks_created IsoDate.getTime Samples.noCollation []
           [MoreSamples.e1; MoreSamples.e2; MoreSamples.e3]).
  repeat first [apply Forall_nil_2 | apply Forall_cons_2];
    eexists; vm_compute; reflexivity.
Defined.

(** X15: the two standalone projects of the sample state, swapped. *)
Lemma sidebar_reorder_round_trip_witness :
  Sidebar.standaloneProjects
    (projects (Sidebar.handleReorder
                 [Samples.project "p2"; Samples.project "p1"] Samples.st1))
  = imap (fun index p => Project_with_position (Z.of_nat index) p)
      [Samples.project "p2"; Samples.project "p1"].
Proof.
  apply (sidebar_reorder_round_trip
           [Samples.project "p2"; Samples.project "p1"] Samples.st1).
  change (Sidebar.standaloneProjects (projects Samples.st1))
    with [Samples.project "p1"; Samples.project "p2"].
  apply Permutation_swap.
Defined.

(** X16: the last of three tasks dragged to the front. *)
Lemma handleTaskReorder_order_witness :
  fst (handleTaskReorder Manual [MoreSamples.e3; MoreSamples.e1]
         ([js "e1"; js "e2"; js "e3"], Samples.st1))
  ≡ₚ [js "e1"; js "e2"; js "e3"].
Proof.
  destruct (handleTaskReorder_order [MoreSamples.e3; MoreSamples.e1]
              [js "e1"; js "e2"; js "e3"] Samples.st1)
    as (_ & _ & _ & H & _).
  apply H.
  - apply (bool_decide_unpack _). vm_compute. exact I.
  - apply (bool_decide_unpack _). vm_compute. exact I.
  - apply (bool_decide_unpack _). vm_compute. exact I.
Defined.

(** X17: the two tasks of the sample state, swapped. *)
Lemma handleReorderTasks_keeps_ids_witness :
  let st' := handleReorderTasks [Samples.t2; Samples.t1] Samples.st1 in
  (Task.id <$> tasks st') ≡ₚ (Task.id <$> tasks Samples.st1) /\
  NoDup (Task.id <$> tasks st') /\
  filter (fun t => Task.id t ∉ Task.id <$> [Samples.t2; Samples.t1]) (tasks st')
  = filter (fun t => Task.id t ∉ Task.id <$> [Samples.t2; Samples.t1])
      (tasks Samples.st1).
Proof.
  apply (handleReorderTasks_keeps_ids [Samples.t2; Samples.t1] Samples.st1).
  - apply (bool_decide_unpack _). vm_compute. exact I.
  - apply (bool_decide_unpack _). vm_compute. exact I.
  - apply (bool_decide_unpack _). vm_compute. exact I.
Defined.

(** X18 on three tasks stored out of position order. *)
Lemma manual_groups_by_position_witness :
  StronglySorted position_before
    (tasksWithoutHeading IsoDate.getTime Samples.noCollation Manual
       (syncLocalTaskOrder [MoreSamples.e1; MoreSamples.e2; MoreSamples.e3])
       [MoreSamples.e1; MoreSamples.e2; MoreSamples.e3]) /\
  Forall (fun g => StronglySorted position_before g.2)
    (tasksByHeading IsoDate.getTime Samples.noCollation Manual
       (syncLocalTaskOrder [MoreSamples.e1; MoreSamples.e2; MoreSamples.e3])
       [Samples.heading "h1" "p1"]
       [MoreSamples.e1; MoreSamples.e2; MoreSamples.e3]).
Proof.
  apply (manual_groups_by_position IsoDate.getTime Samples.noCollation
           [Samples.heading "h1" "p1"]
           [MoreSamples.e1; MoreSamples.e2; MoreSamples.e3]).
  apply (bool_decide_unpack _). vm_compute. exact I.
Defined.

(** X19: the query [milk] over the sample tasks, and the keys down,
    down, up. *)
Lemma search_selection_in_range_witness :
  let flatResults := SpotlightSearch.filteredTasks MoreSamples.asTyped
                       (js "milk") [Samples.t1; Samples.t2] in
  let i := SpotlightSearch.pressAll flatResults
             [SpotlightSearch.ArrowDown; SpotlightSearch.ArrowDown;
              SpotlightSearch.ArrowUp] 0 in
  exists task,
    task ∈ [Samples.t1; Samples.t2] /\
    SpotlightSearch.matches MoreSamples.asTyped (js "milk") task = true /\
    SpotlightSearch.handleKeyDown flatResults SpotlightSearch.Enter i
    = (i, SpotlightSearch.Selected task (Task.project_id task)).
Proof.
  destruct (search_selection_in_range MoreSamples.asTyped (js "milk")
              [Samples.t1; Samples.t2]
              [SpotlightSearch.ArrowDown; SpotlightSearch.ArrowDown;
               SpotlightSearch.ArrowUp]) as [_ H].
  apply H. intros E. vm_compute in E. discriminate E.
Defined.

(** X20: the task of project [p1] picked in the search. *)
Lemma search_select_shows_task_witness :
  let s' := handleSearchSelect Samples.t1 (Task.project_id Samples.t1)
              MoreSamples.home in
  showSearch s' = false /\
  highlightedTaskId s' = Some (Task.id Samples.t1) /\
  tasks (app s') = tasks (app MoreSamples.home) /\
  (truthy_opt (Task.project_id Samples.t1) = true ->
   Samples.t1 ∈ Views.filteredTasks IsoDate.getTime (app s')) /\
  (truthy_opt (Task.project_id Samples.t1) = false ->
   forall b, Task.schedule Samples.t1 = Some b -> b <> Evening ->
     (Samples.t1 ∈ Views.filteredTasks IsoDate.getTime (app s')
      <-> Task.status Samples.t1 <> Completed)).
Proof.
  apply (search_select_shows_task IsoDate.getTime Samples.t1 MoreSamples.home).
  apply elem_of_cons. by left.
Defined.

(** X21: the open task [t1] cancelled. *)
Lemma modal_cancel_keeps_views_witness :
  let st' := TaskDetailModal.handleCancel Samples.t1
               (js "2024-03-01T10:00:00.000Z") (js "2024-03-01T10:00:00.001Z")
               Samples.st1 in
  (forall view,
     Task.id <$> Views.filteredTasks IsoDate.getTime (setActiveView view st')
     = Task.id <$> Views.filteredTasks IsoDate.getTime
                     (setActiveView view Samples.st1)) /\
  Forall (fun u => Task.id u <> Task.id Samples.t1)
    (Views.filteredTasks IsoDate.getTime (setActiveView (js "logbook") st')) /\
  Forall (fun u => Task.id u = Task.id Samples.t1 ->
            Task.status u = Cancelled /\
            Task.completed_at u = Some (js "2024-03-01T10:00:00.000Z"))
    (tasks st').
Proof.
  apply (modal_cancel_keeps_views IsoDate.getTime Samples.t1
           (js "2024-03-01T10:00:00.000Z") (js "2024-03-01T10:00:00.001Z")
           Samples.st1).
  intros u Hu _.
  apply elem_of_cons in Hu as [->|Hu]; [discriminate|].
  apply elem_of_cons in Hu as [->|Hu]; [discriminate|].
  by apply elem_of_nil in Hu.
Defined.

(** X22: the task [t1] completed from the modal. *)
Lemma modal_complete_moves_to_logbook_witness :
  let st' := TaskDetailModal.handleComplete Samples.t1
               (js "2024-03-01T10:00:00.000Z") (js "2024-03-01T10:00:00.001Z")
               Samples.st1 in
  selectedTask st' = None /\
  (forall b,
     Forall (fun u => Task.id u <> Task.id Samples.t1)
       (Views.filteredTasks IsoDate.getTime
          (setActiveView (bucket_name b) st'))) /\
  exists u,
    u ∈ Views.filteredTasks IsoDate.getTime (setActiveView (js "logbook") st') /\
    Task.id u = Task.id Samples.t1 /\ Task.status u = Completed /\
    Task.completed_at u = Some (js "2024-03-01T10:00:00.000Z") /\
    Task.updated_at u = js "2024-03-01T10:00:00.001Z".
Proof.
  apply (modal_complete_moves_to_logbook IsoDate.getTime Samples.t1
           (js "2024-03-01T10:00:00.000Z") (js "2024-03-01T10:00:00.001Z")
           Samples.st1).
  apply elem_of_cons. by left.
Defined.

(** X23: the task [t1], under heading [h1] of project [p1], saved with
    project [p2]. *)
Lemma modal_save_keeps_heading_witness :
  let st' := setActiveView (projectView (js "p2"))
               (TaskDetailModal.handleSave Samples.t1 MoreSamples.form_p2
                  (js "2024-03-01T10:00:00.000Z") Samples.st1) in
  exists u,
    u ∈ Views.filteredTasks IsoDate.getTime st' /\
    Task.id u = Task.id Samples.t1 /\ Task.heading_id u = Some (js "h1") /\
    u ∉ renderedActive IsoDate.getTime Samples.noCollation Manual []
          (Home.projectHeadings st') (Views.filteredTasks IsoDate.getTime st').
Proof.
  apply (modal_save_keeps_heading IsoDate.getTime Samples.noCollation
           Samples.t1 MoreSamples.form_p2 (js "2024-03-01T10:00:00.000Z")
           (js "h1") Manual [] Samples.st1).
  - apply elem_of_cons. by left.
  - intros E. vm_compute in E. discriminate E.
  - reflexivity.
  - intros E. vm_compute in E. discriminate E.
  - intros hd Hhd Hid E.
    apply elem_of_cons in Hhd as [->|Hhd];
      [vm_compute in E; discriminate E|].
    apply elem_of_cons in Hhd as [->|Hhd];
      [vm_compute in Hid; discriminate Hid|].
    by apply elem_of_nil in Hhd.
Defined.

(** X25 on an empty storage, with one seed task and one seed project. *)
Lemma first_run_seeds_once_witness :
  exists st' ls',
    loadEffect [Samples.t1] [Samples.project "p1"] ∅ initialState
      = Some (st', ls') /\
    tasks st' = [Samples.t1] /\ projects st' = [Samples.project "p1"] /\
    areas st' = areas initialState /\ headings st' = headings initialState /\
    isLoaded st' = true /\
    forall laterTasks laterProjects st0,
      exists st'',
        loadEffect laterTasks laterProjects ls' st0 = Some (st'', ls') /\
        tasks st'' = [Samples.t1] /\ projects st'' = [Samples.project "p1"] /\
        isLoaded st'' = true.
Proof.
  apply (first_run_seeds_once [Samples.t1] [Samples.project "p1"] ∅ initialState);
    unfold getItem; by rewrite lookup_empty.
Defined.

Lemma consistent_st1 : consistent Samples.st1.
Proof.
  split_and!.
  - apply (bool_decide_unpack _). vm_compute. exact I.
  - apply (bool_decide_unpack _). vm_compute. exact I.
  - apply (bool_decide_unpack _). vm_compute. exact I.
  - repeat first [apply Forall_nil_2 | apply Forall_cons_2];
      intros p Hp; try discriminate Hp; injection Hp as <-;
      apply (bool_decide_unpack _); vm_compute; exact I.
  - repeat first [apply Forall_nil_2 | apply Forall_cons_2];
      apply (bool_decide_unpack _); vm_compute; exact I.
  - intros cur Hcur. vm_compute in Hcur. injection Hcur as <-.
    apply (bool_decide_unpack _). vm_compute. exact I.
Qed.

(** X26: the project shown is deleted, a task is ticked off, and
    Command-3 is pressed. *)
Lemma operations_keep_consistency_witness :
  let s' := run Samples.starEmoji MoreSamples.asTyped
              [DeleteProject (js "p1");
               ToggleTask (js "t2") true (js "2024-03-01T10:00:00.000Z");
               KeyDown (mkKey false (js "3") true)]
              MoreSamples.home in
  consistent (app s') /\
  forall cur, currentProjectId (app s') = Some cur ->
    exists p, Home.currentProject (app s') = Some p /\ Project.id p = cur.
Proof.
  apply (operations_keep_consistency Samples.starEmoji MoreSamples.asTyped
           [DeleteProject (js "p1");
            ToggleTask (js "t2") true (js "2024-03-01T10:00:00.000Z");
            KeyDown (mkKey false (js "3") true)]
           MoreSamples.home).
  - exact consistent_st1.
  - cbn. tauto.
Defined.

(** X27: the task [t2], which has no project, dragged. *)
Lemma sidebar_drop_shows_task_witness :
  (forall projectId sortBy order,
     let st' := setActiveView (projectView projectId)
                  (Sidebar.dropOnProject (Task.id Samples.t2) projectId
                     (js "2024-03-01T10:00:00.000Z") Samples.st1) in
     exists u,
       Task.id u = Task.id Samples.t2 /\
       Task.updated_at u = js "2024-03-01T10:00:00.000Z" /\
       u ∈ tasksWithoutHeading IsoDate.getTime Samples.noCollation sortBy order
             (Views.filteredTasks IsoDate.getTime st')) /\
  (forall item,
     item ∈ Home.navIds -> item <> js "logbook" ->
     exists u,
       Task.id u = Task.id Samples.t2 /\
       Task.project_id u = Task.project_id Samples.t2 /\
       u ∈ Views.filteredTasks IsoDate.getTime
             (setActiveView item
                (Sidebar.dropOnNav item (Task.id Samples.t2)
                   (js "2024-03-01T10:00:00.000Z") Samples.st1))) /\
  Sidebar.dropOnNav (js "logbook") (Task.id Samples.t2)
    (js "2024-03-01T10:00:00.000Z") Samples.st1 = Samples.st1 /\
  (forall target,
     Sidebar.dropOnProject [] target (js "2024-03-01T10:00:00.000Z") Samples.st1
     = Samples.st1) /\
  (forall item,
     Sidebar.dropOnNav item [] (js "2024-03-01T10:00:00.000Z") Samples.st1
     = Samples.st1).
Proof.
  apply (sidebar_drop_shows_task IsoDate.getTime Samples.noCollation Samples.t2
           (js "2024-03-01T10:00:00.000Z") Samples.st1).
  - apply elem_of_cons. right. apply elem_of_cons. by left.
  - intros E. vm_compute in E. discriminate E.
  - discriminate.
Defined.

(** X28: the task [t1] saved as it was opened. *)
Lemma modal_save_unedited_witness :
  let st' := TaskDetailModal.handleSave Samples.t1
               (TaskDetailModal.initialForm Samples.t1)
               (js "2024-03-01T10:00:00.000Z") Samples.st1 in
  selectedTask st' = None /\
  Task.id <$> tasks st' = Task.id <$> tasks Samples.st1 /\
  exists u,
    u ∈ tasks st' /\
    u = {| Task.id := Task.id Samples.t1;
           Task.user_id := Task.user_id Samples.t1;
           Task.project_id := or_null (Task.project_id Samples.t1);
           Task.heading_id := Task.heading_id Samples.t1;
           Task.title := Task.title Samples.t1;
           Task.emoji := Task.emoji Samples.t1;
           Task.notes := or_null (Task.notes Samples.t1);
           Task.status := Task.status Samples.t1;
           Task.schedule := Task.schedule Samples.t1;
           Task.scheduled_date := or_null (Task.scheduled_date Samples.t1);
           Task.deadline := or_null (Task.deadline Samples.t1);
           Task.position := Task.position Samples.t1;
           Task.created_at := Task.created_at Samples.t1;
           Task.updated_at := js "2024-03-01T10:00:00.000Z";
           Task.completed_at := Task.completed_at Samples.t1 |}.
Proof.
  apply (modal_save_unedited Samples.t1 (js "2024-03-01T10:00:00.000Z")
           Samples.st1).
  apply elem_of_cons. by left.
Defined.

(** X29: a heading added to project [p1], which has one. *)
Lemma added_heading_shows_in_project_witness :
  let st' := handleAddHeading (js "Later") (js "h3")
               (js "2024-03-01T10:00:00.000Z") Samples.st1 in
  exists h,
    Home.projectHeadings st' = Home.projectHeadings Samples.st1 ++ [h] /\
    headings st' = headings Samples.st1 ++ [h] /\
    Heading.id h = js "h3" /\ Heading.name h = js "Later" /\
    Heading.project_id h = js "p1" /\
    Heading.position h = Z.of_nat (length (Home.projectHeadings Samples.st1)) /\
    tasks st' = tasks Samples.st1 /\ activeView st' = activeView Samples.st1.
Proof.
  apply (added_heading_shows_in_project (js "Later") (js "h3")
           (js "2024-03-01T10:00:00.000Z") (js "p1") Samples.st1).
  - reflexivity.
  - intros E. vm_compute in E. discriminate E.
Defined.

End MoreExamples.
